(** * VCMI JSON document model: JsonNode, pointer resolution and JsonWriter

    A shallow embedding of [lib/json/JsonNode.cpp] and
    [lib/json/JsonWriter.cpp], and the properties of the node value model,
    the pointer resolver and the writer.

    Conventions of the embedding:
    - [std::string] is [string]; a [char] is an [ascii];
    - [size_t] is an [N] below [2^64], [si64] a [Z]; arithmetic that can
      leave the range has its wrap-around written out;
    - [double] is a [spec_float] (sign, mantissa, exponent);
    - a [const] member function is a pure function of the node; a
      non-[const] one returns the node after the call next to its result;
    - a C++ exception or a failed [assert] is a [Throw] in [result]. *)

From Stdlib Require Import ZArith NArith List String Ascii Bool Lia.
From Stdlib Require Import Floats.SpecFloat.
From Equations Require Import Equations.
Import ListNotations.

Local Open Scope string_scope.
Local Open Scope list_scope.

(** ** Machine types *)

Definition size_t := N.
Definition SIZE_MAX : N := (2 ^ 64 - 1)%N.
Definition size_t_wrap (n : N) : size_t := (n mod 2 ^ 64)%N.

Definition si64 := Z.
Definition SI64_MIN : Z := (- 2 ^ 63)%Z.
Definition SI64_MAX : Z := (2 ^ 63 - 1)%Z.
Definition si64_in_range (z : Z) : bool :=
  ((SI64_MIN <=? z) && (z <=? SI64_MAX))%Z.

Definition double := spec_float.

(** [static_cast<si64>(double)]: the fractional part is discarded.  The
    conversion is undefined in C++ when the truncated value does not fit
    (or the operand is not finite); the model then yields the value the
    x86-64 conversion instruction produces, [SI64_MIN]. *)
Definition truncate_double (d : double) : option Z :=
  match d with
  | S754_zero _ => Some 0%Z
  | S754_finite s m e =>
      let mag := if (0 <=? e)%Z then (Zpos m * 2 ^ e)%Z
                 else (Zpos m / 2 ^ (- e))%Z in
      Some (if s then (- mag)%Z else mag)
  | S754_infinity _ | S754_nan => None
  end.

Definition si64_of_double (d : double) : si64 :=
  match truncate_double d with
  | Some z => if si64_in_range z then z else SI64_MIN
  | None => SI64_MIN
  end.

(** [static_cast<double>(si64)]: the nearest binary64 value, ties to even. *)
Definition double_of_si64 (i : si64) : double :=
  binary_normalize 53 1024 i 0 false.

(** ** Exceptions *)

Inductive exception : Type :=
| runtime_error (what : string)
| bad_lexical_cast
| assertion_failed.

Inductive result (A : Type) : Type :=
| Ok (a : A)
| Throw (e : exception).
Arguments Ok {A} a.
Arguments Throw {A} e.

Definition InvalidPointer : exception := runtime_error "Invalid Json pointer".

(** [assert(cond)]: nothing when [NDEBUG] is defined, otherwise the program
    aborts when [cond] is false. *)
Definition assert_ (NDEBUG : bool) (cond : bool) : result unit :=
  if NDEBUG || cond then Ok tt else Throw assertion_failed.

(** ** The node value model *)

(** Modelled from the spec: [JsonNode.h] is not part of the sources.  The
    node holds a variant over seven alternatives (the discriminant is the
    variant's index), a provenance string [meta] and a list of [flags];
    [JsonVector] is a [std::vector] of nodes and [JsonMap] a [std::map] from
    string keys to nodes, here the list of its entries in iteration order. *)
Inductive JsonType : Type :=
| DATA_NULL | DATA_BOOL | DATA_FLOAT | DATA_STRING
| DATA_VECTOR | DATA_STRUCT | DATA_INTEGER.

Definition JsonType_eqb (a b : JsonType) : bool :=
  match a, b with
  | DATA_NULL, DATA_NULL | DATA_BOOL, DATA_BOOL | DATA_FLOAT, DATA_FLOAT
  | DATA_STRING, DATA_STRING | DATA_VECTOR, DATA_VECTOR
  | DATA_STRUCT, DATA_STRUCT | DATA_INTEGER, DATA_INTEGER => true
  | _, _ => false
  end.

Inductive JsonData (Node : Type) : Type :=
| V_monostate
| V_bool (b : bool)
| V_double (d : double)
| V_string (s : string)
| V_JsonVector (v : list Node)
| V_JsonMap (m : list (string * Node))
| V_si64 (i : si64).
Arguments V_monostate {Node}.
Arguments V_bool {Node} b.
Arguments V_double {Node} d.
Arguments V_string {Node} s.
Arguments V_JsonVector {Node} v.
Arguments V_JsonMap {Node} m.
Arguments V_si64 {Node} i.

#[warning="-register-all"]
Inductive JsonNode : Type :=
| mkJsonNode (data : JsonData JsonNode) (meta : string) (flags : list string).

Definition JsonVector := list JsonNode.
Definition JsonMap := list (string * JsonNode).

Definition data (n : JsonNode) : JsonData JsonNode :=
  match n with mkJsonNode d _ _ => d end.
Definition meta (n : JsonNode) : string :=
  match n with mkJsonNode _ m _ => m end.
Definition flags (n : JsonNode) : list string :=
  match n with mkJsonNode _ _ f => f end.
Definition set_data (n : JsonNode) (d : JsonData JsonNode) : JsonNode :=
  mkJsonNode d (meta n) (flags n).

(** [data.index()] *)
Definition index {Node} (d : JsonData Node) : JsonType :=
  match d with
  | V_monostate => DATA_NULL
  | V_bool _ => DATA_BOOL
  | V_double _ => DATA_FLOAT
  | V_string _ => DATA_STRING
  | V_JsonVector _ => DATA_VECTOR
  | V_JsonMap _ => DATA_STRUCT
  | V_si64 _ => DATA_INTEGER
  end.

Definition getType (n : JsonNode) : JsonType := index (data n).

(** A default-constructed node, and the file-level [nullNode] sentinel. *)
Definition JsonNode_default : JsonNode := mkJsonNode V_monostate EmptyString [].
Definition nullNode : JsonNode := JsonNode_default.

(** [JsonNode::setType] *)
Definition setType (Type_ : JsonType) (n : JsonNode) : JsonNode :=
  if JsonType_eqb (getType n) Type_ then n
  else
    match data n, Type_ with
    | V_double d, DATA_INTEGER => set_data n (V_si64 (si64_of_double d))
    | V_si64 i, DATA_FLOAT => set_data n (V_double (double_of_si64 i))
    | _, DATA_NULL => set_data n V_monostate
    | _, DATA_BOOL => set_data n (V_bool false)
    | _, DATA_FLOAT => set_data n (V_double (S754_zero false))
    | _, DATA_STRING => set_data n (V_string EmptyString)
    | _, DATA_VECTOR => set_data n (V_JsonVector [])
    | _, DATA_STRUCT => set_data n (V_JsonMap [])
    | _, DATA_INTEGER => set_data n (V_si64 0%Z)
    end.

Definition isNull (n : JsonNode) : bool := JsonType_eqb (getType n) DATA_NULL.
Definition isNumber (n : JsonNode) : bool :=
  JsonType_eqb (getType n) DATA_INTEGER || JsonType_eqb (getType n) DATA_FLOAT.
Definition isString (n : JsonNode) : bool := JsonType_eqb (getType n) DATA_STRING.
Definition isVector (n : JsonNode) : bool := JsonType_eqb (getType n) DATA_VECTOR.
Definition isStruct (n : JsonNode) : bool := JsonType_eqb (getType n) DATA_STRUCT.

(** ** Typed accessors *)

(** The non-[const] accessors coerce the node: [setType], then the payload. *)
Definition Bool_mut (n : JsonNode) : JsonNode * bool :=
  let n := setType DATA_BOOL n in
  (n, match data n with V_bool b => b | _ => false end).

Definition Float_mut (n : JsonNode) : JsonNode * double :=
  let n := setType DATA_FLOAT n in
  (n, match data n with V_double d => d | _ => S754_zero false end).

Definition Integer_mut (n : JsonNode) : JsonNode * si64 :=
  let n := setType DATA_INTEGER n in
  (n, match data n with V_si64 i => i | _ => 0%Z end).

Definition String_mut (n : JsonNode) : JsonNode * string :=
  let n := setType DATA_STRING n in
  (n, match data n with V_string s => s | _ => EmptyString end).

Definition Vector_mut (n : JsonNode) : JsonNode * JsonVector :=
  let n := setType DATA_VECTOR n in
  (n, match data n with V_JsonVector v => v | _ => [] end).

Definition Struct_mut (n : JsonNode) : JsonNode * JsonMap :=
  let n := setType DATA_STRUCT n in
  (n, match data n with V_JsonMap m => m | _ => [] end).

Definition boolDefault : bool := false.
Definition floatDefault : double := S754_zero false.
Definition integerDefault : si64 := 0%Z.
Definition stringDefault : string := EmptyString.
Definition vectorDefault : JsonVector := [].
Definition mapDefault : JsonMap := [].

Section ConstAccess.
(** Whether the program is compiled with [NDEBUG] (assertions removed). *)
Variable NDEBUG : bool.

Definition type_is (n : JsonNode) (t : JsonType) : bool :=
  JsonType_eqb (getType n) t.

Definition Bool_const (n : JsonNode) : result bool :=
  match assert_ NDEBUG (type_is n DATA_NULL || type_is n DATA_BOOL) with
  | Throw e => Throw e
  | Ok _ =>
      match data n with
      | V_bool b => Ok b
      | _ => Ok boolDefault
      end
  end.

Definition Float_const (n : JsonNode) : result double :=
  match assert_ NDEBUG (type_is n DATA_NULL || type_is n DATA_INTEGER
                        || type_is n DATA_FLOAT) with
  | Throw e => Throw e
  | Ok _ =>
      match data n with
      | V_double d => Ok d
      | V_si64 i => Ok (double_of_si64 i)
      | _ => Ok floatDefault
      end
  end.

Definition Integer_const (n : JsonNode) : result si64 :=
  match assert_ NDEBUG (type_is n DATA_NULL || type_is n DATA_INTEGER
                        || type_is n DATA_FLOAT) with
  | Throw e => Throw e
  | Ok _ =>
      match data n with
      | V_si64 i => Ok i
      | V_double d => Ok (si64_of_double d)
      | _ => Ok integerDefault
      end
  end.

Definition String_const (n : JsonNode) : result string :=
  match assert_ NDEBUG (type_is n DATA_NULL || type_is n DATA_STRING) with
  | Throw e => Throw e
  | Ok _ =>
      match data n with
      | V_string s => Ok s
      | _ => Ok stringDefault
      end
  end.

Definition Vector_const (n : JsonNode) : result JsonVector :=
  match assert_ NDEBUG (type_is n DATA_NULL || type_is n DATA_VECTOR) with
  | Throw e => Throw e
  | Ok _ =>
      match data n with
      | V_JsonVector v => Ok v
      | _ => Ok vectorDefault
      end
  end.

Definition Struct_const (n : JsonNode) : result JsonMap :=
  match assert_ NDEBUG (type_is n DATA_NULL || type_is n DATA_STRUCT) with
  | Throw e => Throw e
  | Ok _ =>
      match data n with
      | V_JsonMap m => Ok m
      | _ => Ok mapDefault
      end
  end.
End ConstAccess.

(** ** Indexing *)

(** [std::map::find]: the value stored under [key], if any. *)
Fixpoint map_find (key : string) (m : JsonMap) : option JsonNode :=
  match m with
  | [] => None
  | (k, v) :: m' => if String.eqb k key then Some v else map_find key m'
  end.

(** Where [std::map] places a new key: before the first greater key.  The
    comparison of [JsonMap] is part of its declaration in [JsonNode.h]; the
    order of [std::string] is taken here, and no property below depends on
    the place of a new entry. *)
Fixpoint map_emplace (key : string) (v : JsonNode) (m : JsonMap) : JsonMap :=
  match m with
  | [] => [(key, v)]
  | (k, v') :: m' =>
      if String.ltb key k then (key, v) :: m
      else (k, v') :: map_emplace key v m'
  end.

(** [std::map::operator[]]: the entry under [key], default-constructed
    first when the map has none. *)
Definition map_subscript (key : string) (m : JsonMap) : JsonMap * JsonNode :=
  match map_find key m with
  | Some v => (m, v)
  | None => (map_emplace key JsonNode_default m, JsonNode_default)
  end.

(** [std::vector::resize]: cut to [n] elements, or pad with
    default-constructed nodes. *)
Definition resize (v : JsonVector) (n : nat) : JsonVector :=
  firstn n v ++ repeat JsonNode_default (n - List.length v).

(** [JsonNode::operator[](const std::string &)] *)
Definition subscript_key_mut (n : JsonNode) (child : string)
  : JsonNode * JsonNode :=
  let (n, m) := Struct_mut n in
  let (m, v) := map_subscript child m in
  (set_data n (V_JsonMap m), v).

(** [JsonNode::operator[](const std::string &) const] *)
Definition subscript_key (NDEBUG : bool) (n : JsonNode) (child : string)
  : result JsonNode :=
  match Struct_const NDEBUG n with
  | Throw e => Throw e
  | Ok m =>
      match map_find child m with
      | Some v => Ok v
      | None => Ok nullNode
      end
  end.

(** [JsonNode::operator[](size_t)]: the second component is the element
    referred to, [None] when the access is outside the vector (which the
    wrap-around of [child + 1] makes possible). *)
Definition subscript_index_mut (n : JsonNode) (child : size_t)
  : JsonNode * option JsonNode :=
  let (n, v) := Vector_mut n in
  let v := if (N.of_nat (List.length v) <=? child)%N
           then resize v (N.to_nat (size_t_wrap (child + 1)))
           else v in
  (set_data n (V_JsonVector v), nth_error v (N.to_nat child)).

(** [JsonNode::operator[](size_t) const] *)
Definition subscript_index (NDEBUG : bool) (n : JsonNode) (child : size_t)
  : result JsonNode :=
  match Vector_const NDEBUG n with
  | Throw e => Throw e
  | Ok v =>
      if (child <? N.of_nat (List.length v))%N
      then match nth_error v (N.to_nat child) with
           | Some e => Ok e
           | None => Ok nullNode
           end
      else Ok nullNode
  end.

(** ** Strings *)

(** [std::string::find(char, pos)]; [None] is [npos]. *)
Fixpoint find_from (c : ascii) (pos : nat) (s : string) : option nat :=
  match s with
  | EmptyString => None
  | String a s' =>
      match pos with
      | O => if Ascii.eqb a c then Some O else option_map S (find_from c O s')
      | S p => option_map S (find_from c p s')
      end
  end.

Definition string_mem (c : ascii) (chars : string) : bool :=
  match find_from c 0 chars with Some _ => true | None => false end.

(** [std::string::find_first_not_of(chars)] *)
Fixpoint find_first_not_of (chars : string) (s : string) : option nat :=
  match s with
  | EmptyString => None
  | String a s' =>
      if string_mem a chars then option_map S (find_first_not_of chars s')
      else Some O
  end.

(** [std::string::substr(pos)], for [pos] within the string. *)
Definition substr_from (pos : nat) (s : string) : string :=
  substring pos (String.length s - pos) s.

Definition digit_value (c : ascii) : option N :=
  let n := N_of_ascii c in
  if ((48 <=? n) && (n <=? 57))%N then Some (n - 48)%N else None.

Fixpoint decimal_value (acc : N) (s : string) : option N :=
  match s with
  | EmptyString => Some acc
  | String c s' =>
      match digit_value c with
      | Some d => decimal_value (10 * acc + d)%N s'
      | None => None
      end
  end.

(** [boost::lexical_cast<size_t>] on an unsigned decimal numeral: the empty
    string and a value above [SIZE_MAX] are refused. *)
Definition lexical_cast_size_t (s : string) : result size_t :=
  match s with
  | EmptyString => Throw bad_lexical_cast
  | _ =>
      match decimal_value 0 s with
      | Some n => if (n <=? SIZE_MAX)%N then Ok n else Throw bad_lexical_cast
      | None => Throw bad_lexical_cast
      end
  end.

(** ** Pointer resolution *)

(** The locals [splitPos], [entry] and [remainer] of [resolvePointer].  When
    [splitPos] is [npos], the count [splitPos - 1] exceeds every length and
    [substr] takes the rest of the string. *)
Definition pointer_splitPos (pointer : string) : option nat :=
  find_from "/" 1 pointer.

Definition pointer_entry (pointer : string) : string :=
  match pointer_splitPos pointer with
  | Some splitPos => substring 1 (splitPos - 1) pointer
  | None => substr_from 1 pointer
  end.

Definition pointer_remainer (pointer : string) : string :=
  match pointer_splitPos pointer with
  | Some splitPos => substr_from splitPos pointer
  | None => EmptyString
  end.

Lemma find_from_ge c pos s k : find_from c pos s = Some k -> pos <= k.
Proof.
  revert pos k; induction s as [|a s IH]; intros pos k; simpl; [discriminate|].
  destruct pos as [|p].
  - intros _. apply Nat.le_0_l.
  - destruct (find_from c p s) as [j|] eqn:E; simpl; [|discriminate].
    intros [= <-]. apply IH in E. lia.
Qed.

Lemma substring_length_le n m s :
  String.length (substring n m s) <= String.length s - n.
Proof.
  revert n m; induction s as [|a s IH]; intros [|n] [|m]; simpl; try lia.
  - specialize (IH 0 m). lia.
  - apply IH.
  - apply IH.
Qed.

Lemma pointer_remainer_shorter c rest :
  String.length (pointer_remainer (String c rest))
  < String.length (String c rest).
Proof.
  unfold pointer_remainer, pointer_splitPos.
  destruct (find_from "/" 1 (String c rest)) as [k|] eqn:E.
  - apply find_from_ge in E. unfold substr_from.
    pose proof (substring_length_le k (String.length (String c rest) - k)
                  (String c rest)) as H.
    change (String.length (String c rest)) with (S (String.length rest)) in *.
    lia.
  - simpl. lia.
Qed.

Definition is_vector (n : JsonNode) : option JsonVector :=
  match data n with V_JsonVector v => Some v | _ => None end.

(** The checks [resolvePointer] makes on [entry] at a vector node, up to
    the cast to an index. *)
Definition vector_index (entry : string) : result size_t :=
  match find_first_not_of "0123456789" entry with
  | Some _ => Throw InvalidPointer
  | None =>
      if (1 <? String.length entry)%nat &&
         match get 0 entry with Some c => Ascii.eqb c "0" | None => false end
      then Throw InvalidPointer
      else lexical_cast_size_t entry
  end.

(** [resolvePointer<const JsonNode>]: the template instantiated at a
    [const] node, where [in.Vector()] and [in[entry]] are the [const]
    overloads. *)
Equations? resolvePointer (NDEBUG : bool) (in_ : JsonNode) (pointer : string)
  : result JsonNode by wf (String.length pointer) lt :=
resolvePointer NDEBUG in_ EmptyString := Ok in_;
resolvePointer NDEBUG in_ (String c rest) :=
  let pointer := String c rest in
  match assert_ NDEBUG (Ascii.eqb c "/") with
  | Throw e => Throw e
  | Ok _ =>
      let entry := pointer_entry pointer in
      let remainer := pointer_remainer pointer in
      let fallthrough :=
        match subscript_key NDEBUG in_ entry with
        | Throw e => Throw e
        | Ok child => resolvePointer NDEBUG child remainer
        end in
      if type_is in_ DATA_VECTOR then
        match vector_index entry with
        | Throw e => Throw e
        | Ok index =>
            match Vector_const NDEBUG in_ with
            | Throw e => Throw e
            | Ok v =>
                if (index <? N.of_nat (List.length v))%N then
                  match nth_error v (N.to_nat index) with
                  | Some elem => resolvePointer NDEBUG elem remainer
                  | None => fallthrough
                  end
                else fallthrough
            end
        end
      else fallthrough
  end.
Proof.
  all: apply pointer_remainer_shorter.
Qed.

(** Writing through a reference obtained from a container: the element at
    [i], or the value under [key], is replaced. *)
Fixpoint vector_store (v : JsonVector) (i : nat) (x : JsonNode) : JsonVector :=
  match v, i with
  | [], _ => []
  | _ :: v', O => x :: v'
  | y :: v', S i' => y :: vector_store v' i' x
  end.

Fixpoint map_store (key : string) (x : JsonNode) (m : JsonMap) : JsonMap :=
  match m with
  | [] => []
  | (k, v) :: m' =>
      if String.eqb k key then (k, x) :: m' else (k, v) :: map_store key x m'
  end.

(** [resolvePointer<JsonNode>]: the template instantiated at a mutable
    node, where [in.Vector()] and [in[entry]] are the coercing overloads.
    The first component is the node after the call (changes made before an
    exception stay), the second the node referred to. *)
Equations? resolvePointer_mut (NDEBUG : bool) (in_ : JsonNode)
  (pointer : string) : JsonNode * result JsonNode
  by wf (String.length pointer) lt :=
resolvePointer_mut NDEBUG in_ EmptyString := (in_, Ok in_);
resolvePointer_mut NDEBUG in_ (String c rest) :=
  let pointer := String c rest in
  match assert_ NDEBUG (Ascii.eqb c "/") with
  | Throw e => (in_, Throw e)
  | Ok _ =>
      let entry := pointer_entry pointer in
      let remainer := pointer_remainer pointer in
      let fallthrough :=
        let (in1, child) := subscript_key_mut in_ entry in
        let (child', r) := resolvePointer_mut NDEBUG child remainer in
        (set_data in1
           (V_JsonMap (map_store entry child' (snd (Struct_mut in1)))), r) in
      if type_is in_ DATA_VECTOR then
        match vector_index entry with
        | Throw e => (in_, Throw e)
        | Ok index =>
            let (in1, v) := Vector_mut in_ in
            if (index <? N.of_nat (List.length v))%N then
              match nth_error v (N.to_nat index) with
              | Some elem =>
                  let (elem', r) := resolvePointer_mut NDEBUG elem remainer in
                  (set_data in1
                     (V_JsonVector (vector_store v (N.to_nat index) elem')), r)
              | None => fallthrough
              end
            else fallthrough
        end
      else fallthrough
  end.
Proof.
  all: apply pointer_remainer_shorter.
Qed.

(** ** Structural predicates *)

(** [JsonNode::isCompact] *)
Fixpoint isCompact (n : JsonNode) : bool :=
  match data n with
  | V_JsonVector v => forallb isCompact v
  | V_JsonMap m =>
      match m with
      | [] => true
      | [(_, second)] => isCompact second
      | _ :: _ :: _ => false
      end
  | _ => true
  end.

(** [JsonNode::containsBaseData] *)
Fixpoint containsBaseData (n : JsonNode) : bool :=
  match data n with
  | V_monostate => false
  | V_JsonMap m => existsb (fun elem => containsBaseData (snd elem)) m
  | _ => true
  end.

(** ** Boolean coercion *)

(** [std::isspace] and [std::tolower] in the classic locale, which
    [boost::algorithm::trim] and [to_lower] apply. *)
Definition is_space (c : ascii) : bool :=
  let n := N_of_ascii c in
  (n =? 32)%N || ((9 <=? n) && (n <=? 13))%N.

Definition to_lower_char (c : ascii) : ascii :=
  let n := N_of_ascii c in
  if ((65 <=? n) && (n <=? 90))%N then ascii_of_N (n + 32) else c.

Fixpoint trim_left (s : string) : string :=
  match s with
  | EmptyString => EmptyString
  | String c s' => if is_space c then trim_left s' else s
  end.

Fixpoint trim_right (s : string) : string :=
  match s with
  | EmptyString => EmptyString
  | String c s' =>
      match trim_right s' with
      | EmptyString => if is_space c then EmptyString else String c EmptyString
      | t => String c t
      end
  end.

Definition trim (s : string) : string := trim_left (trim_right s).

Fixpoint to_lower (s : string) : string :=
  match s with
  | EmptyString => EmptyString
  | String c s' => String (to_lower_char c) (to_lower s')
  end.

(** [JsonNode::TryBoolFromString]: the flag written to [success], then the
    value returned. *)
Definition TryBoolFromString (n : JsonNode) : bool * bool :=
  match data n with
  | V_bool b => (true, b)
  | V_string s =>
      let boolParamStr := to_lower (trim s) in
      if String.eqb boolParamStr "true" then (true, true)
      else (String.eqb boolParamStr "false", false)
  | _ => (false, false)
  end.

(** ** The writer *)

(** Modelled from the spec: [JsonWriter.h] is not part of the sources.  The
    writer holds the indentation [prefix], the output sink [out] (the text
    written so far), the [compact] flag the caller asked for and the
    transient [compactMode], which starts inactive. *)
Record JsonWriter : Type := mkJsonWriter {
  prefix : string;
  out : string;
  compact : bool;
  compactMode : bool
}.

(** [out << s] *)
Definition put (s : string) (w : JsonWriter) : JsonWriter :=
  mkJsonWriter (prefix w) (out w ++ s) (compact w) (compactMode w).

Definition set_prefix (p : string) (w : JsonWriter) : JsonWriter :=
  mkJsonWriter p (out w) (compact w) (compactMode w).

Definition set_compactMode (b : bool) (w : JsonWriter) : JsonWriter :=
  mkJsonWriter (prefix w) (out w) (compact w) b.

Definition char (c : ascii) : string := String c EmptyString.
Definition quote : ascii := "034"%char.
Definition backslash : ascii := "092"%char.
Definition newline : string := char "010"%char.
Definition tab : ascii := "009"%char.

(** The two tables of [writeString]. *)
Definition escaped : string :=
  String quote (String backslash (String "008"%char (String "012"%char
  (String "010"%char (String "013"%char (String tab (String "/"%char
   EmptyString))))))).

Definition escaped_code : list ascii :=
  [quote; backslash; "b"; "f"; "n"; "r"; "t"; "/"]%char.

(** The scan of [writeString]: one round of the [for] loop per unit of
    [fuel], from the state [(pos, start)]. *)
Fixpoint writeString_loop (fuel : nat) (str : string) (pos start : nat)
  (w : JsonWriter) : nat * nat * JsonWriter :=
  match fuel with
  | O => (pos, start, w)
  | S fuel' =>
      match get pos str with
      | None => (pos, start, w)
      | Some c =>
          if Ascii.eqb c backslash &&
             match get (pos + 1) str with
             | Some next => existsb (Ascii.eqb next) escaped_code
             | None => false
             end
          then writeString_loop fuel' str (pos + 1 + 1) start w
          else
            match find_from c 0 escaped with
            | Some escapedPos =>
                let w := put (substring start (pos - start) str) w in
                let w := put (char backslash) w in
                let w := put (char (nth escapedPos escaped_code "000"%char)) w in
                writeString_loop fuel' str (pos + 1) (pos + 1) w
            | None => writeString_loop fuel' str (pos + 1) start w
            end
      end
  end.

(** [JsonWriter::writeString]; every round advances [pos], so the length
    of the string is fuel enough. *)
Definition writeString (str : string) (w : JsonWriter) : JsonWriter :=
  let w := put (char quote) w in
  let '(pos, start, w) := writeString_loop (String.length str) str 0 0 w in
  let w := put (substring start (pos - start) str) w in
  put (char quote) w.

(** [prefix.resize(prefix.size() - 1)] *)
Definition drop_last (s : string) : string :=
  substring 0 (String.length s - 1) s.

Section WriteContainer.
Context {Entry : Type} (writeEntry : Entry -> JsonWriter -> JsonWriter).

Fixpoint writeContainer_rest (rest : list Entry) (w : JsonWriter)
  : JsonWriter :=
  match rest with
  | [] => w
  | entry :: rest' =>
      let w := put (if compactMode w then ", " else "," ++ newline) w in
      writeContainer_rest rest' (writeEntry entry w)
  end.

(** [JsonWriter::writeContainer] over the range of [entries]. *)
Definition writeContainer (entries : list Entry) (w : JsonWriter)
  : JsonWriter :=
  match entries with
  | [] => w
  | first :: rest =>
      let w := set_prefix (prefix w ++ char tab) w in
      let w := writeEntry first w in
      let w := writeContainer_rest rest w in
      let w := put (if compactMode w then EmptyString else newline) w in
      set_prefix (drop_last (prefix w)) w
  end.
End WriteContainer.

(** The comment lines and indentation both [writeEntry] overloads put
    before an entry outside compact mode. *)
Definition writeEntry_header (node : JsonNode) (w : JsonWriter) : JsonWriter :=
  if negb (compactMode w) then
    let w := match meta node with
             | EmptyString => w
             | m => put newline (put m (put " // " (put (prefix w) w)))
             end in
    let w := match flags node with
             | [] => w
             | fl => put newline (put (String.concat ", " fl)
                       (put " // flags: " (put (prefix w) w)))
             end in
    put (prefix w) w
  else w.

(** [out << si64]: decimal digits, with a minus sign when negative. *)
Fixpoint decimal_digits (fuel : nat) (n : N) (acc : string) : string :=
  match fuel with
  | O => acc
  | S fuel' =>
      let acc := String (ascii_of_N (48 + n mod 10)) acc in
      if (n / 10 =? 0)%N then acc else decimal_digits fuel' (n / 10)%N acc
  end.

Definition show_si64 (i : si64) : string :=
  let n := Z.to_N (Z.abs i) in
  let digits := decimal_digits (S (N.to_nat (N.log2 n))) n EmptyString in
  if (i <? 0)%Z then String "-" digits else digits.

Section Writer.
(** [out << double]: the stream's formatting of a floating-point value,
    which the source leaves to the standard library. *)
Variable show_double : double -> string.

(** [JsonWriter::writeNode], with the two [writeEntry] overloads inlined
    at the calls of [writeContainer]. *)
Fixpoint writeNode (node : JsonNode) (w : JsonWriter) : JsonWriter :=
  let originalMode := compactMode w in
  let w := if compact w && negb (compactMode w) && isCompact node
           then set_compactMode true w else w in
  let w :=
    match data node with
    | V_monostate => put "null" w
    | V_bool b => if b then put "true" w else put "false" w
    | V_double d => put (show_double d) w
    | V_string s => writeString s w
    | V_JsonVector v =>
        let w := put (if compactMode w then " " else newline) (put "[" w) in
        let w := writeContainer
                   (fun entry w => writeNode entry (writeEntry_header entry w))
                   v w in
        put "]" (put (if compactMode w then " " else prefix w) w)
    | V_JsonMap m =>
        let w := put (if compactMode w then " " else newline) (put "{" w) in
        let w := writeContainer
                   (fun entry w =>
                      let w := writeEntry_header (snd entry) w in
                      let w := writeString (fst entry) w in
                      let w := put " : " w in
                      writeNode (snd entry) w)
                   m w in
        put "}" (put (if compactMode w then " " else prefix w) w)
    | V_si64 i => put (show_si64 i) w
    end in
  set_compactMode originalMode w.

(** [JsonWriter::writeEntry(JsonVector::const_iterator)] *)
Definition writeEntry_vector (entry : JsonNode) (w : JsonWriter) : JsonWriter :=
  writeNode entry (writeEntry_header entry w).

(** [JsonWriter::writeEntry(JsonMap::const_iterator)] *)
Definition writeEntry_map (entry : string * JsonNode) (w : JsonWriter)
  : JsonWriter :=
  let w := writeEntry_header (snd entry) w in
  let w := writeString (fst entry) w in
  let w := put " : " w in
  writeNode (snd entry) w.

(** [JsonWriter::JsonWriter] *)
Definition JsonWriter_new (compact : bool) : JsonWriter :=
  mkJsonWriter EmptyString EmptyString compact false.

(** [JsonNode::toJson] *)
Definition toJson (compact : bool) (n : JsonNode) : string :=
  out (writeNode n (JsonWriter_new compact)).
End Writer.

(** ** Equality, metadata and the remaining members *)

Section Equal.
Context {A B : Type} (eqb : A -> B -> bool).

(** [operator==] of two containers: the same size and equal elements,
    position by position. *)
Fixpoint container_eqb (l : list A) (l' : list B) : bool :=
  match l, l' with
  | [], [] => true
  | x :: r, y :: r' => eqb x y && container_eqb r r'
  | _, _ => false
  end.
End Equal.

(** [JsonNode::operator==]: the variants are compared, [meta] and [flags]
    are not.  Two doubles are compared as IEEE numbers ([SFeqb]). *)
Fixpoint operator_eq (a b : JsonNode) {struct a} : bool :=
  match data a, data b with
  | V_monostate, V_monostate => true
  | V_bool x, V_bool y => Bool.eqb x y
  | V_double x, V_double y => SFeqb x y
  | V_string x, V_string y => String.eqb x y
  | V_JsonVector v, V_JsonVector v' => container_eqb operator_eq v v'
  | V_JsonMap m, V_JsonMap m' =>
      container_eqb
        (fun e e' => String.eqb (fst e) (fst e') && operator_eq (snd e) (snd e'))
        m m'
  | V_si64 x, V_si64 y => Z.eqb x y
  | _, _ => false
  end.

(** [JsonNode::operator!=] *)
Definition operator_ne (a b : JsonNode) : bool := negb (operator_eq a b).

Definition set_meta (n : JsonNode) (metadata : string) : JsonNode :=
  mkJsonNode (data n) metadata (flags n).

Section SetMeta.
(** The default argument of [setMeta]'s parameter [recursive], which the
    calls on the children take; it is part of the declaration in
    [JsonNode.h]. *)
Variable recursive_default : bool.

(** [JsonNode::setMeta] *)
Fixpoint setMeta (metadata : string) (recursive : bool) (n : JsonNode)
  : JsonNode :=
  let n' := set_meta n metadata in
  if recursive then
    match data n with
    | V_JsonVector v =>
        set_data n' (V_JsonVector (map (setMeta metadata recursive_default) v))
    | V_JsonMap m =>
        set_data n'
          (V_JsonMap
             (map (fun e => (fst e, setMeta metadata recursive_default (snd e)))
                m))
    | _ => n'
    end
  else n'.
End SetMeta.

(** [JsonNode::JsonNode(JsonType)] *)
Definition JsonNode_new (Type_ : JsonType) : JsonNode :=
  setType Type_ JsonNode_default.

(** [JsonNode::clear] *)
Definition clear (n : JsonNode) : JsonNode := setType DATA_NULL n.

(** [JsonNode::toBytes] *)
Definition toBytes (show_double : double -> string) (compact : bool)
  (n : JsonNode) : list Byte.byte :=
  list_byte_of_string (toJson show_double compact n).

(** * Definitions for the properties *)

Local Open Scope string_scope.

(** ** String escaping, as specified *)

(** The translation table of the specification: each raw character with
    the code character of its escape sequence. *)
Definition escape_table : list (ascii * ascii) :=
  [ (quote, quote); (backslash, backslash); ("008", "b"); ("012", "f");
    ("010", "n"); ("013", "r"); (tab, "t"); ("/", "/") ]%char.

Fixpoint assoc_char (c : ascii) (table : list (ascii * ascii)) : option ascii :=
  match table with
  | [] => None
  | (raw, code) :: table' =>
      if Ascii.eqb raw c then Some code else assoc_char c table'
  end.

Definition is_escape_code (c : ascii) : bool :=
  existsb (fun entry => Ascii.eqb (snd entry) c) escape_table.

(** A character on its own: its two-character escape sequence when the
    table has it, the character itself otherwise. *)
Definition escape_char (c : ascii) : string :=
  match assoc_char c escape_table with
  | Some code => String backslash (String code EmptyString)
  | None => String c EmptyString
  end.

(** The body of an escaped string as the specification words it: a
    backslash followed by a code character passes as a pair, any other
    character is translated on its own. *)
Fixpoint escape_body (s : string) : string :=
  match s with
  | EmptyString => EmptyString
  | String c s' =>
      match s' with
      | String next s'' =>
          if Ascii.eqb c backslash && is_escape_code next
          then String c (String next (escape_body s''))
          else escape_char c ++ escape_body s'
      | EmptyString => escape_char c ++ escape_body s'
      end
  end.

Definition quoted (s : string) : string := char quote ++ s ++ char quote.

(** ** What a writer call may change *)

Definition same_settings (w w' : JsonWriter) : Prop :=
  prefix w' = prefix w /\ compact w' = compact w
  /\ compactMode w' = compactMode w.

(** [w'] is [w] after some text was written. *)
Definition appends (w w' : JsonWriter) : Prop :=
  (exists text, out w' = out w ++ text) /\ same_settings w w'.

Fixpoint single_line (s : string) : bool :=
  match s with
  | EmptyString => true
  | String c s' => negb (Ascii.eqb c "010") && single_line s'
  end.

(** [w'] is [w] after some single-line text was written. *)
Definition writes_line (w w' : JsonWriter) : Prop :=
  (exists text, out w' = out w ++ text /\ single_line text = true)
  /\ same_settings w w'.

Definition entry_appends {Entry : Type}
  (writeEntry : Entry -> JsonWriter -> JsonWriter) (entry : Entry) : Prop :=
  forall w, appends w (writeEntry entry w).

Definition entry_writes_line {Entry : Type}
  (writeEntry : Entry -> JsonWriter -> JsonWriter) (entry : Entry) : Prop :=
  forall w, compactMode w = true -> writes_line w (writeEntry entry w).

(** ** Retyping *)

(** The payload [setType] installs when nothing is converted. *)
Definition default_payload (t : JsonType) : JsonData JsonNode :=
  match t with
  | DATA_NULL => V_monostate
  | DATA_BOOL => V_bool false
  | DATA_FLOAT => V_double (S754_zero false)
  | DATA_STRING => V_string EmptyString
  | DATA_VECTOR => V_JsonVector []
  | DATA_STRUCT => V_JsonMap []
  | DATA_INTEGER => V_si64 0%Z
  end.

(** [z] is the finite value [(-1)^s * m * 2^e] with its fractional part
    dropped: it has the sign of the value and the largest magnitude not
    above the value's. *)
Definition truncated_toward_zero (s : bool) (m : positive) (e : Z) (z : Z)
  : Prop :=
  (if s then (z <= 0)%Z else (0 <= z)%Z) /\
  if (0 <=? e)%Z then Z.abs z = (Zpos m * 2 ^ e)%Z
  else (Z.abs z * 2 ^ (- e) <= Zpos m < (Z.abs z + 1) * 2 ^ (- e))%Z.

(** [z] is the double [d] with its fractional part dropped.  The
    infinities and NaN have no truncation. *)
Definition truncation_of (d : double) (z : Z) : Prop :=
  match d with
  | S754_zero _ => z = 0%Z
  | S754_finite s m e => truncated_toward_zero s m e z
  | S754_infinity _ | S754_nan => False
  end.

(** The double [d] holds the integer [z]: its value [(-1)^s * m * 2^e] is
    [z]. *)
Definition double_holds (d : double) (z : Z) : Prop :=
  match d with
  | S754_zero _ => z = 0%Z
  | S754_finite s m e =>
      (if s then (z < 0)%Z else (0 < z)%Z)
      /\ (if (0 <=? e)%Z then Z.abs z = (Zpos m * 2 ^ e)%Z
          else (Z.abs z * 2 ^ (- e))%Z = Zpos m)
  | S754_infinity _ | S754_nan => False
  end.

(** The integers that binary64 holds: a mantissa of at most 53 bits times
    a power of two. *)
Definition binary64_integer (z : Z) : Prop :=
  exists m e,
    (0 <= m < 2 ^ 53)%Z /\ (0 <= e <= 971)%Z /\ Z.abs z = (m * 2 ^ e)%Z.

(** [z] is an integer binary64 holds, and none that binary64 holds is
    nearer to [i].  (From [2^53] on every binary64 value is an integer, and
    below each integer is held, so [z] is nearest to [i] among all binary64
    values.) *)
Definition nearest_binary64 (i z : Z) : Prop :=
  binary64_integer z
  /\ forall z', binary64_integer z' -> (Z.abs (i - z) <= Z.abs (i - z'))%Z.

(** The double [d] is the integer [i] widened: a binary64 number in
    canonical form that holds the integer nearest to [i], which is [i]
    itself whenever binary64 holds [i]. *)
Definition widened (i : Z) (d : double) : Prop :=
  valid_binary 53 1024 d = true
  /\ exists z, double_holds d z /\ nearest_binary64 i z.

(** What a right shift by [k] bits keeps of [p]: the quotient, and where
    the remainder lies between two quotients. *)
Definition shifted (p k : Z) (r : shr_record) : Prop :=
  (0 <= shr_m r)%Z
  /\ exists rem,
       p = (shr_m r * 2 ^ k + rem)%Z /\ (0 <= rem < 2 ^ k)%Z
       /\ loc_of_shr_record r
          = if (rem =? 0)%Z then loc_Exact
            else loc_Inexact (2 * rem ?= 2 ^ k)%Z.

Definition is_scalar (t : JsonType) : bool :=
  match t with
  | DATA_VECTOR | DATA_STRUCT => false
  | _ => true
  end.

(** ** White space *)

Fixpoint all_space (s : string) : bool :=
  match s with
  | EmptyString => true
  | String c s' => is_space c && all_space s'
  end.

Definition first_char (s : string) : option ascii := get 0 s.
Definition last_char (s : string) : option ascii := get (String.length s - 1) s.

(** ** Sample values *)

(** The binary64 value nearest to 3.9. *)
Definition float_3_9 : double := S754_finite false 8782019273372467 (-51).

(** A formatting of doubles to run the writer with. *)
Definition show_double_fixed (d : double) : string := "0".

Definition node_of_int (i : Z) : JsonNode :=
  mkJsonNode (V_si64 i) EmptyString [].

Definition node_of_string (s : string) : JsonNode :=
  mkJsonNode (V_string s) EmptyString [].

(** The Sequence [[10, 20]] and the Mapping [{"a": [10, 20]}]. *)
Definition node_10_20 : JsonNode :=
  mkJsonNode (V_JsonVector [node_of_int 10%Z; node_of_int 20%Z]) EmptyString [].

Definition doc_a_10_20 : JsonNode :=
  mkJsonNode (V_JsonMap [("a", node_10_20)]) EmptyString [].

(** The node [{"name": "Ann", "tags": ["x", "y"]}], no comments set. *)
Definition node_ann : JsonNode :=
  mkJsonNode
    (V_JsonMap
       [("name", node_of_string "Ann");
        ("tags", mkJsonNode
                   (V_JsonVector [node_of_string "x"; node_of_string "y"])
                   EmptyString [])])
    EmptyString [].

(** The single line the scenario expects of [toJson(true)], and the text
    the writer produces. *)
Definition node_ann_one_line : string :=
  "{ " ++ quoted "name" ++ " : " ++ quoted "Ann" ++ ", " ++ quoted "tags"
  ++ " : [ " ++ quoted "x" ++ ", " ++ quoted "y" ++ " ] }".

Definition node_ann_compact : string :=
  "{" ++ newline
  ++ char tab ++ quoted "name" ++ " : " ++ quoted "Ann" ++ "," ++ newline
  ++ char tab ++ quoted "tags" ++ " : [ " ++ quoted "x" ++ ", " ++ quoted "y"
  ++ " ]" ++ newline
  ++ "}".

(** The text [He said "hi"] followed by a newline. *)
Definition he_said_hi : string :=
  "He said " ++ quoted "hi" ++ newline.

(** ** Nodes inside a tree *)

(** [child] is an element of the Sequence [n] or a value of the Mapping
    [n]. *)
Definition child_of (child n : JsonNode) : Prop :=
  match data n with
  | V_JsonVector v => In child v
  | V_JsonMap m => exists key, In (key, child) m
  | _ => False
  end.

(** [r] is [n] or lies below it. *)
Inductive subnode (r : JsonNode) : JsonNode -> Prop :=
| subnode_here : subnode r r
| subnode_below n child : child_of child n -> subnode r child -> subnode r n.

(** No double of the tree is a NaN. *)
Fixpoint no_nan (n : JsonNode) : bool :=
  match data n with
  | V_double S754_nan => false
  | V_JsonVector v => forallb no_nan v
  | V_JsonMap m => forallb (fun e => no_nan (snd e)) m
  | _ => true
  end.

(** [n] with the metadata and the flags of each of its nodes rewritten. *)
Fixpoint with_comments (on_meta : string -> string)
  (on_flags : list string -> list string) (n : JsonNode) : JsonNode :=
  mkJsonNode
    match data n with
    | V_JsonVector v => V_JsonVector (map (with_comments on_meta on_flags) v)
    | V_JsonMap m =>
        V_JsonMap
          (map (fun e => (fst e, with_comments on_meta on_flags (snd e))) m)
    | d => d
    end
    (on_meta (meta n)) (on_flags (flags n)).

(** [n] without metadata, [n] without any comment, and [n] with the same
    metadata on every node. *)
Definition erase_meta : JsonNode -> JsonNode :=
  with_comments (fun _ => EmptyString) (fun fl => fl).
Definition erase_comments : JsonNode -> JsonNode :=
  with_comments (fun _ => EmptyString) (fun _ => []).
Definition stamp (metadata : string) : JsonNode -> JsonNode :=
  with_comments (fun _ => metadata) (fun fl => fl).

(** ** Pointers *)

(** The text before the first slash, and the text from that slash on. *)
Fixpoint split_slash (s : string) : string * string :=
  match s with
  | EmptyString => (EmptyString, EmptyString)
  | String a s' =>
      if Ascii.eqb a "/" then (EmptyString, s)
      else let (entry, rest) := split_slash s' in (String a entry, rest)
  end.

(** A pointer that can be appended to another: empty, or starting with a
    slash. *)
Definition is_pointer (q : string) : Prop :=
  match q with
  | EmptyString => True
  | String c _ => c = "/"%char
  end.

(** [pointer] leads from [n] to [r] through entries that exist: elements
    within the bounds of a Sequence, keys that a Mapping has. *)
Inductive reaches (NDEBUG : bool) : JsonNode -> string -> JsonNode -> Prop :=
| reaches_here n : reaches NDEBUG n EmptyString n
| reaches_element n v c rest idx elem r :
    assert_ NDEBUG (Ascii.eqb c "/") = Ok tt ->
    data n = V_JsonVector v ->
    vector_index (pointer_entry (String c rest)) = Ok idx ->
    nth_error v (N.to_nat idx) = Some elem ->
    reaches NDEBUG elem (pointer_remainer (String c rest)) r ->
    reaches NDEBUG n (String c rest) r
| reaches_value n m c rest child r :
    assert_ NDEBUG (Ascii.eqb c "/") = Ok tt ->
    data n = V_JsonMap m ->
    map_find (pointer_entry (String c rest)) m = Some child ->
    reaches NDEBUG child (pointer_remainer (String c rest)) r ->
    reaches NDEBUG n (String c rest) r.

(** ** Escaped text and compact text *)

(** [s] reads as escaped text: every backslash is followed by a code
    character, with which it forms a pair, and no other character is one
    the escape table translates. *)
Fixpoint well_escaped (s : string) : bool :=
  match s with
  | EmptyString => true
  | String c s' =>
      if Ascii.eqb c backslash then
        match s' with
        | String next s'' => is_escape_code next && well_escaped s''
        | EmptyString => false
        end
      else
        match assoc_char c escape_table with
        | None => well_escaped s'
        | Some _ => false
        end
  end.

(** The text of a node on one line: brackets and separators with single
    spaces, no comment, no indentation. *)
Fixpoint compact_text (show_double : double -> string) (n : JsonNode)
  : string :=
  match data n with
  | V_monostate => "null"
  | V_bool b => if b then "true" else "false"
  | V_double d => show_double d
  | V_string s => quoted (escape_body s)
  | V_JsonVector v =>
      "[ " ++ String.concat ", " (map (compact_text show_double) v) ++ " ]"
  | V_JsonMap m =>
      "{ "
      ++ String.concat ", "
           (map (fun e => quoted (escape_body (fst e)) ++ " : "
                          ++ compact_text show_double (snd e)) m)
      ++ " }"
  | V_si64 i => show_si64 i
  end.

(** [w] with [s] put before all it has written. *)
Definition put_front (s : string) (w : JsonWriter) : JsonWriter :=
  mkJsonWriter (prefix w) (s ++ out w) (compact w) (compactMode w).

Definition entry_commutes {Entry : Type}
  (writeEntry : Entry -> JsonWriter -> JsonWriter) (s : string) (e : Entry)
  : Prop :=
  forall w, writeEntry e (put_front s w) = put_front s (writeEntry e w).

(** * Properties *)

(** ** Facts about strings *)

Lemma append_nil_r (s : string) : s ++ EmptyString = s.
Proof. induction s as [|a s IH]; simpl; congruence. Qed.

Lemma append_assoc (a b c : string) : (a ++ b) ++ c = a ++ (b ++ c).
Proof. induction a as [|x a IH]; simpl; congruence. Qed.

Lemma length_append (a b : string) :
  String.length (a ++ b) = String.length a + String.length b.
Proof. induction a as [|x a IH]; simpl; congruence. Qed.

Lemma get_append_r (p s : string) (i : nat) :
  get (String.length p + i) (p ++ s) = get i s.
Proof. induction p as [|x p IH]; simpl; auto. Qed.

Lemma get_length (s : string) : get (String.length s) s = None.
Proof. induction s as [|x s IH]; simpl; auto. Qed.

Lemma substring_0_append (m s : string) :
  substring 0 (String.length m) (m ++ s) = m.
Proof.
  induction m as [|x m IH]; simpl.
  - destruct s; reflexivity.
  - now rewrite IH.
Qed.

Lemma substring_append (p m s : string) :
  substring (String.length p) (String.length m) (p ++ m ++ s) = m.
Proof.
  induction p as [|x p IH]; simpl.
  - apply substring_0_append.
  - exact IH.
Qed.

Lemma substring_all (s : string) : substring 0 (String.length s) s = s.
Proof.
  rewrite <- (append_nil_r s) at 2. apply substring_0_append.
Qed.

(** ** String escaping *)

Lemma escape_body_pair (next : ascii) (s : string) :
  is_escape_code next = true ->
  escape_body (String backslash (String next s))
  = String backslash (String next (escape_body s)).
Proof. intros H. cbn [escape_body]. now rewrite H. Qed.

Lemma escape_body_char (c : ascii) (s : string) :
  match s with
  | String next _ => Ascii.eqb c backslash && is_escape_code next
  | EmptyString => false
  end = false ->
  escape_body (String c s) = escape_char c ++ escape_body s.
Proof.
  intros H. destruct s as [|next s]; [reflexivity|].
  change (escape_body (String c (String next s)))
    with (if Ascii.eqb c backslash && is_escape_code next
          then String c (String next (escape_body s))
          else escape_char c ++ escape_body (String next s)).
  now rewrite H.
Qed.

Ltac each_ascii c :=
  destruct c as [[] [] [] [] [] [] [] []]; try reflexivity.

Lemma escaped_tables_agree (c : ascii) :
  match find_from c 0 escaped with
  | Some escapedPos =>
      escape_char c
      = String backslash (String (nth escapedPos escaped_code "000"%char)
                            EmptyString)
  | None => escape_char c = String c EmptyString
  end.
Proof. each_ascii c. Qed.

Lemma escaped_code_agree (c : ascii) :
  existsb (Ascii.eqb c) escaped_code = is_escape_code c.
Proof. each_ascii c. Qed.

Lemma same_settings_refl w : same_settings w w.
Proof. repeat split. Qed.

Lemma same_settings_trans w1 w2 w3 :
  same_settings w1 w2 -> same_settings w2 w3 -> same_settings w1 w3.
Proof. unfold same_settings; intuition congruence. Qed.

Lemma same_settings_put s w : same_settings w (put s w).
Proof. repeat split. Qed.

Lemma get_at_post (pre mid post : string) (i : nat) :
  get (String.length pre + String.length mid + i) (pre ++ mid ++ post)
  = get i post.
Proof.
  rewrite <- length_append, <- append_assoc. apply get_append_r.
Qed.

Lemma substring_mid (pre mid post : string) :
  substring (String.length pre)
    (String.length pre + String.length mid - String.length pre)
    (pre ++ mid ++ post) = mid.
Proof.
  replace (String.length pre + String.length mid - String.length pre)
    with (String.length mid) by lia.
  apply substring_append.
Qed.

(** The invariant of the scan: with [pre] written out, [mid] read but not
    yet written, and [post] still to read, the text written at the end is
    [mid] followed by the translation of [post]. *)
Lemma writeString_loop_spec (fuel : nat) :
  forall (pre mid post : string) (w : JsonWriter),
    String.length post <= fuel ->
    exists pos start w',
      writeString_loop fuel (pre ++ mid ++ post)
        (String.length pre + String.length mid) (String.length pre) w
      = (pos, start, w')
      /\ out w' ++ substring start (pos - start) (pre ++ mid ++ post)
         = out w ++ mid ++ escape_body post
      /\ same_settings w w'.
Proof.
  induction fuel as [|fuel IH]; intros pre mid post w Hlen.
  - destruct post; [|simpl in Hlen; lia].
    exists (String.length pre + String.length mid), (String.length pre), w.
    cbn [escape_body]. rewrite substring_mid, !append_nil_r.
    repeat split; reflexivity.
  - cbn [writeString_loop].
    pose proof (get_at_post pre mid post 0) as Hget0.
    rewrite Nat.add_0_r in Hget0. rewrite Hget0, get_at_post.
    destruct post as [|c post]; cbn [get].
    { exists (String.length pre + String.length mid), (String.length pre), w.
      cbn [escape_body]. rewrite substring_mid, !append_nil_r.
      repeat split; reflexivity. }
    assert (Hpost : String.length post <= fuel) by (simpl in Hlen; lia).
    destruct (Ascii.eqb c backslash &&
              match get 0 post with
              | Some next => existsb (Ascii.eqb next) escaped_code
              | None => false
              end) eqn:Hpair.
    + (* an escaped pair passes *)
      destruct post as [|next post]; cbn [get] in Hpair;
        [rewrite andb_false_r in Hpair; discriminate|].
      rewrite escaped_code_agree in Hpair.
      destruct (IH pre (mid ++ String c (String next EmptyString)) post w)
        as (pos & start & w' & Hrun & Hout & Hs);
        [simpl in Hpost; lia|].
      repeat rewrite append_assoc in Hrun. repeat rewrite append_assoc in Hout.
      cbn [append] in Hrun, Hout.
      rewrite length_append in Hrun. cbn [String.length] in Hrun.
      replace (String.length pre + (String.length mid + 2))
        with (String.length pre + String.length mid + 1 + 1) in Hrun by lia.
      exists pos, start, w'. split; [exact Hrun|]. split; [|exact Hs].
      cbn [escape_body]. rewrite Hpair. exact Hout.
    + pose proof (escaped_tables_agree c) as Htab.
      assert (Hbody : escape_body (String c post)
                      = escape_char c ++ escape_body post).
      { cbn [escape_body]. destruct post as [|next post]; [reflexivity|].
        cbn [get] in Hpair. rewrite escaped_code_agree in Hpair.
        now rewrite Hpair. }
      rewrite Hbody.
      destruct (find_from c 0 escaped) as [escapedPos|].
      * (* a raw character of the table *)
        set (w1 := put _ (put _ (put _ w))).
        destruct (IH (pre ++ mid ++ String c EmptyString) EmptyString post w1
                    Hpost) as (pos & start & w' & Hrun & Hout & Hs).
        rewrite !length_append in Hrun. cbn [String.length append] in Hrun.
        repeat rewrite append_assoc in Hrun. repeat rewrite append_assoc in Hout.
      cbn [append] in Hrun, Hout.
        rewrite Nat.add_0_r, Nat.add_assoc in Hrun.
        exists pos, start, w'. split; [exact Hrun|]. split; [|exact Hs].
        rewrite Hout. subst w1. cbn [put out].
        rewrite substring_mid, Htab. unfold char.
        rewrite !append_assoc. reflexivity.
      * (* any other character *)
        destruct (IH pre (mid ++ String c EmptyString) post w Hpost)
          as (pos & start & w' & Hrun & Hout & Hs).
        repeat rewrite append_assoc in Hrun. repeat rewrite append_assoc in Hout.
      cbn [append] in Hrun, Hout.
        rewrite length_append in Hrun. cbn [String.length] in Hrun.
        rewrite Nat.add_assoc in Hrun.
        exists pos, start, w'. split; [exact Hrun|]. split; [|exact Hs].
        rewrite Htab. cbn [append]. exact Hout.
Qed.

Lemma writeString_out (str : string) (w : JsonWriter) :
  out (writeString str w)
  = out w ++ char quote ++ escape_body str ++ char quote
  /\ same_settings w (writeString str w).
Proof.
  unfold writeString.
  destruct (writeString_loop_spec (String.length str) EmptyString EmptyString
              str (put (char quote) w) (le_n _))
    as (pos & start & w' & Hrun & Hout & Hs).
  cbn [append String.length Nat.add] in Hrun, Hout.
  rewrite Hrun. cbn [put out]. rewrite Hout. cbn [put out].
  split.
  - now rewrite !append_assoc.
  - destruct Hs as (? & ? & ?). repeat split; assumption.
Qed.

Lemma is_escape_code_In (c : ascii) :
  is_escape_code c = true <-> In c escaped_code.
Proof.
  split.
  - destruct c as [[] [] [] [] [] [] [] []]; intros H;
      solve [discriminate H | cbv; tauto].
  - intros H. cbv [escaped_code In] in H.
    repeat (destruct H as [<-|H]; [reflexivity|]). contradiction.
Qed.

Lemma escape_char_In (c code : ascii) :
  In (c, code) escape_table ->
  escape_char c = String backslash (String code EmptyString).
Proof.
  intros H. cbv [escape_table In] in H.
  repeat (destruct H as [[= <- <-]|H]; [reflexivity|]). contradiction.
Qed.

Lemma escape_char_not_In (c : ascii) :
  (forall code, ~ In (c, code) escape_table) ->
  escape_char c = String c EmptyString.
Proof.
  intros H. destruct c as [[] [] [] [] [] [] [] []]; try reflexivity;
    exfalso; eapply H;
    solve [repeat (first [left; reflexivity | right])].
Qed.

(** C4: [writeString] writes a quote, the translated body and a quote.  In
    the body a backslash followed by one of the eight code characters
    passes as a pair; any other character that the escape table has is
    replaced by its two-character escape sequence; every other character
    is copied. *)
Theorem writeString_escapes (str : string) (w : JsonWriter) :
  out (writeString str w)
  = out w ++ char quote ++ escape_body str ++ char quote
  /\ (forall next s,
        In next escaped_code ->
        escape_body (String backslash (String next s))
        = String backslash (String next (escape_body s)))
  /\ (forall c s,
        c <> backslash
        \/ match s with
           | String next _ => ~ In next escaped_code
           | EmptyString => True
           end ->
        escape_body (String c s) = escape_char c ++ escape_body s)
  /\ (forall c code,
        In (c, code) escape_table ->
        escape_char c = String backslash (String code EmptyString))
  /\ (forall c,
        (forall code, ~ In (c, code) escape_table) ->
        escape_char c = String c EmptyString).
Proof.
  split; [apply writeString_out|].
  split; [|split; [|split]].
  - intros next s H. apply escape_body_pair. now apply is_escape_code_In.
  - intros c s H. apply escape_body_char.
    destruct s as [|next s]; [reflexivity|].
    destruct H as [H|H].
    + apply Ascii.eqb_neq in H. now rewrite H.
    + destruct (is_escape_code next) eqn:Hn; [|apply andb_false_r].
      apply is_escape_code_In in Hn. contradiction.
  - apply escape_char_In.
  - apply escape_char_not_In.
Qed.

(** C4 at the text [He said "hi"] followed by a newline, and at a
    backslash followed by a quote. *)
Lemma writeString_escapes_witness :
  out (writeString he_said_hi (JsonWriter_new false))
  = quoted ("He said " ++ char backslash ++ char quote ++ "hi"
            ++ char backslash ++ char quote ++ char backslash ++ "n")
  /\ out (writeString (char backslash ++ char quote) (JsonWriter_new false))
     = quoted (char backslash ++ char quote)
  /\ escape_body (char backslash ++ "n") = char backslash ++ "n"
  /\ escape_body "a/b" = "a" ++ char backslash ++ "/b".
Proof.
  split; [|split; [|split]].
  - destruct (writeString_escapes he_said_hi (JsonWriter_new false))
      as (H & _).
    rewrite H. reflexivity.
  - destruct (writeString_escapes (char backslash ++ char quote)
                (JsonWriter_new false)) as (H & _).
    rewrite H. reflexivity.
  - destruct (writeString_escapes EmptyString (JsonWriter_new false))
      as (_ & H & _).
    etransitivity; [apply (H "n"%char EmptyString)|reflexivity].
    cbv. tauto.
  - destruct (writeString_escapes EmptyString (JsonWriter_new false))
      as (_ & _ & H & _).
    etransitivity; [apply (H "a"%char "/b")|reflexivity].
    left. discriminate.
Defined.

(** ** Induction over the node tree *)

Section JsonNode_induction.
Variable P : JsonNode -> Prop.
Hypothesis P_scalar : forall d m f,
  match d with V_JsonVector _ | V_JsonMap _ => False | _ => True end ->
  P (mkJsonNode d m f).
Hypothesis P_vector : forall v m f,
  Forall P v -> P (mkJsonNode (V_JsonVector v) m f).
Hypothesis P_struct : forall mp m f,
  Forall (fun entry => P (snd entry)) mp -> P (mkJsonNode (V_JsonMap mp) m f).

Fixpoint JsonNode_tree_ind (n : JsonNode) : P n :=
  match n with
  | mkJsonNode d m f =>
      match d return P (mkJsonNode d m f) with
      | V_JsonVector v =>
          P_vector v m f
            ((fix all (l : list JsonNode) : Forall P l :=
                match l with
                | [] => Forall_nil _
                | x :: l' => Forall_cons x (JsonNode_tree_ind x) (all l')
                end) v)
      | V_JsonMap mp =>
          P_struct mp m f
            ((fix all (l : list (string * JsonNode))
                : Forall (fun entry => P (snd entry)) l :=
                match l with
                | [] => Forall_nil _
                | x :: l' =>
                    Forall_cons x (JsonNode_tree_ind (snd x)) (all l')
                end) mp)
      | V_monostate => P_scalar V_monostate m f I
      | V_bool b => P_scalar (V_bool b) m f I
      | V_double x => P_scalar (V_double x) m f I
      | V_string s => P_scalar (V_string s) m f I
      | V_si64 i => P_scalar (V_si64 i) m f I
      end
  end.
End JsonNode_induction.

(** ** Single-line text *)

Lemma single_line_append (a b : string) :
  single_line (a ++ b) = single_line a && single_line b.
Proof.
  induction a as [|c a IH]; simpl; [reflexivity|].
  now rewrite IH, andb_assoc.
Qed.

Lemma single_line_escape_char (c : ascii) : single_line (escape_char c) = true.
Proof. each_ascii c. Qed.

Lemma is_escape_code_not_newline (c : ascii) :
  is_escape_code c = true -> Ascii.eqb c "010" = false.
Proof.
  destruct c as [[] [] [] [] [] [] [] []]; cbv; intros H;
    solve [reflexivity | discriminate H].
Qed.

Lemma single_line_escape_body (s : string) : single_line (escape_body s) = true.
Proof.
  assert (H : forall n s, String.length s <= n ->
                          single_line (escape_body s) = true).
  { clear s. induction n as [|n IH]; intros [|c s] Hlen;
      simpl in Hlen; try lia; try reflexivity.
    destruct (match s with
              | String next _ => Ascii.eqb c backslash && is_escape_code next
              | EmptyString => false
              end) eqn:Hpair.
    - destruct s as [|next s]; [discriminate|].
      apply andb_prop in Hpair as [Hc Hnext].
      apply Ascii.eqb_eq in Hc. subst c.
      rewrite (escape_body_pair _ _ Hnext).
      cbn [single_line]. rewrite (is_escape_code_not_newline _ Hnext).
      cbn. apply IH. simpl in Hlen. lia.
    - rewrite (escape_body_char _ _ Hpair).
      rewrite single_line_append, single_line_escape_char.
      apply IH. lia. }
  apply (H (String.length s)). apply le_n.
Qed.

Lemma single_line_decimal_digits (fuel : nat) :
  forall n acc, single_line acc = true ->
                single_line (decimal_digits fuel n acc) = true.
Proof.
  induction fuel as [|fuel IH]; intros n acc Hacc; cbn [decimal_digits];
    [exact Hacc|].
  assert (Hd : single_line (String (ascii_of_N (48 + n mod 10)) acc) = true).
  { cbn [single_line]. rewrite Hacc, andb_true_r.
    apply negb_true_iff, Ascii.eqb_neq. intros Heq.
    assert (Hlt : (n mod 10 < 10)%N) by (apply N.mod_upper_bound; lia).
    apply (f_equal N_of_ascii) in Heq.
    rewrite N_ascii_embedding in Heq by lia.
    change (N_of_ascii "010"%char) with 10%N in Heq.
    clear - Heq. revert Heq. generalize (n mod 10)%N. intros r Heq. lia. }
  destruct (n / 10 =? 0)%N; [exact Hd|]. apply IH, Hd.
Qed.

Lemma single_line_show_si64 (i : si64) : single_line (show_si64 i) = true.
Proof.
  unfold show_si64.
  destruct (i <? 0)%Z; cbn [single_line];
    now rewrite ?single_line_decimal_digits.
Qed.

(** ** Rendering in compact mode *)

Lemma writes_line_refl w : writes_line w w.
Proof.
  split; [|apply same_settings_refl].
  exists EmptyString. now rewrite append_nil_r.
Qed.

Lemma writes_line_trans w1 w2 w3 :
  writes_line w1 w2 -> writes_line w2 w3 -> writes_line w1 w3.
Proof.
  intros [(t1 & Ho1 & Hl1) Hs1] [(t2 & Ho2 & Hl2) Hs2].
  split; [|eapply same_settings_trans; eassumption].
  exists (t1 ++ t2). rewrite Ho2, Ho1, append_assoc, single_line_append, Hl1, Hl2.
  now split.
Qed.

Lemma writes_line_put s w : single_line s = true -> writes_line w (put s w).
Proof.
  intros Hs. split; [|apply same_settings_put]. now exists s.
Qed.

Lemma writes_line_writeString s w : writes_line w (writeString s w).
Proof.
  destruct (writeString_out s w) as [Hout Hs]. split; [|exact Hs].
  eexists. split; [exact Hout|].
  now rewrite !single_line_append, single_line_escape_body.
Qed.

Lemma writes_line_compactMode w w' :
  writes_line w w' -> compactMode w' = compactMode w.
Proof. intros [_ (_ & _ & H)]. exact H. Qed.

Lemma drop_last_append (p : string) (c : ascii) : drop_last (p ++ char c) = p.
Proof.
  unfold drop_last. rewrite length_append. cbn [char String.length].
  replace (String.length p + 1 - 1) with (String.length p) by lia.
  apply substring_0_append.
Qed.

Section CompactContainer.
Context {Entry : Type} (writeEntry : Entry -> JsonWriter -> JsonWriter).

Lemma writeContainer_rest_line (rest : list Entry) :
  Forall (entry_writes_line writeEntry) rest ->
  forall w, compactMode w = true ->
            writes_line w (writeContainer_rest writeEntry rest w).
Proof.
  induction 1 as [|entry rest Hentry _ IH]; intros w Hw; cbn [writeContainer_rest].
  - apply writes_line_refl.
  - rewrite Hw. set (w1 := put ", " w).
    assert (Hw1 : compactMode w1 = true) by exact Hw.
    pose proof (Hentry w1 Hw1) as H2.
    eapply writes_line_trans; [apply (writes_line_put ", "); reflexivity|].
    eapply writes_line_trans; [exact H2|].
    apply IH. now rewrite (writes_line_compactMode _ _ H2).
Qed.

Lemma writeContainer_line (entries : list Entry) :
  Forall (entry_writes_line writeEntry) entries ->
  forall w, compactMode w = true ->
            writes_line w (writeContainer writeEntry entries w).
Proof.
  intros Hall w Hw. destruct entries as [|first rest];
    cbn [writeContainer]; [apply writes_line_refl|].
  inversion Hall as [|? ? Hfirst Hrest]; subst.
  set (w1 := set_prefix (prefix w ++ char tab) w).
  assert (Hw1 : compactMode w1 = true) by exact Hw.
  pose proof (Hfirst w1 Hw1) as H1.
  set (w2 := writeEntry first w1) in *.
  assert (Hw2 : compactMode w2 = true)
    by (rewrite (writes_line_compactMode _ _ H1); exact Hw1).
  pose proof (writeContainer_rest_line rest Hrest w2 Hw2) as H2.
  set (w3 := writeContainer_rest writeEntry rest w2) in *.
  pose proof (writes_line_trans _ _ _ H1 H2) as [(text & Hout & Hline) Hs].
  destruct Hs as (Hp & Hc & Hm).
  rewrite Hm, Hw1. cbn [put set_prefix prefix out compact compactMode].
  rewrite Hp. subst w1. cbn [set_prefix prefix out compact compactMode] in *.
  rewrite drop_last_append. split.
  - exists text. cbn [set_prefix put out]. rewrite append_nil_r.
    now split.
  - unfold same_settings.
    cbn [set_prefix put prefix compact compactMode].
    repeat split; assumption.
Qed.
End CompactContainer.

Section WriterProperties.
Variable show_double : double -> string.
Hypothesis show_double_line : forall d, single_line (show_double d) = true.

Lemma set_compactMode_same (w : JsonWriter) :
  set_compactMode (compactMode w) w = w.
Proof. now destruct w. Qed.

Lemma writeEntry_header_compact (node : JsonNode) (w : JsonWriter) :
  compactMode w = true -> writeEntry_header node w = w.
Proof. intros Hw. unfold writeEntry_header. now rewrite Hw. Qed.

(** Once [compactMode] is active, a whole subtree is written on one line
    and the writer's settings are as before. *)
Lemma writeNode_line (node : JsonNode) :
  forall w, compactMode w = true ->
            writes_line w (writeNode show_double node w).
Proof.
  induction node as [d m f Hd|v m f IH|mp m f IH] using JsonNode_tree_ind;
    intros w Hw; cbn [writeNode data]; rewrite Hw, andb_false_r;
    cbn [negb andb]; rewrite ?Hw.
  - assert (Hbody : forall w1, compactMode w1 = true ->
              writes_line w1
                (set_compactMode true
                   match d with
                   | V_monostate => put "null" w1
                   | V_bool b => if b then put "true" w1 else put "false" w1
                   | V_double x => put (show_double x) w1
                   | V_string s => writeString s w1
                   | V_si64 i => put (show_si64 i) w1
                   | _ => w1
                   end)).
    { intros w1 Hw1.
      assert (Hset : forall w2, writes_line w1 w2 ->
                                writes_line w1 (set_compactMode true w2)).
      { intros w2 H2. rewrite <- Hw1, <- (writes_line_compactMode _ _ H2).
        now rewrite set_compactMode_same. }
      apply Hset. destruct d as [|b|x|s|?|?|i].
      - now apply writes_line_put.
      - destruct b; now apply writes_line_put.
      - apply writes_line_put, show_double_line.
      - apply writes_line_writeString.
      - apply writes_line_refl.
      - apply writes_line_refl.
      - apply writes_line_put, single_line_show_si64. }
    destruct d; try contradiction; apply (Hbody w Hw).
  - set (w1 := put " " (put "[" w)).
    assert (H1 : writes_line w w1).
    { eapply writes_line_trans; apply writes_line_put; reflexivity. }
    assert (Hw1 : compactMode w1 = true) by exact Hw.
    assert (H2 : writes_line w1
                   (writeContainer
                      (fun entry w0 =>
                         writeNode show_double entry
                           (writeEntry_header entry w0)) v w1)).
    { apply writeContainer_line; [|exact Hw1].
      eapply Forall_impl; [|exact IH].
      intros entry Hentry w0 Hw0.
      rewrite (writeEntry_header_compact _ _ Hw0). now apply Hentry. }
    set (w2 := writeContainer _ v w1) in *.
    pose proof (writes_line_trans _ _ _ H1 H2) as H12.
    pose proof (writes_line_compactMode _ _ H12) as Hw2. rewrite Hw in Hw2.
    rewrite Hw2.
    assert (H3 : writes_line w (put "]" (put " " w2))).
    { eapply writes_line_trans; [exact H12|].
      eapply writes_line_trans; apply writes_line_put; reflexivity. }
    rewrite <- Hw at 1. rewrite <- (writes_line_compactMode _ _ H3).
    now rewrite set_compactMode_same.
  - set (w1 := put " " (put "{" w)).
    assert (H1 : writes_line w w1).
    { eapply writes_line_trans; apply writes_line_put; reflexivity. }
    assert (Hw1 : compactMode w1 = true) by exact Hw.
    assert (H2 : writes_line w1
                   (writeContainer
                      (fun (entry : string * JsonNode) w0 =>
                         writeNode show_double (snd entry)
                           (put " : "
                              (writeString (fst entry)
                                 (writeEntry_header (snd entry) w0))))
                      mp w1)).
    { apply writeContainer_line; [|exact Hw1].
      eapply Forall_impl; [|exact IH].
      intros entry Hentry w0 Hw0.
      rewrite (writeEntry_header_compact _ _ Hw0).
      assert (Hkey : writes_line w0 (put " : " (writeString (fst entry) w0))).
      { eapply writes_line_trans; [apply writes_line_writeString|].
        now apply writes_line_put. }
      eapply writes_line_trans; [exact Hkey|].
      apply Hentry. now rewrite (writes_line_compactMode _ _ Hkey). }
    set (w2 := writeContainer _ mp w1) in *.
    pose proof (writes_line_trans _ _ _ H1 H2) as H12.
    pose proof (writes_line_compactMode _ _ H12) as Hw2. rewrite Hw in Hw2.
    rewrite Hw2.
    assert (H3 : writes_line w (put "}" (put " " w2))).
    { eapply writes_line_trans; [exact H12|].
      eapply writes_line_trans; apply writes_line_put; reflexivity. }
    rewrite <- Hw at 1. rewrite <- (writes_line_compactMode _ _ H3).
    now rewrite set_compactMode_same.
Qed.
End WriterProperties.

(** ** Output is only appended *)

Lemma appends_refl w : appends w w.
Proof.
  split; [|apply same_settings_refl].
  exists EmptyString. now rewrite append_nil_r.
Qed.

Lemma appends_trans w1 w2 w3 : appends w1 w2 -> appends w2 w3 -> appends w1 w3.
Proof.
  intros [(t1 & Ho1) Hs1] [(t2 & Ho2) Hs2].
  split; [|eapply same_settings_trans; eassumption].
  exists (t1 ++ t2). now rewrite Ho2, Ho1, append_assoc.
Qed.

Lemma appends_put s w : appends w (put s w).
Proof. split; [now exists s|apply same_settings_put]. Qed.

Lemma appends_writeString s w : appends w (writeString s w).
Proof.
  destruct (writeString_out s w) as [Hout Hs]. split; [|exact Hs].
  eexists. exact Hout.
Qed.

Lemma appends_writeEntry_header node w : appends w (writeEntry_header node w).
Proof.
  unfold writeEntry_header. destruct (negb (compactMode w));
    [|apply appends_refl].
  assert (H1 : appends w
                 match meta node with
                 | EmptyString => w
                 | String _ _ as m =>
                     put newline (put m (put " // " (put (prefix w) w)))
                 end).
  { destruct (meta node); [apply appends_refl|].
    repeat (eapply appends_trans; [|apply appends_put]). apply appends_refl. }
  set (w1 := match meta node with EmptyString => w | _ => _ end) in *.
  assert (H2 : appends w1
                 match flags node with
                 | [] => w1
                 | (_ :: _) as fl =>
                     put newline
                       (put (concat ", " fl)
                          (put " // flags: " (put (prefix w1) w1)))
                 end).
  { destruct (flags node); [apply appends_refl|].
    repeat (eapply appends_trans; [|apply appends_put]). apply appends_refl. }
  eapply appends_trans; [exact H1|].
  eapply appends_trans; [exact H2|]. apply appends_put.
Qed.

Section AppendingContainer.
Context {Entry : Type} (writeEntry : Entry -> JsonWriter -> JsonWriter).

Lemma writeContainer_rest_appends (rest : list Entry) :
  Forall (entry_appends writeEntry) rest ->
  forall w, appends w (writeContainer_rest writeEntry rest w).
Proof.
  induction 1 as [|entry rest Hentry _ IH]; intros w;
    cbn [writeContainer_rest]; [apply appends_refl|].
  eapply appends_trans; [apply appends_put|].
  eapply appends_trans; [apply Hentry|]. apply IH.
Qed.

Lemma writeContainer_appends (entries : list Entry) :
  Forall (entry_appends writeEntry) entries ->
  forall w, appends w (writeContainer writeEntry entries w).
Proof.
  intros Hall w. destruct entries as [|first rest];
    cbn [writeContainer]; [apply appends_refl|].
  inversion Hall as [|? ? Hfirst Hrest]; subst.
  set (w1 := set_prefix (prefix w ++ char tab) w).
  pose proof (appends_trans _ _ _ (Hfirst w1)
                (writeContainer_rest_appends rest Hrest _)) as H12.
  set (w3 := writeContainer_rest writeEntry rest _) in *.
  pose proof (appends_trans _ _ _ H12 (appends_put
                (if compactMode w3 then EmptyString else newline) w3))
    as [(text & Hout) (Hp & Hc & Hm)].
  set (w4 := put _ w3) in *. subst w1.
  cbn [set_prefix prefix out compact compactMode] in *.
  rewrite Hp, drop_last_append. split.
  - exists text. exact Hout.
  - unfold same_settings. cbn [set_prefix prefix compact compactMode].
    repeat split; assumption.
Qed.
End AppendingContainer.

(** In every mode [writeNode] only appends to the output and hands the
    writer back with its indentation and its mode as they were. *)
Lemma writeNode_appends (show_double : double -> string) (node : JsonNode) :
  forall w, appends w (writeNode show_double node w).
Proof.
  assert (Hrestore : forall w w1 w2,
             w1 = w \/ w1 = set_compactMode true w ->
             appends w1 w2 ->
             appends w (set_compactMode (compactMode w) w2)).
  { intros w w1 w2 Hw1 [(text & Hout) (Hp & Hc & _)].
    split; [|unfold same_settings];
      cbn [set_compactMode out prefix compact compactMode].
    - exists text. destruct Hw1; subst w1; exact Hout.
    - destruct Hw1; subst w1; repeat split; assumption. }
  induction node as [d m f Hd|v m f IH|mp m f IH] using JsonNode_tree_ind;
    intros w; cbn [writeNode data];
    set (w1 := if compact w && negb (compactMode w) && isCompact _
               then set_compactMode true w else w);
    assert (Hw1 : w1 = w \/ w1 = set_compactMode true w)
      by (subst w1; destruct (_ && _ && _); auto);
    apply (Hrestore w w1 _ Hw1); clearbody w1.
  - destruct d as [|b|x|s|?|?|i]; try contradiction;
      try apply appends_put; try apply appends_writeString.
    destruct b; apply appends_put.
  - repeat (eapply appends_trans; [|apply appends_put]).
    eapply appends_trans; [|apply writeContainer_appends].
    + repeat (eapply appends_trans; [|apply appends_put]). apply appends_refl.
    + eapply Forall_impl; [|exact IH].
      intros entry Hentry w0.
      eapply appends_trans; [apply appends_writeEntry_header|apply Hentry].
  - repeat (eapply appends_trans; [|apply appends_put]).
    eapply appends_trans; [|apply writeContainer_appends].
    + repeat (eapply appends_trans; [|apply appends_put]). apply appends_refl.
    + eapply Forall_impl; [|exact IH].
      intros entry Hentry w0.
      eapply appends_trans; [|apply Hentry].
      eapply appends_trans; [|apply appends_put].
      eapply appends_trans; [apply appends_writeEntry_header|].
      apply appends_writeString.
Qed.

(** A container written while [compactMode] stays inactive starts on a
    line of its own: that is the case when the caller did not ask for
    compact output, and when the container is not compact. *)
Lemma writeNode_container_pretty (show_double : double -> string)
  (node : JsonNode) (w : JsonWriter) :
  compactMode w = false ->
  compact w = false \/ isCompact node = false ->
  (forall v, data node = V_JsonVector v ->
     exists rest, out (writeNode show_double node w)
                  = out w ++ "[" ++ newline ++ rest)
  /\ (forall m, data node = V_JsonMap m ->
        exists rest, out (writeNode show_double node w)
                     = out w ++ "{" ++ newline ++ rest).
Proof.
  intros Hm Hcond.
  assert (Hif : compact w && negb (compactMode w) && isCompact node = false).
  { destruct Hcond as [H|H]; rewrite H, ?andb_false_r; reflexivity. }
  destruct node as [d mt fl]. cbn [data]. split.
  - intros v ->. cbn [writeNode data]. rewrite Hif, Hm.
    cbn [set_compactMode out put].
    match goal with
    | |- context [writeContainer ?f v ?w0] =>
        destruct (writeContainer_appends f v) with (w := w0)
          as [(text & Hout) _]
    end.
    { apply Forall_forall. intros entry _ w0.
      eapply appends_trans; [apply appends_writeEntry_header|].
      apply writeNode_appends. }
    rewrite Hout. cbn [put out]. eexists.
    rewrite !append_assoc. reflexivity.
  - intros m ->. cbn [writeNode data]. rewrite Hif, Hm.
    cbn [set_compactMode out put].
    match goal with
    | |- context [writeContainer ?f m ?w0] =>
        destruct (writeContainer_appends f m) with (w := w0)
          as [(text & Hout) _]
    end.
    { apply Forall_forall. intros entry _ w0.
      eapply appends_trans; [|apply writeNode_appends].
      eapply appends_trans; [|apply appends_put].
      eapply appends_trans; [apply appends_writeEntry_header|].
      apply appends_writeString. }
    rewrite Hout. cbn [put out]. eexists.
    rewrite !append_assoc. reflexivity.
Qed.

(** ** Retyping a node *)

Lemma truncate_double_finite (s : bool) (m : positive) (e : Z) :
  exists z, truncate_double (S754_finite s m e) = Some z
            /\ truncated_toward_zero s m e z.
Proof.
  unfold truncate_double, truncated_toward_zero.
  set (mag := if (0 <=? e)%Z then (Zpos m * 2 ^ e)%Z
              else (Zpos m / 2 ^ (- e))%Z).
  assert (Hmag : (0 <= mag)%Z).
  { subst mag. destruct (0 <=? e)%Z eqn:He.
    - apply Z.leb_le in He. apply Z.mul_nonneg_nonneg; [lia|].
      apply Z.pow_nonneg. lia.
    - apply Z.leb_gt in He. apply Z.div_pos; [lia|].
      apply Z.pow_pos_nonneg; lia. }
  exists (if s then (- mag)%Z else mag). split; [reflexivity|].
  assert (Habs : Z.abs (if s then (- mag)%Z else mag) = mag)
    by (destruct s; lia).
  rewrite Habs. split; [destruct s; lia|].
  subst mag. destruct (0 <=? e)%Z eqn:He; [reflexivity|].
  apply Z.leb_gt in He.
  assert (Hpow : (0 < 2 ^ (- e))%Z) by (apply Z.pow_pos_nonneg; lia).
  split.
  - rewrite Z.mul_comm. apply Z.mul_div_le. exact Hpow.
  - rewrite Z.mul_comm. apply Z.mul_succ_div_gt. exact Hpow.
Qed.

Lemma si64_of_double_in_range (d : double) (z : Z) :
  truncate_double d = Some z -> si64_in_range z = true ->
  si64_of_double d = z.
Proof. intros Ht Hr. unfold si64_of_double. now rewrite Ht, Hr. Qed.

(** *** Widening an integer to binary64 *)

Section Binary64.
Local Open Scope Z_scope.

Lemma digits2_pos_bounds (p : positive) :
  2 ^ (Zpos (digits2_pos p) - 1) <= Zpos p < 2 ^ Zpos (digits2_pos p).
Proof.
  induction p as [p IH|p IH|]; cbn [digits2_pos].
  - rewrite Pos2Z.inj_succ, Z.pow_succ_r by lia.
    replace (Z.succ (Zpos (digits2_pos p)) - 1)
      with (Z.succ (Zpos (digits2_pos p) - 1)) by lia.
    rewrite Z.pow_succ_r by lia. lia.
  - rewrite Pos2Z.inj_succ, Z.pow_succ_r by lia.
    replace (Z.succ (Zpos (digits2_pos p)) - 1)
      with (Z.succ (Zpos (digits2_pos p) - 1)) by lia.
    rewrite Z.pow_succ_r by lia. lia.
  - cbn. lia.
Qed.

Lemma iter_xO_value (p n : positive) :
  Zpos (Pos.iter xO p n) = Zpos p * 2 ^ Zpos n.
Proof.
  induction n as [|n IH] using Pos.peano_ind.
  - cbn [Pos.iter]. lia.
  - rewrite Pos.iter_succ, Pos2Z.inj_succ, Z.pow_succ_r by lia.
    rewrite Pos2Z.inj_xO, IH. lia.
Qed.

Lemma iter_xO_digits (p n : positive) :
  Zpos (digits2_pos (Pos.iter xO p n)) = Zpos (digits2_pos p) + Zpos n.
Proof.
  induction n as [|n IH] using Pos.peano_ind.
  - cbn [Pos.iter digits2_pos]. lia.
  - rewrite Pos.iter_succ. cbn [digits2_pos]. lia.
Qed.

Lemma shifted_0 (p : Z) :
  0 <= p -> shifted p 0 (Build_shr_record p false false).
Proof.
  intros Hp. split; [exact Hp|]. exists 0. cbn [shr_m loc_of_shr_record].
  change (2 ^ 0) with 1. change (0 =? 0) with true. cbv iota.
  split; [lia|]. split; [lia|reflexivity].
Qed.

Lemma shifted_shr_1 (p k : Z) (r : shr_record) :
  0 <= k -> shifted p k r -> shifted p (k + 1) (shr_1 r).
Proof.
  intros Hk (Hm & rem & Hp & Hrem & Hloc).
  assert (Hpow : 2 ^ (k + 1) = 2 * 2 ^ k) by (rewrite Z.pow_add_r; lia).
  assert (Hpos : 0 < 2 ^ k) by (apply Z.pow_pos_nonneg; lia).
  destruct r as [m r s]. cbn [shr_m] in *.
  assert (Hs : orb r s = negb (rem =? 0)).
  { destruct r, s, (rem =? 0); cbn in Hloc |- *; congruence. }
  destruct (Z.eqb_spec rem 0) as [Hz|Hz]; cbn [negb] in Hs.
  - (* nothing was lost so far *)
    destruct m as [|[q|q|]|]; try lia; cbn [shr_1]; rewrite Hs;
      (split; [cbn [shr_m]; lia|]); cbn [shr_m loc_of_shr_record].
    + exists 0. rewrite Hpow. change (0 =? 0) with true. cbv iota.
      split; [lia|]. split; [lia|reflexivity].
    + exists (2 ^ k). rewrite Hpow, Z.compare_refl.
      destruct (Z.eqb_spec (2 ^ k) 0); [lia|].
      split; [lia|]. split; [lia|reflexivity].
    + exists 0. rewrite Hpow. change (0 =? 0) with true. cbv iota.
      split; [lia|]. split; [lia|reflexivity].
    + exists (2 ^ k). rewrite Hpow, Z.compare_refl.
      destruct (Z.eqb_spec (2 ^ k) 0); [lia|].
      split; [lia|]. split; [lia|reflexivity].
  - destruct m as [|[q|q|]|]; try lia; cbn [shr_1]; rewrite Hs;
      (split; [cbn [shr_m]; lia|]); cbn [shr_m loc_of_shr_record].
    + exists rem. rewrite Hpow. split; [lia|]. split; [lia|].
      destruct (Z.eqb_spec rem 0); [lia|]. f_equal. symmetry.
      apply Z.compare_lt_iff. lia.
    + exists (2 ^ k + rem). rewrite Hpow. split; [lia|]. split; [lia|].
      destruct (Z.eqb_spec (2 ^ k + rem) 0); [lia|]. f_equal. symmetry.
      apply Z.compare_gt_iff. lia.
    + exists rem. rewrite Hpow. split; [lia|]. split; [lia|].
      destruct (Z.eqb_spec rem 0); [lia|]. f_equal. symmetry.
      apply Z.compare_lt_iff. lia.
    + exists (2 ^ k + rem). rewrite Hpow. split; [lia|]. split; [lia|].
      destruct (Z.eqb_spec (2 ^ k + rem) 0); [lia|]. f_equal. symmetry.
      apply Z.compare_gt_iff. lia.
Qed.

Lemma shifted_iter_pos (p : Z) (n : positive) :
  forall k r, 0 <= k -> shifted p k r ->
              shifted p (k + Zpos n) (iter_pos shr_1 n r).
Proof.
  induction n as [n IH|n IH|]; intros k r Hk H; cbn [iter_pos].
  - replace (k + Zpos n~1) with (k + 1 + Zpos n + Zpos n) by lia.
    apply IH; [lia|]. apply IH; [lia|]. now apply shifted_shr_1.
  - replace (k + Zpos n~0) with (k + Zpos n + Zpos n) by lia.
    apply IH; [lia|]. now apply IH.
  - now apply shifted_shr_1.
Qed.

Lemma digits2_pos_unique (p : positive) (n : Z) :
  2 ^ (n - 1) <= Zpos p < 2 ^ n -> Zpos (digits2_pos p) = n.
Proof.
  intros [Hlo Hhi]. pose proof (digits2_pos_bounds p) as [Dlo Dhi].
  set (d := Zpos (digits2_pos p)) in *.
  assert (Hd : 0 < d) by (subst d; lia).
  assert (Hn : 0 < n).
  { destruct (Z.ltb_spec 0 n); [assumption|].
    destruct (Z.eq_dec n 0) as [->|]; [cbn in Hhi; lia|].
    rewrite (Z.pow_neg_r 2 n) in Hhi by lia. lia. }
  destruct (Z.lt_trichotomy d n) as [Hlt|[Heq|Hgt]]; [|exact Heq|].
  - assert (2 ^ d <= 2 ^ (n - 1)) by (apply Z.pow_le_mono_r; lia). lia.
  - assert (2 ^ n <= 2 ^ (d - 1)) by (apply Z.pow_le_mono_r; lia). lia.
Qed.

Lemma fexp_binary64 (x : Z) : -1021 <= x -> fexp 53 1024 x = x - 53.
Proof. intros H. unfold fexp, emin. lia. Qed.

(** A mantissa of 53 bits is kept as it is. *)
Lemma binary_round_aux_aligned (sx : bool) (m : positive) (e : Z) :
  Zpos (digits2_pos m) = 53 -> -1074 <= e <= 971 ->
  binary_round_aux 53 1024 sx (Zpos m) e loc_Exact = S754_finite sx m e.
Proof.
  intros Hd He.
  assert (Hs : shr_fexp 53 1024 (Zpos m) e loc_Exact
               = (Build_shr_record (Zpos m) false false, e)).
  { unfold shr_fexp. cbn [Zdigits2 shr_record_of_loc]. rewrite Hd.
    rewrite fexp_binary64 by lia.
    replace (53 + e - 53 - e) with 0 by lia. reflexivity. }
  unfold binary_round_aux. rewrite Hs.
  cbn [shr_m loc_of_shr_record round_nearest_even]. rewrite Hs.
  cbn [shr_m]. replace (e <=? 1024 - 53) with true; [reflexivity|].
  symmetry. apply Z.leb_le. lia.
Qed.

Lemma bounded_aligned (m : positive) (e : Z) :
  Zpos (digits2_pos m) = 53 -> -1074 <= e <= 971 ->
  bounded 53 1024 m e = true.
Proof.
  intros Hd He. unfold bounded, canonical_mantissa. rewrite Hd.
  rewrite fexp_binary64 by lia. apply andb_true_intro. split.
  - apply Z.eqb_eq. lia.
  - apply Z.leb_le. lia.
Qed.

(** An integer of at most 53 bits is held exactly. *)
Lemma binary_round_exact (sx : bool) (p : positive) :
  Zpos (digits2_pos p) <= 53 ->
  exists m e,
    binary_round 53 1024 sx p 0 = S754_finite sx m e
    /\ Zpos (digits2_pos m) = 53 /\ -52 <= e <= 0
    /\ Zpos p * 2 ^ (- e) = Zpos m.
Proof.
  intros Hd. unfold binary_round. rewrite Z.add_0_r.
  rewrite fexp_binary64 by lia. unfold shl_align. rewrite Z.sub_0_r.
  destruct (Zpos (digits2_pos p) - 53) as [|n|n] eqn:Hn; try lia.
  - exists p, 0. rewrite binary_round_aux_aligned by lia.
    split; [reflexivity|]. split; [lia|]. split; [lia|].
    change (2 ^ (- 0)) with 1. lia.
  - exists (Pos.iter xO p n), (Zneg n).
    assert (Hdig : Zpos (digits2_pos (Pos.iter xO p n)) = 53)
      by (rewrite iter_xO_digits; lia).
    rewrite binary_round_aux_aligned by lia.
    split; [reflexivity|]. split; [exact Hdig|]. split; [lia|].
    now rewrite iter_xO_value.
Qed.

Lemma shr_fexp_aligned (m : positive) (e : Z) :
  Zpos (digits2_pos m) = 53 -> -1074 <= e ->
  shr_fexp 53 1024 (Zpos m) e loc_Exact
  = (Build_shr_record (Zpos m) false false, e).
Proof.
  intros Hd He. unfold shr_fexp. cbn [Zdigits2 shr_record_of_loc].
  rewrite Hd, fexp_binary64 by lia.
  replace (53 + e - 53 - e) with 0 by lia. reflexivity.
Qed.

Lemma round_nearest_even_cases (m1 rem K : Z) (loc : location) :
  loc = (if rem =? 0 then loc_Exact else loc_Inexact (2 * rem ?= K)) ->
  0 <= rem < K ->
  (round_nearest_even m1 loc = m1 /\ 2 * rem <= K)
  \/ (round_nearest_even m1 loc = m1 + 1 /\ K <= 2 * rem).
Proof.
  intros -> Hrem. destruct (Z.eqb_spec rem 0) as [->|Hnz].
  - left. cbn [round_nearest_even]. lia.
  - destruct (Z.compare_spec (2 * rem) K) as [Heq|Hlt|Hgt];
      cbn [round_nearest_even].
    + destruct (Z.even m1); [left|right]; lia.
    + left. lia.
    + right. lia.
Qed.

(** Between [2^(52+k)] and [2^(53+k)] the integers binary64 holds are the
    multiples of [2^k]: the multiple nearest to [P] is nearest among all of
    them. *)
Lemma nearest_multiple (P m1 m2 rem k : Z) :
  0 <= k <= 970 ->
  P = m1 * 2 ^ k + rem -> 0 <= rem < 2 ^ k ->
  2 ^ 52 <= m1 < 2 ^ 53 ->
  (m2 = m1 /\ 2 * rem <= 2 ^ k) \/ (m2 = m1 + 1 /\ 2 ^ k <= 2 * rem) ->
  forall z', binary64_integer z' ->
             Z.abs (P - m2 * 2 ^ k) <= Z.abs (P - z').
Proof.
  intros Hk HP Hrem Hm1 Hm2 z' (m' & e' & Hm' & He' & Hz').
  set (K := 2 ^ k) in *.
  assert (HK : 0 < K) by (apply Z.pow_pos_nonneg; lia).
  assert (Herr : 2 * Z.abs (P - m2 * K) <= K) by (destruct Hm2 as [[-> ?]|[-> ?]]; lia).
  assert (HPK : 2 ^ 52 * K <= P) by nia.
  destruct (Z.le_gt_cases z' 0) as [Hneg|Hpos]; [lia|].
  rewrite Z.abs_eq in Hz' by lia.
  destruct (Z.le_gt_cases k e') as [Hge|Hlt].
  - (* [z'] is a multiple of [K] *)
    assert (Hpow : 2 ^ e' = 2 ^ (e' - k) * K).
    { subst K. rewrite <- Z.pow_add_r by lia. f_equal. lia. }
    assert (Hq : 0 < 2 ^ (e' - k)) by (apply Z.pow_pos_nonneg; lia).
    set (q := m' * 2 ^ (e' - k)).
    assert (Hz : z' = q * K) by (subst q; lia).
    destruct (Z.le_gt_cases q m1) as [Hle|Hgt].
    + assert (q * K <= m1 * K) by nia.
      destruct Hm2 as [[-> ?]|[-> ?]]; lia.
    + assert ((m1 + 1) * K <= q * K) by nia.
      destruct Hm2 as [[-> ?]|[-> ?]]; lia.
  - (* [z'] lies below [2^(52+k)] *)
    assert (Hpow : 2 * 2 ^ e' <= K).
    { subst K. rewrite <- Z.pow_succ_r by lia.
      apply Z.pow_le_mono_r; lia. }
    assert (He0 : 0 < 2 ^ e') by (apply Z.pow_pos_nonneg; lia).
    assert (2 * z' <= (2 ^ 53 - 1) * K) by nia.
    lia.
Qed.

(** An integer of 54 to 64 bits is rounded to 53 bits. *)
Lemma binary_round_rounded (sx : bool) (p : positive) :
  53 < Zpos (digits2_pos p) <= 64 ->
  exists m e,
    binary_round 53 1024 sx p 0 = S754_finite sx m e
    /\ Zpos (digits2_pos m) = 53 /\ 0 < e <= 12
    /\ nearest_binary64 (Zpos p) (Zpos m * 2 ^ e).
Proof.
  intros Hd. pose proof (digits2_pos_bounds p) as HP.
  unfold binary_round. rewrite Z.add_0_r, fexp_binary64 by lia.
  unfold shl_align. rewrite Z.sub_0_r.
  destruct (Zpos (digits2_pos p) - 53) as [|n|n] eqn:Hn; try lia.
  unfold binary_round_aux.
  assert (Hs : shr_fexp 53 1024 (Zpos p) 0 loc_Exact
               = (iter_pos shr_1 n (Build_shr_record (Zpos p) false false),
                  0 + Zpos n)).
  { unfold shr_fexp. cbn [Zdigits2 shr_record_of_loc].
    rewrite Z.add_0_r, fexp_binary64, Z.sub_0_r, Hn by lia. reflexivity. }
  rewrite Hs. clear Hs.
  destruct (shifted_iter_pos (Zpos p) n 0 _ (Z.le_refl 0)
              (shifted_0 (Zpos p) (Pos2Z.is_nonneg p)))
    as (Hm1 & rem & HPeq & Hrem & Hloc).
  rewrite Z.add_0_l in *.
  set (k := Zpos n) in *.
  set (m1 := shr_m (iter_pos shr_1 n _)) in *.
  assert (Hk : 0 < k <= 11) by lia.
  assert (HK : 0 < 2 ^ k) by (apply Z.pow_pos_nonneg; lia).
  assert (Hbits : 2 ^ 52 * 2 ^ k <= Zpos p < 2 ^ 53 * 2 ^ k).
  { rewrite <- !Z.pow_add_r by lia.
    replace (52 + k) with (Zpos (digits2_pos p) - 1) by lia.
    replace (53 + k) with (Zpos (digits2_pos p)) by lia. exact HP. }
  assert (Hm1' : 2 ^ 52 <= m1 < 2 ^ 53) by nia.
  destruct (round_nearest_even_cases m1 rem (2 ^ k) _ Hloc Hrem) as [Hr|Hr].
  - (* rounded down *)
    destruct Hr as [-> Hhalf].
    destruct m1 as [|q|q] eqn:Eq; try lia.
    assert (Hq : Zpos (digits2_pos q) = 53)
      by (apply digits2_pos_unique; lia).
    rewrite shr_fexp_aligned by lia. cbn [shr_m].
    exists q, k. replace (k <=? 1024 - 53) with true
      by (symmetry; apply Z.leb_le; lia).
    split; [reflexivity|]. split; [exact Hq|]. split; [lia|]. split.
    + exists (Zpos q), k. rewrite Z.abs_eq by lia. lia.
    + apply (nearest_multiple (Zpos p) (Zpos q) (Zpos q) rem k); try lia.
  - destruct Hr as [-> Hhalf].
    destruct (Z.eq_dec (m1 + 1) (2 ^ 53)) as [Hcarry|Hno].
    + (* rounded up to the next power of two *)
      rewrite Hcarry.
      assert (Hs : shr_fexp 53 1024 (2 ^ 53) k loc_Exact
                   = (Build_shr_record (2 ^ 52) false false, k + 1)).
      { unfold shr_fexp.
        change (Zdigits2 (2 ^ 53)) with 54.
        rewrite fexp_binary64 by lia.
        replace (54 + k - 53 - k) with 1 by lia. reflexivity. }
      rewrite Hs. cbn [shr_m].
      exists (4503599627370496%positive), (k + 1).
      replace (k + 1 <=? 1024 - 53) with true
        by (symmetry; apply Z.leb_le; lia).
      split; [reflexivity|]. split; [reflexivity|]. split; [lia|].
      assert (Hval : Zpos 4503599627370496 * 2 ^ (k + 1) = (m1 + 1) * 2 ^ k).
      { rewrite Hcarry, Z.pow_add_r by lia. lia. }
      rewrite Hval. split.
      * exists (2 ^ 52), (k + 1). rewrite Z.abs_eq by lia.
        split; [lia|]. split; [lia|].
        rewrite Hcarry, Z.pow_add_r by lia. lia.
      * apply (nearest_multiple (Zpos p) m1 (m1 + 1) rem k); try lia.
    + destruct (m1 + 1) as [|q|q] eqn:Eq; try lia.
      assert (Hq : Zpos (digits2_pos q) = 53)
        by (apply digits2_pos_unique; lia).
      rewrite shr_fexp_aligned by lia. cbn [shr_m].
      exists q, k. replace (k <=? 1024 - 53) with true
        by (symmetry; apply Z.leb_le; lia).
      split; [reflexivity|]. split; [exact Hq|]. split; [lia|]. split.
      * exists (Zpos q), k. rewrite Z.abs_eq by lia. lia.
      * rewrite <- Eq.
        apply (nearest_multiple (Zpos p) m1 (m1 + 1) rem k); try lia.
Qed.

Lemma binary64_integer_opp (z : Z) :
  binary64_integer z -> binary64_integer (- z).
Proof.
  intros (m & e & Hm & He & Hz). exists m, e. now rewrite Z.abs_opp.
Qed.

Lemma binary64_integer_small (i : Z) :
  Z.abs i <= 2 ^ 53 -> binary64_integer i.
Proof.
  intros Hi. destruct (Z.eq_dec (Z.abs i) (2 ^ 53)) as [Heq|Hne].
  - exists (2 ^ 52), 1. rewrite Heq. split; [lia|]. split; [lia|reflexivity].
  - exists (Z.abs i), 0. change (2 ^ 0) with 1. lia.
Qed.

Lemma nearest_binary64_opp (i z : Z) :
  nearest_binary64 i z -> nearest_binary64 (- i) (- z).
Proof.
  intros [Hz Hnear]. split; [now apply binary64_integer_opp|].
  intros z' Hz'. specialize (Hnear (- z') (binary64_integer_opp _ Hz')). lia.
Qed.

Lemma nearest_binary64_exact (i z : Z) :
  nearest_binary64 i z -> binary64_integer i -> z = i.
Proof. intros [_ Hnear] Hi. specialize (Hnear i Hi). lia. Qed.

Lemma binary_round_nearest (sx : bool) (p : positive) :
  Zpos p <= 2 ^ 63 ->
  exists m e z,
    binary_round 53 1024 sx p 0 = S754_finite sx m e
    /\ bounded 53 1024 m e = true
    /\ 0 < z
    /\ (if 0 <=? e then z = Zpos m * 2 ^ e else z * 2 ^ (- e) = Zpos m)
    /\ nearest_binary64 (Zpos p) z.
Proof.
  intros Hp. pose proof (digits2_pos_bounds p) as [Hlo Hhi].
  assert (Hd : Zpos (digits2_pos p) <= 64).
  { destruct (Z.le_gt_cases (Zpos (digits2_pos p)) 64); [assumption|].
    assert (2 ^ 64 <= 2 ^ (Zpos (digits2_pos p) - 1))
      by (apply Z.pow_le_mono_r; lia).
    lia. }
  destruct (Z.le_gt_cases (Zpos (digits2_pos p)) 53) as [Hsmall|Hlarge].
  - destruct (binary_round_exact sx p Hsmall) as (m & e & Hr & Hm & He & Hv).
    exists m, e, (Zpos p). split; [exact Hr|].
    split; [apply bounded_aligned; lia|]. split; [lia|]. split.
    + destruct (Z.leb_spec 0 e); [|exact Hv].
      replace e with 0 in * by lia. change (2 ^ (- 0)) with 1 in Hv.
      change (2 ^ 0) with 1. lia.
    + assert (Hlt : Zpos p < 2 ^ 53).
      { assert (2 ^ Zpos (digits2_pos p) <= 2 ^ 53)
          by (apply Z.pow_le_mono_r; lia).
        lia. }
      split; [apply binary64_integer_small; lia|].
      intros z' _. lia.
  - destruct (binary_round_rounded sx p (conj Hlarge Hd))
      as (m & e & Hr & Hm & He & Hnear).
    exists m, e, (Zpos m * 2 ^ e). split; [exact Hr|].
    split; [apply bounded_aligned; lia|].
    assert (0 < 2 ^ e) by (apply Z.pow_pos_nonneg; lia).
    split; [lia|]. split; [|exact Hnear].
    destruct (Z.leb_spec 0 e); [reflexivity|lia].
Qed.

Lemma double_of_si64_widened (i : Z) :
  si64_in_range i = true -> widened i (double_of_si64 i).
Proof.
  unfold si64_in_range, SI64_MIN, SI64_MAX. intros Hr.
  apply andb_prop in Hr as [Hlo Hhi].
  apply Z.leb_le in Hlo, Hhi. unfold double_of_si64, binary_normalize.
  destruct i as [|p|p].
  - split; [reflexivity|]. exists 0. split; [reflexivity|].
    split; [apply binary64_integer_small; cbn; lia|]. intros z' _. lia.
  - destruct (binary_round_nearest false p) as (m & e & z & -> & Hb & Hz & Hv & Hn);
      [lia|].
    split; [exact Hb|]. exists z. split; [|exact Hn].
    cbn [double_holds]. split; [exact Hz|].
    rewrite Z.abs_eq by lia. exact Hv.
  - destruct (binary_round_nearest true p) as (m & e & z & -> & Hb & Hz & Hv & Hn);
      [lia|].
    split; [exact Hb|]. exists (- z). split.
    + cbn [double_holds]. split; [lia|].
      rewrite Z.abs_opp, Z.abs_eq by lia. exact Hv.
    + change (Zneg p) with (- Zpos p). now apply nearest_binary64_opp.
Qed.

Lemma widened_exact (i : Z) (d : double) :
  widened i d -> Z.abs i <= 2 ^ 53 -> double_holds d i.
Proof.
  intros (_ & z & Hz & Hn) Hi.
  now rewrite <- (nearest_binary64_exact i z Hn (binary64_integer_small i Hi)).
Qed.

Lemma double_of_si64_exact (i : Z) :
  si64_in_range i = true -> Z.abs i <= 2 ^ 53 ->
  double_holds (double_of_si64 i) i.
Proof.
  intros Hr. apply widened_exact. now apply double_of_si64_widened.
Qed.

Lemma truncation_of_truncate (d : double) (z : Z) :
  truncation_of d z -> truncate_double d = Some z.
Proof.
  destruct d as [s|s| |s m e]; cbn [truncation_of truncate_double];
    try contradiction.
  - now intros ->.
  - unfold truncated_toward_zero. intros [Hsign Hmag]. f_equal.
    destruct (Z.leb_spec 0 e) as [He|He].
    + destruct s; lia.
    + assert (Hpow : 0 < 2 ^ (- e)) by (apply Z.pow_pos_nonneg; lia).
      assert (Hq : Zpos m / 2 ^ (- e) = Z.abs z).
      { symmetry.
        apply (Z.div_unique_pos _ _ _ (Zpos m - 2 ^ (- e) * Z.abs z)); lia. }
      rewrite Hq. destruct s; lia.
Qed.

Lemma si64_of_double_truncation (d : double) (z : Z) :
  truncation_of d z -> si64_in_range z = true -> si64_of_double d = z.
Proof.
  intros Ht Hr. apply si64_of_double_in_range; [|exact Hr].
  now apply truncation_of_truncate.
Qed.

End Binary64.

Lemma JsonType_eqb_eq (a b : JsonType) : JsonType_eqb a b = true <-> a = b.
Proof. destruct a, b; simpl; split; congruence. Qed.

Lemma JsonType_eqb_neq (a b : JsonType) : JsonType_eqb a b = false <-> a <> b.
Proof. destruct a, b; simpl; split; congruence. Qed.

(** C5: [setType newType] leaves a node of that type as it is.  A Float
    node retyped to Integer holds the float truncated toward zero, for
    every float that has a truncation in the range of [si64] (the C++
    conversion is undefined for the others).  An Integer node retyped to
    Float holds the integer widened: a binary64 number that holds the
    integer itself when it has 53 bits or less, and otherwise the integer
    nearest to it that binary64 holds; zero becomes [+0.0].  Every other
    transition installs the default payload of the new type ([false], [0],
    [0.0], empty string, sequence or mapping, nothing for Null).  [meta] and
    [flags] are never touched. *)
Theorem setType_transitions (n : JsonNode) (newType : JsonType) :
  (getType n = newType -> setType newType n = n)
  /\ (forall d z,
        data n = V_double d -> newType = DATA_INTEGER ->
        truncation_of d z -> si64_in_range z = true ->
        setType newType n = set_data n (V_si64 z))
  /\ (forall i,
        data n = V_si64 i -> newType = DATA_FLOAT ->
        si64_in_range i = true ->
        exists d,
          setType newType n = set_data n (V_double d)
          /\ widened i d
          /\ ((Z.abs i <= 2 ^ 53)%Z -> double_holds d i)
          /\ (i = 0%Z -> d = S754_zero false))
  /\ (getType n <> newType ->
      ~ (getType n = DATA_FLOAT /\ newType = DATA_INTEGER) ->
      ~ (getType n = DATA_INTEGER /\ newType = DATA_FLOAT) ->
      setType newType n = set_data n (default_payload newType))
  /\ meta (setType newType n) = meta n
  /\ flags (setType newType n) = flags n.
Proof.
  destruct n as [d m f].
  split; [|split; [|split; [|split; [|split]]]].
  - intros H. unfold setType. apply JsonType_eqb_eq in H. now rewrite H.
  - intros d0 z Hd Ht Hz Hr. cbn [data] in Hd. subst.
    change (set_data (mkJsonNode (V_double d0) m f)
              (V_si64 (si64_of_double d0))
            = set_data (mkJsonNode (V_double d0) m f) (V_si64 z)).
    now rewrite (si64_of_double_truncation d0 z Hz Hr).
  - intros i Hd Ht Hr. cbn [data] in Hd. subst.
    exists (double_of_si64 i). split; [reflexivity|].
    split; [now apply double_of_si64_widened|].
    split; [now apply double_of_si64_exact|]. now intros ->.
  - intros Hne Hfi Hif. unfold setType.
    apply JsonType_eqb_neq in Hne. rewrite Hne.
    destruct d, newType; cbn in *; try reflexivity;
      solve [exfalso; apply Hfi; now split | exfalso; apply Hif; now split
            | discriminate Hne].
  - unfold setType. destruct (JsonType_eqb _ _); [reflexivity|].
    destruct d, newType; reflexivity.
  - unfold setType. destruct (JsonType_eqb _ _); [reflexivity|].
    destruct d, newType; reflexivity.
Qed.

(** C5 at Float nodes holding 3.9, -3.9 and -0.0, at Integer nodes
    holding 5 and [2^53 + 1], the first integer binary64 does not hold, and
    at two transitions without a conversion. *)
Lemma setType_transitions_witness :
  setType DATA_INTEGER (mkJsonNode (V_double float_3_9) "a.json" [])
  = mkJsonNode (V_si64 3%Z) "a.json" []
  /\ setType DATA_INTEGER
       (mkJsonNode (V_double (SFopp float_3_9)) "a.json" [])
     = mkJsonNode (V_si64 (-3)%Z) "a.json" []
  /\ setType DATA_INTEGER (mkJsonNode (V_double (S754_zero true)) "a.json" [])
     = mkJsonNode (V_si64 0%Z) "a.json" []
  /\ (exists d,
        setType DATA_FLOAT (mkJsonNode (V_si64 5%Z) "a.json" [])
        = mkJsonNode (V_double d) "a.json" []
        /\ double_holds d 5%Z)
  /\ (exists d,
        setType DATA_FLOAT
          (mkJsonNode (V_si64 9007199254740993%Z) "a.json" [])
        = mkJsonNode (V_double d) "a.json" []
        /\ widened 9007199254740993%Z d
        /\ double_holds d 9007199254740992%Z)
  /\ setType DATA_STRING (mkJsonNode (V_si64 5%Z) "a.json" [])
     = mkJsonNode (V_string EmptyString) "a.json" []
  /\ setType DATA_INTEGER (mkJsonNode (V_si64 5%Z) "a.json" [])
     = mkJsonNode (V_si64 5%Z) "a.json" [].
Proof.
  split; [|split; [|split; [|split; [|split; [|split]]]]].
  - destruct (setType_transitions
                (mkJsonNode (V_double float_3_9) "a.json" []) DATA_INTEGER)
      as (_ & H & _).
    apply (H float_3_9 3%Z); try reflexivity.
    cbv [truncation_of float_3_9 truncated_toward_zero].
    change (0 <=? -51)%Z with false. cbv iota. lia.
  - destruct (setType_transitions
                (mkJsonNode (V_double (SFopp float_3_9)) "a.json" [])
                DATA_INTEGER) as (_ & H & _).
    apply (H (SFopp float_3_9) (-3)%Z); try reflexivity.
    cbv [truncation_of float_3_9 SFopp negb truncated_toward_zero].
    change (0 <=? -51)%Z with false. cbv iota. lia.
  - destruct (setType_transitions
                (mkJsonNode (V_double (S754_zero true)) "a.json" [])
                DATA_INTEGER) as (_ & H & _).
    apply (H (S754_zero true) 0%Z); reflexivity.
  - destruct (setType_transitions (mkJsonNode (V_si64 5%Z) "a.json" [])
                DATA_FLOAT) as (_ & _ & H & _).
    destruct (H 5%Z eq_refl eq_refl eq_refl) as (d & Heq & _ & Hex & _).
    exists d. split; [exact Heq|]. apply Hex. lia.
  - destruct (setType_transitions
                (mkJsonNode (V_si64 9007199254740993%Z) "a.json" [])
                DATA_FLOAT) as (_ & _ & H & _).
    destruct (H 9007199254740993%Z eq_refl eq_refl eq_refl)
      as (d & Heq & Hw & _).
    exists d. split; [exact Heq|]. split; [exact Hw|].
    injection Heq as <-. cbn. lia.
  - destruct (setType_transitions (mkJsonNode (V_si64 5%Z) "a.json" [])
                DATA_STRING) as (_ & _ & _ & H & _).
    apply H.
    + discriminate.
    + intros [H1 _]; discriminate H1.
    + intros [_ H1]; discriminate H1.
  - destruct (setType_transitions (mkJsonNode (V_si64 5%Z) "a.json" [])
                DATA_INTEGER) as (H & _).
    apply H. reflexivity.
Defined.

(** ** Boolean coercion *)

Lemma trim_left_split (s : string) :
  exists l, s = l ++ trim_left s /\ all_space l = true
            /\ match first_char (trim_left s) with
               | Some c => is_space c = false
               | None => True
               end.
Proof.
  induction s as [|c s (l & Hs & Hl & Hf)]; cbn [trim_left].
  - exists EmptyString. repeat split.
  - destruct (is_space c) eqn:Hc.
    + exists (String c l). cbn [append all_space]. rewrite Hc, Hl, <- Hs.
      repeat split. exact Hf.
    + exists EmptyString. cbn. rewrite Hc. repeat split.
Qed.

Lemma trim_right_split (s : string) :
  exists r, s = trim_right s ++ r /\ all_space r = true
            /\ match last_char (trim_right s) with
               | Some c => is_space c = false
               | None => True
               end.
Proof.
  induction s as [|c s (r & Hs & Hr & Hl)]; cbn [trim_right].
  - exists EmptyString. repeat split.
  - destruct (trim_right s) as [|c' t] eqn:Ht.
    + destruct (is_space c) eqn:Hc.
      * exists (String c r). cbn [append all_space]. rewrite Hc, Hr.
        cbn [append] in Hs. rewrite <- Hs. repeat split.
      * exists r. cbn [append] in Hs. subst s.
        split; [reflexivity|]. split; [exact Hr|exact Hc].
    + exists r. split; [now rewrite Hs|]. split; [exact Hr|].
      unfold last_char in *.
      change (String.length (String c (String c' t)) - 1)
        with (S (String.length t)).
      change (String.length (String c' t) - 1)
        with (String.length t - 0) in Hl.
      rewrite Nat.sub_0_r in Hl. exact Hl.
Qed.

(** [trim] removes a run of white space at each end, and only that. *)
Lemma trim_surrounding (s : string) :
  exists l r, s = l ++ trim s ++ r
              /\ all_space l = true /\ all_space r = true
              /\ match first_char (trim s) with
                 | Some c => is_space c = false
                 | None => True
                 end.
Proof.
  unfold trim.
  destruct (trim_right_split s) as (r & Hs & Hr & _).
  destruct (trim_left_split (trim_right s)) as (l & Ht & Hl & Hf).
  exists l, r. repeat split; try assumption.
  rewrite <- append_assoc, <- Ht. exact Hs.
Qed.

Lemma to_lower_get (s : string) (i : nat) :
  get i (to_lower s) = option_map to_lower_char (get i s).
Proof.
  revert i; induction s as [|c s IH]; intros [|i]; cbn; auto.
Qed.

(** C6: on a Bool node [TryBoolFromString] succeeds with the stored value;
    on a String node it trims and lower-cases the text and succeeds with
    [true] on "true", with [false] on "false", and fails otherwise; on
    every other node it fails.  A failure returns [false]. *)
Theorem TryBoolFromString_cases (n : JsonNode) :
  (forall b, data n = V_bool b -> TryBoolFromString n = (true, b))
  /\ (forall s, data n = V_string s ->
        (to_lower (trim s) = "true" -> TryBoolFromString n = (true, true))
        /\ (to_lower (trim s) = "false" ->
            TryBoolFromString n = (true, false))
        /\ (to_lower (trim s) <> "true" -> to_lower (trim s) <> "false" ->
            TryBoolFromString n = (false, false)))
  /\ (getType n <> DATA_BOOL -> getType n <> DATA_STRING ->
      TryBoolFromString n = (false, false)).
Proof.
  destruct n as [d m f]. unfold TryBoolFromString, getType. cbn [data].
  split; [|split].
  - intros b ->. reflexivity.
  - intros s ->. split; [|split].
    + intros ->. reflexivity.
    + intros ->. reflexivity.
    + intros Ht Hf. apply String.eqb_neq in Ht, Hf. now rewrite Ht, Hf.
  - intros Hb Hs. destruct d; try reflexivity; cbn in *; congruence.
Qed.

(** C6 at the String nodes ["  TRUE  "] and ["yes"], and at an Integer
    node. *)
Lemma TryBoolFromString_cases_witness :
  TryBoolFromString (mkJsonNode (V_string "  TRUE  ") EmptyString [])
  = (true, true)
  /\ TryBoolFromString (mkJsonNode (V_string "yes") EmptyString [])
     = (false, false)
  /\ TryBoolFromString (mkJsonNode (V_si64 1%Z) EmptyString [])
     = (false, false)
  /\ TryBoolFromString (mkJsonNode (V_bool true) EmptyString [])
     = (true, true).
Proof.
  split; [|split; [|split]].
  - destruct (TryBoolFromString_cases
                (mkJsonNode (V_string "  TRUE  ") EmptyString []))
      as (_ & H & _).
    destruct (H "  TRUE  " eq_refl) as (Ht & _). apply Ht. reflexivity.
  - destruct (TryBoolFromString_cases
                (mkJsonNode (V_string "yes") EmptyString []))
      as (_ & H & _).
    destruct (H "yes" eq_refl) as (_ & _ & Hn). apply Hn; discriminate.
  - destruct (TryBoolFromString_cases
                (mkJsonNode (V_si64 1%Z) EmptyString []))
      as (_ & _ & H).
    apply H; discriminate.
  - destruct (TryBoolFromString_cases
                (mkJsonNode (V_bool true) EmptyString []))
      as (H & _).
    apply H. reflexivity.
Defined.

(** ** Compactness *)

(** C8: [isCompact] holds of every scalar node; of a Sequence exactly when
    all its elements are compact; of a Mapping with no entry; of a Mapping
    with one entry exactly when that entry's value is compact; and of no
    Mapping with two entries or more. *)
Theorem isCompact_cases (n : JsonNode) :
  (is_scalar (getType n) = true -> isCompact n = true)
  /\ (forall v, data n = V_JsonVector v ->
        (isCompact n = true <-> Forall (fun e => isCompact e = true) v))
  /\ (data n = V_JsonMap [] -> isCompact n = true)
  /\ (forall key value, data n = V_JsonMap [(key, value)] ->
        isCompact n = isCompact value)
  /\ (forall m, data n = V_JsonMap m -> 2 <= List.length m ->
        isCompact n = false).
Proof.
  destruct n as [d m f]. unfold getType. cbn [data].
  split; [|split; [|split; [|split]]].
  - destruct d; cbn; congruence.
  - intros v ->. cbn [isCompact data].
    rewrite forallb_forall, Forall_forall. reflexivity.
  - intros ->. reflexivity.
  - intros key value ->. reflexivity.
  - intros mp -> Hlen. destruct mp as [|e1 [|e2 mp]]; cbn in Hlen; try lia.
    cbn [isCompact data]. now destruct e1.
Qed.

(** C8 at a one-entry Mapping with a compact value, at a Mapping with two
    scalar entries, at a scalar and at a Sequence. *)
Lemma isCompact_cases_witness :
  isCompact (mkJsonNode
               (V_JsonMap [("a", mkJsonNode (V_si64 1%Z) EmptyString [])])
               EmptyString []) = true
  /\ isCompact (mkJsonNode
                  (V_JsonMap [("a", mkJsonNode (V_si64 1%Z) EmptyString []);
                              ("b", mkJsonNode (V_bool true) EmptyString [])])
                  EmptyString []) = false
  /\ isCompact (mkJsonNode (V_string "x") EmptyString []) = true
  /\ isCompact (mkJsonNode
                  (V_JsonVector [mkJsonNode (V_si64 1%Z) EmptyString []])
                  EmptyString []) = true
  /\ isCompact (mkJsonNode (V_JsonMap []) EmptyString []) = true.
Proof.
  split; [|split; [|split; [|split]]].
  - destruct (isCompact_cases
                (mkJsonNode
                   (V_JsonMap [("a", mkJsonNode (V_si64 1%Z) EmptyString [])])
                   EmptyString [])) as (_ & _ & _ & H & _).
    rewrite (H "a" (mkJsonNode (V_si64 1%Z) EmptyString []) eq_refl).
    reflexivity.
  - destruct (isCompact_cases
                (mkJsonNode
                   (V_JsonMap [("a", mkJsonNode (V_si64 1%Z) EmptyString []);
                               ("b", mkJsonNode (V_bool true) EmptyString [])])
                   EmptyString [])) as (_ & _ & _ & _ & H).
    apply (H _ eq_refl). cbn. lia.
  - destruct (isCompact_cases (mkJsonNode (V_string "x") EmptyString []))
      as (H & _).
    apply H. reflexivity.
  - destruct (isCompact_cases
                (mkJsonNode
                   (V_JsonVector [mkJsonNode (V_si64 1%Z) EmptyString []])
                   EmptyString [])) as (_ & H & _).
    apply (H _ eq_refl). repeat constructor.
  - destruct (isCompact_cases (mkJsonNode (V_JsonMap []) EmptyString []))
      as (_ & _ & H & _).
    apply H. reflexivity.
Defined.

(** ** Const accessors *)

(** With assertions enabled, an accessor called on a node that is neither
    Null nor of its type stops the program. *)
Lemma String_const_debug_mismatch (n : JsonNode) :
  getType n <> DATA_NULL -> getType n <> DATA_STRING ->
  String_const false n = Throw assertion_failed.
Proof.
  intros Hn Hs. unfold String_const, assert_, type_is.
  apply JsonType_eqb_neq in Hn, Hs. now rewrite Hn, Hs.
Qed.

(** At a node of its own type an accessor returns the payload in either
    build: the functions that call an accessor after a test of the type
    ([isCompact], [TryBoolFromString], [writeNode]) read the payload
    directly in this embedding. *)
Lemma const_accessor_own_type (NDEBUG : bool) (n : JsonNode) :
  (forall b, data n = V_bool b -> Bool_const NDEBUG n = Ok b)
  /\ (forall d, data n = V_double d -> Float_const NDEBUG n = Ok d)
  /\ (forall i, data n = V_si64 i -> Integer_const NDEBUG n = Ok i)
  /\ (forall s, data n = V_string s -> String_const NDEBUG n = Ok s)
  /\ (forall v, data n = V_JsonVector v -> Vector_const NDEBUG n = Ok v)
  /\ (forall m, data n = V_JsonMap m -> Struct_const NDEBUG n = Ok m).
Proof.
  destruct n as [d m f]. cbn [data].
  unfold Bool_const, Float_const, Integer_const, String_const, Vector_const,
    Struct_const, assert_, type_is.
  repeat split; intros ? ->; cbn; now rewrite ?orb_true_r.
Qed.

(** C10: with assertions compiled out, each const accessor returns a value
    at every node.  At a node of its own type it returns the payload.
    [Integer] at a Float node returns the float truncated toward zero, for
    every float that has a truncation in the range of [si64] (the C++
    conversion is undefined for the others); [Float] at an Integer node
    returns the integer widened: a binary64 number that holds the integer
    itself when it has 53 bits or less, and otherwise the integer nearest
    to it that binary64 holds.  At every other node, mismatched non-null
    nodes included, it returns the static default: [false], [0.0], [0],
    the empty string, sequence or mapping.  With assertions enabled the
    same call at a mismatched non-null node stops the program instead. *)
Theorem const_accessors_total (n : JsonNode) :
  ((forall b, data n = V_bool b -> Bool_const true n = Ok b)
   /\ (getType n <> DATA_BOOL -> Bool_const true n = Ok false))
  /\ ((forall d, data n = V_double d -> Float_const true n = Ok d)
      /\ (forall i,
            data n = V_si64 i -> si64_in_range i = true ->
            exists d,
              Float_const true n = Ok d
              /\ widened i d
              /\ ((Z.abs i <= 2 ^ 53)%Z -> double_holds d i)
              /\ (i = 0%Z -> d = S754_zero false))
      /\ (getType n <> DATA_FLOAT -> getType n <> DATA_INTEGER ->
          Float_const true n = Ok (S754_zero false)))
  /\ ((forall i, data n = V_si64 i -> Integer_const true n = Ok i)
      /\ (forall d z,
            data n = V_double d ->
            truncation_of d z -> si64_in_range z = true ->
            Integer_const true n = Ok z)
      /\ (getType n <> DATA_INTEGER -> getType n <> DATA_FLOAT ->
          Integer_const true n = Ok 0%Z))
  /\ ((forall s, data n = V_string s -> String_const true n = Ok s)
      /\ (getType n <> DATA_STRING -> String_const true n = Ok EmptyString))
  /\ ((forall v, data n = V_JsonVector v -> Vector_const true n = Ok v)
      /\ (getType n <> DATA_VECTOR -> Vector_const true n = Ok []))
  /\ ((forall m, data n = V_JsonMap m -> Struct_const true n = Ok m)
      /\ (getType n <> DATA_STRUCT -> Struct_const true n = Ok []))
  /\ (getType n <> DATA_NULL ->
      (getType n <> DATA_BOOL -> Bool_const false n = Throw assertion_failed)
      /\ (getType n <> DATA_FLOAT -> getType n <> DATA_INTEGER ->
          Float_const false n = Throw assertion_failed
          /\ Integer_const false n = Throw assertion_failed)
      /\ (getType n <> DATA_STRING ->
          String_const false n = Throw assertion_failed)
      /\ (getType n <> DATA_VECTOR ->
          Vector_const false n = Throw assertion_failed)
      /\ (getType n <> DATA_STRUCT ->
          Struct_const false n = Throw assertion_failed)).
Proof.
  destruct n as [d m f].
  unfold Bool_const, Float_const, Integer_const, String_const, Vector_const,
    Struct_const, assert_, type_is.
  cbn [orb data getType].
  split; [|split; [|split; [|split; [|split; [|split]]]]].
  - split; [now intros b ->|].
    intros H. destruct d; try reflexivity. now elim H.
  - split; [now intros d0 ->|]. split.
    + intros i -> Hr. exists (double_of_si64 i). split; [reflexivity|].
      split; [now apply double_of_si64_widened|].
      split; [now apply double_of_si64_exact|]. now intros ->.
    + intros Hf Hi. destruct d; try reflexivity; [now elim Hf|now elim Hi].
  - split; [now intros i ->|]. split.
    + intros d0 z -> Hz Hr. f_equal.
      now apply si64_of_double_truncation.
    + intros Hi Hf. destruct d; try reflexivity; [now elim Hf|now elim Hi].
  - split; [now intros s ->|].
    intros H. destruct d; try reflexivity. now elim H.
  - split; [now intros v ->|].
    intros H. destruct d; try reflexivity. now elim H.
  - split; [now intros mp ->|].
    intros H. destruct d; try reflexivity. now elim H.
  - intros Hnull.
    split; [|split; [|split; [|split]]]; intros; destruct d;
      try reflexivity; try (split; reflexivity); exfalso; auto.
Qed.

(** C10 at an Integer node holding 7, read by each accessor, and at a
    Float node holding 3.9 read as an integer. *)
Lemma const_accessors_total_witness :
  Integer_const true (node_of_int 7%Z) = Ok 7%Z
  /\ (exists d, Float_const true (node_of_int 7%Z) = Ok d
                /\ double_holds d 7%Z)
  /\ Bool_const true (node_of_int 7%Z) = Ok false
  /\ String_const true (node_of_int 7%Z) = Ok EmptyString
  /\ Vector_const true (node_of_int 7%Z) = Ok []
  /\ Struct_const true (node_of_int 7%Z) = Ok []
  /\ String_const false (node_of_int 7%Z) = Throw assertion_failed
  /\ Integer_const true (mkJsonNode (V_double float_3_9) EmptyString [])
     = Ok 3%Z
  /\ Float_const true (mkJsonNode (V_string "x") EmptyString [])
     = Ok (S754_zero false).
Proof.
  destruct (const_accessors_total (node_of_int 7%Z))
    as ((_ & Hb) & (_ & Hf & _) & (Hi & _) & (_ & Hs) & (_ & Hv) & (_ & Hm)
        & Hdebug).
  split; [exact (Hi 7%Z eq_refl)|].
  split.
  { destruct (Hf 7%Z eq_refl eq_refl) as (d & Heq & _ & Hex & _).
    exists d. split; [exact Heq|]. apply Hex. lia. }
  split; [apply Hb; discriminate|].
  split; [apply Hs; discriminate|].
  split; [apply Hv; discriminate|].
  split; [apply Hm; discriminate|].
  split.
  { destruct Hdebug as (_ & _ & H & _); [discriminate|].
    apply H. discriminate. }
  split.
  - destruct (const_accessors_total
                (mkJsonNode (V_double float_3_9) EmptyString []))
      as (_ & _ & (_ & H & _) & _).
    apply (H float_3_9 3%Z); try reflexivity.
    cbv [truncation_of float_3_9 truncated_toward_zero].
    change (0 <=? -51)%Z with false. cbv iota. lia.
  - destruct (const_accessors_total
                (mkJsonNode (V_string "x") EmptyString []))
      as (_ & (_ & _ & H) & _).
    apply H; discriminate.
Defined.

(** ** Indexing *)

Lemma map_find_emplace_same (key : string) (x : JsonNode) (m : JsonMap) :
  map_find key m = None -> map_find key (map_emplace key x m) = Some x.
Proof.
  induction m as [|[k v] m IH]; cbn [map_find map_emplace].
  - now rewrite String.eqb_refl.
  - destruct (String.eqb k key) eqn:Hk; [discriminate|]. intros Hm.
    destruct (String.ltb key k); cbn [map_find].
    + now rewrite String.eqb_refl.
    + rewrite Hk. now apply IH.
Qed.

Lemma map_find_emplace_other (key k' : string) (x : JsonNode) (m : JsonMap) :
  k' <> key -> map_find k' (map_emplace key x m) = map_find k' m.
Proof.
  intros Hne. induction m as [|[k v] m IH]; cbn [map_find map_emplace].
  - apply not_eq_sym, String.eqb_neq in Hne. now rewrite Hne.
  - destruct (String.ltb key k); cbn [map_find].
    + apply not_eq_sym, String.eqb_neq in Hne. now rewrite Hne.
    + now rewrite IH.
Qed.

Lemma map_emplace_length (key : string) (x : JsonNode) (m : JsonMap) :
  List.length (map_emplace key x m) = S (List.length m).
Proof.
  induction m as [|[k v] m IH]; cbn [map_emplace]; [reflexivity|].
  destruct (String.ltb key k); cbn [List.length]; congruence.
Qed.

Lemma setType_same (n : JsonNode) (t : JsonType) :
  getType n = t -> setType t n = n.
Proof.
  intros H. unfold setType. apply JsonType_eqb_eq in H. now rewrite H.
Qed.

Lemma resize_grow (v : JsonVector) (n : nat) :
  List.length v <= n ->
  List.length (resize v n) = n
  /\ firstn (List.length v) (resize v n) = v
  /\ forall i, List.length v <= i < n ->
               nth_error (resize v n) i = Some JsonNode_default.
Proof.
  intros Hle. unfold resize. rewrite (firstn_all2 v Hle).
  split; [|split].
  - rewrite length_app, repeat_length. lia.
  - rewrite firstn_app, firstn_all, Nat.sub_diag. cbn. apply app_nil_r.
  - intros i Hi. rewrite nth_error_app2 by lia.
    apply nth_error_repeat. lia.
Qed.

(** C7: reading a Mapping under a key it lacks yields the null sentinel (a
    const read is a function of the node: nothing is inserted); indexing
    it for writing adds the key with a Null value and keeps the other
    entries; reading a Sequence at an index past its end yields the null
    sentinel; indexing it there for writing grows it to [index + 1]
    elements, the new ones Null and the old ones kept (for an index below
    [SIZE_MAX], so that [index + 1] is a size). *)
Theorem indexing_absent_entry (n : JsonNode) :
  (forall NDEBUG m key,
      data n = V_JsonMap m -> map_find key m = None ->
      subscript_key NDEBUG n key = Ok nullNode)
  /\ (forall m key,
        data n = V_JsonMap m -> map_find key m = None ->
        exists m',
          subscript_key_mut n key
          = (set_data n (V_JsonMap m'), JsonNode_default)
          /\ map_find key m' = Some JsonNode_default
          /\ (forall k, k <> key -> map_find k m' = map_find k m)
          /\ List.length m' = S (List.length m))
  /\ (forall NDEBUG v child,
        data n = V_JsonVector v -> (N.of_nat (List.length v) <= child)%N ->
        subscript_index NDEBUG n child = Ok nullNode)
  /\ (forall v child,
        data n = V_JsonVector v -> (N.of_nat (List.length v) <= child)%N ->
        (child < SIZE_MAX)%N ->
        exists v',
          subscript_index_mut n child
          = (set_data n (V_JsonVector v'), Some JsonNode_default)
          /\ List.length v' = N.to_nat child + 1
          /\ firstn (List.length v) v' = v
          /\ (forall i, List.length v <= i <= N.to_nat child ->
                        nth_error v' i = Some JsonNode_default)).
Proof.
  destruct n as [d mt fl]. cbn [data].
  split; [|split; [|split]].
  - intros NDEBUG m key -> Hfind.
    unfold subscript_key, Struct_const, assert_, type_is. cbn.
    rewrite orb_true_r. now rewrite Hfind.
  - intros m key -> Hfind. exists (map_emplace key JsonNode_default m).
    split; [|split; [|split]].
    + unfold subscript_key_mut, Struct_mut. rewrite setType_same by reflexivity.
      cbn [data]. unfold map_subscript. now rewrite Hfind.
    + now apply map_find_emplace_same.
    + intros k Hk. now apply map_find_emplace_other.
    + apply map_emplace_length.
  - intros NDEBUG v child -> Hle.
    unfold subscript_index, Vector_const, assert_, type_is. cbn.
    rewrite orb_true_r. apply N.ltb_ge in Hle. now rewrite Hle.
  - intros v child -> Hle Hmax.
    assert (Hwrap : N.to_nat (size_t_wrap (child + 1)) = N.to_nat child + 1).
    { unfold size_t_wrap. rewrite N.mod_small; [lia|].
      unfold SIZE_MAX in Hmax. lia. }
    assert (Hlen : List.length v <= N.to_nat child + 1) by lia.
    destruct (resize_grow v _ Hlen) as (Hl & Hf & Hnew).
    exists (resize v (N.to_nat child + 1)).
    split; [|split; [|split]].
    + unfold subscript_index_mut, Vector_mut.
      rewrite setType_same by reflexivity. cbn [data].
      rewrite (proj2 (N.leb_le _ _) Hle), Hwrap.
      f_equal. apply Hnew. lia.
    + exact Hl.
    + exact Hf.
    + intros i Hi. apply Hnew. lia.
Qed.

(** At the largest index, [child + 1] wraps around to [0]: the Sequence is
    emptied instead of grown, and the access that follows is outside it. *)
Lemma subscript_index_mut_wraps (n : JsonNode) (v : JsonVector) :
  data n = V_JsonVector v ->
  (N.of_nat (List.length v) <= SIZE_MAX)%N ->
  subscript_index_mut n SIZE_MAX = (set_data n (V_JsonVector []), None).
Proof.
  intros Hd Hle. destruct n as [d mt fl]. cbn [data] in Hd. subst d.
  unfold subscript_index_mut, Vector_mut.
  rewrite setType_same by reflexivity. cbn [data].
  rewrite (proj2 (N.leb_le _ _) Hle).
  change (size_t_wrap (SIZE_MAX + 1)) with 0%N.
  change (N.to_nat 0) with 0. unfold resize.
  cbn [firstn Nat.sub repeat app]. now rewrite nth_error_nil.
Qed.

(** C7 at the Mapping [{"a": 1}] with the key ["b"], and at the Sequence
    [[10]] with the index 2. *)
Lemma indexing_absent_entry_witness :
  subscript_key false
    (mkJsonNode (V_JsonMap [("a", node_of_int 1%Z)]) EmptyString []) "b"
  = Ok nullNode
  /\ (exists m',
        subscript_key_mut
          (mkJsonNode (V_JsonMap [("a", node_of_int 1%Z)]) EmptyString []) "b"
        = (mkJsonNode (V_JsonMap m') EmptyString [], JsonNode_default)
        /\ map_find "b" m' = Some JsonNode_default)
  /\ subscript_index false
       (mkJsonNode (V_JsonVector [node_of_int 10%Z]) EmptyString []) 2%N
     = Ok nullNode
  /\ (exists v',
        subscript_index_mut
          (mkJsonNode (V_JsonVector [node_of_int 10%Z]) EmptyString []) 2%N
        = (mkJsonNode (V_JsonVector v') EmptyString [], Some JsonNode_default)
        /\ List.length v' = 3).
Proof.
  split; [|split; [|split]].
  - destruct (indexing_absent_entry
                (mkJsonNode (V_JsonMap [("a", node_of_int 1%Z)]) EmptyString []))
      as (H & _).
    apply (H false _ "b" eq_refl). reflexivity.
  - destruct (indexing_absent_entry
                (mkJsonNode (V_JsonMap [("a", node_of_int 1%Z)]) EmptyString []))
      as (_ & H & _).
    destruct (H _ "b" eq_refl eq_refl) as (m' & Hm & Hf & _).
    exists m'. split; [exact Hm|exact Hf].
  - destruct (indexing_absent_entry
                (mkJsonNode (V_JsonVector [node_of_int 10%Z]) EmptyString []))
      as (_ & _ & H & _).
    apply (H false _ 2%N eq_refl). cbn. lia.
  - destruct (indexing_absent_entry
                (mkJsonNode (V_JsonVector [node_of_int 10%Z]) EmptyString []))
      as (_ & _ & _ & H).
    destruct (H _ 2%N eq_refl) as (v' & Hv & Hl & _).
    + cbn. lia.
    + reflexivity.
    + exists v'. split; [exact Hv|exact Hl].
Defined.

(** ** Pointer resolution *)

Lemma digit_mem (c : ascii) :
  string_mem c "0123456789"
  = match digit_value c with Some _ => true | None => false end.
Proof. each_ascii c. Qed.

Lemma find_first_not_of_digits (entry : string) :
  (exists i ch, get i entry = Some ch /\ digit_value ch = None) ->
  exists k, find_first_not_of "0123456789" entry = Some k.
Proof.
  induction entry as [|c entry IH]; intros (i & ch & Hget & Hch).
  - destruct i; discriminate.
  - cbn [find_first_not_of]. rewrite digit_mem.
    destruct (digit_value c) eqn:Hc; [|now exists 0].
    destruct i as [|i]; cbn [get] in Hget; [congruence|].
    destruct IH as (k & Hk); [now exists i, ch|].
    rewrite Hk. now exists (S k).
Qed.

Lemma vector_index_invalid (entry : string) :
  (exists i ch, get i entry = Some ch /\ digit_value ch = None)
  \/ (1 < String.length entry /\ get 0 entry = Some "0"%char) ->
  vector_index entry = Throw InvalidPointer.
Proof.
  intros H. unfold vector_index.
  destruct (find_first_not_of "0123456789" entry) eqn:Hf; [reflexivity|].
  destruct H as [H|[Hlen Hzero]].
  - apply find_first_not_of_digits in H as (k & Hk). congruence.
  - apply Nat.ltb_lt in Hlen. now rewrite Hlen, Hzero.
Qed.

(** A segment of decimal digits, not empty, without a leading zero and
    not above [SIZE_MAX], is read as its value. *)
Lemma find_first_not_of_all_digits (entry : string) :
  (forall i ch, get i entry = Some ch -> digit_value ch <> None) ->
  find_first_not_of "0123456789" entry = None.
Proof.
  induction entry as [|c entry IH]; intros Hall; [reflexivity|].
  cbn [find_first_not_of]. rewrite digit_mem.
  destruct (digit_value c) eqn:Hc.
  - rewrite IH; [reflexivity|]. intros i ch Hget. apply (Hall (S i)), Hget.
  - now elim (Hall 0 c eq_refl).
Qed.

Lemma vector_index_parses (entry : string) (n : N) :
  entry <> EmptyString ->
  (forall i ch, get i entry = Some ch -> digit_value ch <> None) ->
  String.length entry = 1 \/ get 0 entry <> Some "0"%char ->
  decimal_value 0 entry = Some n ->
  (n <= SIZE_MAX)%N ->
  vector_index entry = Ok n.
Proof.
  intros Hne Hall Hzero Hval Hmax. unfold vector_index.
  rewrite (find_first_not_of_all_digits _ Hall).
  assert (Hlead : (1 <? String.length entry)%nat &&
                  match get 0 entry with
                  | Some c => Ascii.eqb c "0"
                  | None => false
                  end = false).
  { destruct Hzero as [H|H].
    - rewrite H. reflexivity.
    - destruct (get 0 entry) as [c|]; [|apply andb_false_r].
      destruct (Ascii.eqb_spec c "0"%char) as [->|]; [now elim H|].
      apply andb_false_r. }
  rewrite Hlead. unfold lexical_cast_size_t.
  destruct entry; [now elim Hne|].
  rewrite Hval. apply N.leb_le in Hmax. now rewrite Hmax.
Qed.

Lemma type_is_vector (n : JsonNode) :
  getType n = DATA_VECTOR -> type_is n DATA_VECTOR = true.
Proof. intros H. unfold type_is. now rewrite H. Qed.

(** C9: at a Sequence node, a first segment with a character that is not a
    decimal digit, or one longer than a character that starts with [0],
    makes the resolution fail with [InvalidPointer]; the mutable resolver
    then leaves the node as it was. *)
Theorem resolvePointer_invalid_index (NDEBUG : bool) (in_ : JsonNode)
  (c : ascii) (rest : string) :
  getType in_ = DATA_VECTOR ->
  assert_ NDEBUG (Ascii.eqb c "/") = Ok tt ->
  (exists i ch, get i (pointer_entry (String c rest)) = Some ch
                /\ digit_value ch = None)
  \/ (1 < String.length (pointer_entry (String c rest))
      /\ get 0 (pointer_entry (String c rest)) = Some "0"%char) ->
  resolvePointer NDEBUG in_ (String c rest) = Throw InvalidPointer
  /\ resolvePointer_mut NDEBUG in_ (String c rest)
     = (in_, Throw InvalidPointer).
Proof.
  intros Hvec Hassert Hentry.
  apply vector_index_invalid in Hentry. apply type_is_vector in Hvec.
  rewrite resolvePointer_equation_2, resolvePointer_mut_equation_2.
  cbv zeta. now rewrite Hassert, Hvec, Hentry.
Qed.

(** C9 at the Sequence [[10, 20]] with the pointers [/01] and [/1x]. *)
Lemma resolvePointer_invalid_index_witness :
  resolvePointer false node_10_20 "/01" = Throw InvalidPointer
  /\ resolvePointer_mut false node_10_20 "/1x/a"
     = (node_10_20, Throw InvalidPointer).
Proof.
  split.
  - apply (resolvePointer_invalid_index false node_10_20 "/"%char "01").
    + reflexivity.
    + reflexivity.
    + right. split; [cbn; lia|reflexivity].
  - apply (resolvePointer_invalid_index false node_10_20 "/"%char "1x/a").
    + reflexivity.
    + reflexivity.
    + left. exists 1, "x"%char. split; reflexivity.
Defined.

Lemma subscript_key_not_struct (n : JsonNode) (entry : string) :
  getType n <> DATA_STRUCT -> subscript_key true n entry = Ok nullNode.
Proof.
  intros H. unfold subscript_key, Struct_const, assert_. cbn [orb].
  destruct n as [[] ? ?]; try reflexivity. now elim H.
Qed.

(** Below the null sentinel every pointer resolves to the sentinel. *)
Lemma resolvePointer_null (pointer : string) :
  resolvePointer true nullNode pointer = Ok nullNode.
Proof.
  assert (H : forall k p, String.length p <= k ->
                          resolvePointer true nullNode p = Ok nullNode).
  { induction k as [|k IH]; intros [|c rest] Hlen;
      try (cbn in Hlen; lia); try apply resolvePointer_equation_1.
    rewrite resolvePointer_equation_2. cbv zeta.
    cbn [assert_ orb]. rewrite subscript_key_not_struct by discriminate.
    change (type_is nullNode DATA_VECTOR) with false. cbv iota.
    apply IH. pose proof (pointer_remainer_shorter c rest).
    cbn [String.length] in *. lia. }
  apply (H (String.length pointer)), le_n.
Qed.

(** What the non-const resolver does with an index past the end: the
    node is retyped to a Mapping that holds the segment as its only key,
    and the elements of the Sequence are lost. *)
Lemma resolvePointer_mut_past_end (NDEBUG : bool) (in_ : JsonNode)
  (v : JsonVector) (c : ascii) (rest : string) (index : size_t) :
  data in_ = V_JsonVector v ->
  assert_ NDEBUG (Ascii.eqb c "/") = Ok tt ->
  vector_index (pointer_entry (String c rest)) = Ok index ->
  (N.of_nat (List.length v) <= index)%N ->
  resolvePointer_mut NDEBUG in_ (String c rest)
  = let (child, r) :=
      resolvePointer_mut NDEBUG JsonNode_default
        (pointer_remainer (String c rest)) in
    (set_data in_ (V_JsonMap [(pointer_entry (String c rest), child)]), r).
Proof.
  intros Hd Hassert Hidx Hle. destruct in_ as [d m f]. cbn [data] in Hd.
  subst d. rewrite resolvePointer_mut_equation_2. cbv zeta.
  rewrite Hassert, Hidx. apply N.ltb_ge in Hle.
  change (type_is (mkJsonNode (V_JsonVector v) m f) DATA_VECTOR) with true.
  cbv iota.
  change (Vector_mut (mkJsonNode (V_JsonVector v) m f))
    with (mkJsonNode (V_JsonVector v) m f, v).
  cbv iota beta. rewrite Hle.
  set (entry := pointer_entry (String c rest)).
  change (subscript_key_mut (mkJsonNode (V_JsonVector v) m f) entry)
    with (mkJsonNode (V_JsonMap [(entry, JsonNode_default)]) m f,
          JsonNode_default).
  cbv iota beta.
  destruct (resolvePointer_mut NDEBUG JsonNode_default _) as [child r].
  unfold Struct_mut. rewrite setType_same by reflexivity.
  cbn [snd data map_store set_data meta flags]. now rewrite String.eqb_refl.
Qed.

(** C1, as the code has it.  The empty pointer resolves to the node
    itself, at every node and for both resolvers.  At a Sequence node and a
    first segment that parses as an index, an index within bounds resolves
    the remainder of the pointer in that element.  An index past the end
    does not yield the Sequence: the resolver falls through and indexes the
    node by the segment as a key.  The const resolver then fails the
    assertion of [Struct() const] and, where assertions are compiled out,
    yields the null sentinel whatever the remainder is; the mutable
    resolver retypes the node to a Mapping whose only key is the segment,
    and the elements of the Sequence are lost. *)
Theorem resolvePointer_sequence (NDEBUG : bool) :
  (forall n,
      resolvePointer NDEBUG n EmptyString = Ok n
      /\ resolvePointer_mut NDEBUG n EmptyString = (n, Ok n))
  /\ (forall in_ v c rest idx,
        data in_ = V_JsonVector v ->
        assert_ NDEBUG (Ascii.eqb c "/") = Ok tt ->
        vector_index (pointer_entry (String c rest)) = Ok idx ->
        (forall elem,
            nth_error v (N.to_nat idx) = Some elem ->
            resolvePointer NDEBUG in_ (String c rest)
            = resolvePointer NDEBUG elem (pointer_remainer (String c rest))
            /\ resolvePointer_mut NDEBUG in_ (String c rest)
               = let (elem', r) :=
                   resolvePointer_mut NDEBUG elem
                     (pointer_remainer (String c rest)) in
                 (set_data in_
                    (V_JsonVector (vector_store v (N.to_nat idx) elem')),
                  r))
        /\ ((N.of_nat (List.length v) <= idx)%N ->
            resolvePointer NDEBUG in_ (String c rest)
            = (if NDEBUG then Ok nullNode else Throw assertion_failed)
            /\ resolvePointer NDEBUG in_ (String c rest) <> Ok in_
            /\ resolvePointer_mut NDEBUG in_ (String c rest)
               = (let (child, r) :=
                    resolvePointer_mut NDEBUG JsonNode_default
                      (pointer_remainer (String c rest)) in
                  (set_data in_
                     (V_JsonMap [(pointer_entry (String c rest), child)]),
                   r))
            /\ getType (fst (resolvePointer_mut NDEBUG in_ (String c rest)))
               = DATA_STRUCT)).
Proof.
  split.
  { intros n. split.
    - apply resolvePointer_equation_1.
    - apply resolvePointer_mut_equation_1. }
  intros in_ v c rest idx Hd Hassert Hidx.
  pose proof (resolvePointer_mut_past_end NDEBUG in_ v c rest idx
                Hd Hassert Hidx) as Hmut.
  destruct in_ as [d m f]. cbn [data] in Hd. subst d.
  split.
  - intros elem Helem.
    assert (Hlt : (idx <? N.of_nat (List.length v))%N = true).
    { apply N.ltb_lt.
      assert (N.to_nat idx < List.length v)
        by (apply nth_error_Some; congruence).
      lia. }
    rewrite resolvePointer_equation_2, resolvePointer_mut_equation_2.
    cbv zeta. rewrite Hassert, Hidx.
    change (type_is (mkJsonNode (V_JsonVector v) m f) DATA_VECTOR) with true.
    cbv iota. split.
    + unfold Vector_const, assert_, type_is. cbn [getType data index].
      cbn [JsonType_eqb orb]. rewrite orb_true_r. now rewrite Hlt, Helem.
    + change (Vector_mut (mkJsonNode (V_JsonVector v) m f))
        with (mkJsonNode (V_JsonVector v) m f, v).
      cbv iota beta. now rewrite Hlt, Helem.
  - intros Hle. specialize (Hmut Hle).
    assert (Hconst : resolvePointer NDEBUG (mkJsonNode (V_JsonVector v) m f)
                       (String c rest)
                     = if NDEBUG then Ok nullNode
                       else Throw assertion_failed).
    { apply N.ltb_ge in Hle.
      rewrite resolvePointer_equation_2. cbv zeta. rewrite Hassert, Hidx.
      change (type_is (mkJsonNode (V_JsonVector v) m f) DATA_VECTOR)
        with true.
      cbv iota.
      unfold Vector_const, subscript_key, Struct_const, assert_, type_is.
      cbn [getType data index JsonType_eqb orb].
      rewrite !orb_true_r, !orb_false_r.
      rewrite Hle. destruct NDEBUG; [|reflexivity].
      cbn [map_find mapDefault]. apply resolvePointer_null. }
    split; [exact Hconst|]. split; [|split; [exact Hmut|]].
    + rewrite Hconst. destruct NDEBUG; discriminate.
    + rewrite Hmut.
      now destruct (resolvePointer_mut NDEBUG JsonNode_default _).
Qed.

(** C1 at the Sequence [[10, 20]]: the pointer [/1] reaches the second
    element; the pointer [/5] the null sentinel or a failed assertion, and
    leaves the mutable resolver with the Mapping [{"5": null}]; the empty
    pointer yields the node, also at a node that is not a Sequence. *)
Lemma resolvePointer_sequence_witness :
  resolvePointer true node_10_20 "/1" = Ok (node_of_int 20%Z)
  /\ resolvePointer true node_10_20 "/5" = Ok nullNode
  /\ resolvePointer false node_10_20 "/5" = Throw assertion_failed
  /\ resolvePointer_mut true node_10_20 "/5"
     = (mkJsonNode (V_JsonMap [("5", JsonNode_default)]) EmptyString [],
        Ok JsonNode_default)
  /\ resolvePointer true node_10_20 EmptyString = Ok node_10_20
  /\ resolvePointer true (node_of_int 7%Z) EmptyString
     = Ok (node_of_int 7%Z).
Proof.
  destruct (resolvePointer_sequence true) as (Hempty & Hseq).
  destruct (resolvePointer_sequence false) as (_ & Hseq').
  split; [|split; [|split; [|split; [|split]]]].
  - destruct (Hseq node_10_20 [node_of_int 10%Z; node_of_int 20%Z]
                "/"%char "1" 1%N eq_refl eq_refl eq_refl) as (H & _).
    destruct (H (node_of_int 20%Z) eq_refl) as (Hconst & _).
    rewrite Hconst. reflexivity.
  - destruct (Hseq node_10_20 [node_of_int 10%Z; node_of_int 20%Z]
                "/"%char "5" 5%N eq_refl eq_refl eq_refl) as (_ & H).
    apply H. cbn. lia.
  - destruct (Hseq' node_10_20 [node_of_int 10%Z; node_of_int 20%Z]
                "/"%char "5" 5%N eq_refl eq_refl eq_refl) as (_ & H).
    apply H. cbn. lia.
  - destruct (Hseq node_10_20 [node_of_int 10%Z; node_of_int 20%Z]
                "/"%char "5" 5%N eq_refl eq_refl eq_refl) as (_ & H).
    destruct H as (_ & _ & Hmut & _); [cbn; lia|].
    rewrite Hmut. reflexivity.
  - apply Hempty.
  - apply Hempty.
Defined.

(** The pointers of the specification's scenario on [{"a": [10, 20]}], and
    two segments that the cast to an index refuses. *)
Lemma resolvePointer_scenario :
  resolvePointer false doc_a_10_20 "/a/0" = Ok (node_of_int 10%Z)
  /\ resolvePointer false doc_a_10_20 EmptyString = Ok doc_a_10_20
  /\ resolvePointer false doc_a_10_20 "/a/01" = Throw InvalidPointer
  /\ resolvePointer true doc_a_10_20 "/a/5" = Ok nullNode
  /\ resolvePointer false doc_a_10_20 "/a/5" = Throw assertion_failed
  /\ resolvePointer true doc_a_10_20 "/a/" = Throw bad_lexical_cast
  /\ resolvePointer true doc_a_10_20 "/a/18446744073709551616"
     = Throw bad_lexical_cast.
Proof. repeat split; reflexivity. Qed.

(** On [{"a": [10, 20]}] the pointer [/a/5], and on [[10, 20]] the
    pointer [/5], do not resolve to the Sequence. *)
Lemma resolvePointer_past_end_at_10_20 :
  getType node_10_20 = DATA_VECTOR
  /\ vector_index (pointer_entry "/5") = Ok 5%N
  /\ resolvePointer true node_10_20 "/5" = Ok nullNode
  /\ resolvePointer true node_10_20 "/5" <> Ok node_10_20
  /\ resolvePointer false node_10_20 "/5" <> Ok node_10_20
  /\ resolvePointer true doc_a_10_20 "/a/5" <> Ok node_10_20
  /\ resolvePointer_mut true node_10_20 "/5"
     = (mkJsonNode (V_JsonMap [("5", JsonNode_default)]) EmptyString [],
        Ok JsonNode_default).
Proof.
  repeat split; try reflexivity; vm_compute; discriminate.
Qed.

(** ** The writer *)

Lemma set_compactMode_twice (a b : bool) (w : JsonWriter) :
  set_compactMode a (set_compactMode b w) = set_compactMode a w.
Proof. reflexivity. Qed.

(** C2, as the code has it: when the caller asked for [compact] output,
    [compactMode] is not active and the node is compact, [writeNode]
    renders the node as it does with [compactMode] active and restores the
    flag afterwards: the subtree is written on one line and the settings of
    the writer are as before. *)
Theorem writeNode_activates_compactMode (show_double : double -> string)
  (node : JsonNode) (w : JsonWriter) :
  (forall d, single_line (show_double d) = true) ->
  compact w = true -> compactMode w = false -> isCompact node = true ->
  writeNode show_double node w
  = set_compactMode false (writeNode show_double node (set_compactMode true w))
  /\ (exists text, out (writeNode show_double node w) = out w ++ text
                   /\ single_line text = true)
  /\ same_settings w (writeNode show_double node w).
Proof.
  intros Hshow Hc Hm Hnode.
  assert (Heq : writeNode show_double node w
                = set_compactMode false
                    (writeNode show_double node (set_compactMode true w))).
  { destruct node as [d m f].
    cbn [writeNode]. cbn [set_compactMode compact compactMode].
    rewrite Hc, Hm, Hnode. cbn [negb andb].
    now rewrite set_compactMode_twice. }
  split; [exact Heq|].
  destruct (writeNode_line show_double Hshow node (set_compactMode true w)
              eq_refl) as [(text & Hout & Hline) (Hp & Hco & _)].
  rewrite Heq. split.
  - exists text. split; [exact Hout|exact Hline].
  - repeat split; cbn [set_compactMode prefix compact compactMode];
      [exact Hp|exact Hco|now rewrite Hm].
Qed.

(** C2 at the Sequence [[10, 20]] and a writer asked for compact output. *)
Lemma writeNode_activates_compactMode_witness :
  out (writeNode show_double_fixed node_10_20 (JsonWriter_new true))
  = "[ 10, 20 ]"
  /\ compactMode (writeNode show_double_fixed node_10_20 (JsonWriter_new true))
     = false.
Proof.
  destruct (writeNode_activates_compactMode show_double_fixed node_10_20
              (JsonWriter_new true) (fun _ => eq_refl) eq_refl eq_refl eq_refl)
    as (Heq & _ & _).
  rewrite Heq. split; reflexivity.
Defined.

(** C2 as stated fails: with [compact] false the writer does not activate
    [compactMode] for a compact node, which is written over several
    lines. *)
Lemma writeNode_pretty_counterexample :
  compact (JsonWriter_new false) = false
  /\ compactMode (JsonWriter_new false) = false
  /\ isCompact node_10_20 = true
  /\ writeNode show_double_fixed node_10_20 (JsonWriter_new false)
     <> set_compactMode false
          (writeNode show_double_fixed node_10_20
             (set_compactMode true (JsonWriter_new false)))
  /\ single_line
       (out (writeNode show_double_fixed node_10_20 (JsonWriter_new false)))
     = false
  /\ out (writeNode show_double_fixed node_10_20 (JsonWriter_new false))
     = "[" ++ newline ++ char tab ++ "10," ++ newline ++ char tab ++ "20"
       ++ newline ++ "]".
Proof.
  repeat split; try reflexivity. vm_compute. discriminate.
Qed.

(** C3, as the code has it: [toJson(true)] writes the two-entry mapping,
    which is not compact, one entry per line behind a tab, and each of its
    compact values on a single line.  So it is for every Mapping with two
    entries or more: the text starts with the brace on a line of its own. *)
Theorem toJson_compact_node_ann (show_double : double -> string) :
  toJson show_double true node_ann = node_ann_compact
  /\ (forall m mt fl,
        2 <= List.length m ->
        exists rest, toJson show_double true (mkJsonNode (V_JsonMap m) mt fl)
                     = "{" ++ newline ++ rest).
Proof.
  split; [reflexivity|].
  intros m mt fl Hlen. unfold toJson.
  destruct (writeNode_container_pretty show_double
              (mkJsonNode (V_JsonMap m) mt fl) (JsonWriter_new true) eq_refl)
    as [_ H].
  - right. destruct m as [|e1 [|e2 m]]; cbn in Hlen; try lia.
    cbn [isCompact data]. now destruct e1.
  - destruct (H m eq_refl) as (rest & Hrest). exists rest. exact Hrest.
Qed.

(** C3 at the node of the scenario. *)
Lemma toJson_compact_node_ann_witness :
  exists rest, toJson show_double_fixed true node_ann = "{" ++ newline ++ rest.
Proof.
  destruct (toJson_compact_node_ann show_double_fixed) as [_ H].
  apply H. cbn. lia.
Defined.

(** C3 as stated fails: the text [toJson(true)] produces is not the
    single line of the scenario. *)
Lemma toJson_compact_node_ann_counterexample :
  toJson show_double_fixed true node_ann <> node_ann_one_line.
Proof. vm_compute. discriminate. Qed.

(** * Further properties *)

(** ** Retyping and the mutable accessors *)

Lemma getType_setType (t : JsonType) (n : JsonNode) : getType (setType t n) = t.
Proof.
  unfold setType. destruct (JsonType_eqb (getType n) t) eqn:H.
  - now apply JsonType_eqb_eq.
  - destruct n as [[] ? ?], t; reflexivity.
Qed.

(** X1: after [setType t] the node has the type [t], whatever it held;
    retyping a second time to the same type changes nothing more, and a
    node constructed with a type holds that type's default payload. *)
Theorem setType_reaches_type (t : JsonType) (n : JsonNode) :
  getType (setType t n) = t
  /\ setType t (setType t n) = setType t n
  /\ data (JsonNode_new t) = default_payload t.
Proof.
  split; [apply getType_setType|]. split.
  - apply setType_same, getType_setType.
  - destruct t; reflexivity.
Qed.

(** X2: each mutable accessor leaves the node with the accessor's type
    and returns the payload the node then holds: the const accessor of the
    same name reads the same value from the node afterwards, with
    assertions on or off. *)
Theorem mutable_accessors_coerce (NDEBUG : bool) (n : JsonNode) :
  (getType (fst (Bool_mut n)) = DATA_BOOL
   /\ Bool_const NDEBUG (fst (Bool_mut n)) = Ok (snd (Bool_mut n)))
  /\ (getType (fst (Float_mut n)) = DATA_FLOAT
      /\ Float_const NDEBUG (fst (Float_mut n)) = Ok (snd (Float_mut n)))
  /\ (getType (fst (Integer_mut n)) = DATA_INTEGER
      /\ Integer_const NDEBUG (fst (Integer_mut n)) = Ok (snd (Integer_mut n)))
  /\ (getType (fst (String_mut n)) = DATA_STRING
      /\ String_const NDEBUG (fst (String_mut n)) = Ok (snd (String_mut n)))
  /\ (getType (fst (Vector_mut n)) = DATA_VECTOR
      /\ Vector_const NDEBUG (fst (Vector_mut n)) = Ok (snd (Vector_mut n)))
  /\ (getType (fst (Struct_mut n)) = DATA_STRUCT
      /\ Struct_const NDEBUG (fst (Struct_mut n)) = Ok (snd (Struct_mut n))).
Proof.
  unfold Bool_mut, Float_mut, Integer_mut, String_mut, Vector_mut, Struct_mut.
  cbn [fst snd].
  repeat split; try apply getType_setType.
  - pose proof (getType_setType DATA_BOOL n) as H.
    destruct (setType DATA_BOOL n) as [[] ? ?]; try discriminate H.
    unfold Bool_const, assert_, type_is. cbn. now rewrite orb_true_r.
  - pose proof (getType_setType DATA_FLOAT n) as H.
    destruct (setType DATA_FLOAT n) as [[] ? ?]; try discriminate H.
    unfold Float_const, assert_, type_is. cbn. now rewrite orb_true_r.
  - pose proof (getType_setType DATA_INTEGER n) as H.
    destruct (setType DATA_INTEGER n) as [[] ? ?]; try discriminate H.
    unfold Integer_const, assert_, type_is. cbn. now rewrite orb_true_r.
  - pose proof (getType_setType DATA_STRING n) as H.
    destruct (setType DATA_STRING n) as [[] ? ?]; try discriminate H.
    unfold String_const, assert_, type_is. cbn. now rewrite orb_true_r.
  - pose proof (getType_setType DATA_VECTOR n) as H.
    destruct (setType DATA_VECTOR n) as [[] ? ?]; try discriminate H.
    unfold Vector_const, assert_, type_is. cbn. now rewrite orb_true_r.
  - pose proof (getType_setType DATA_STRUCT n) as H.
    destruct (setType DATA_STRUCT n) as [[] ? ?]; try discriminate H.
    unfold Struct_const, assert_, type_is. cbn. now rewrite orb_true_r.
Qed.

(** ** Equality *)

Lemma compare_cont_swap (m1 m2 : positive) :
  PosDef.Pos.compare_cont Eq m2 m1
  = CompOpp (PosDef.Pos.compare_cont Eq m1 m2).
Proof. symmetry. apply (Pos.compare_cont_antisym m1 m2 Eq). Qed.

Lemma SFeqb_sym (x y : double) : SFeqb x y = SFeqb y x.
Proof.
  unfold SFeqb, SFcompare.
  destruct x as [[]|[]| |[] m1 e1], y as [[]|[]| |[] m2 e2]; try reflexivity;
    rewrite (Z.compare_antisym e2 e1); destruct (e2 ?= e1)%Z;
    cbn [CompOpp]; try reflexivity;
    rewrite (compare_cont_swap m1 m2);
    now destruct (PosDef.Pos.compare_cont Eq m1 m2).
Qed.

Lemma SFeqb_refl (x : double) : x <> S754_nan -> SFeqb x x = true.
Proof.
  unfold SFeqb, SFcompare. intros Hx.
  destruct x as [[]|[]| |[] m e]; try reflexivity; try (now elim Hx);
    now rewrite Z.compare_refl, Pos.compare_cont_refl.
Qed.

Lemma container_eqb_swap {A B : Type} (f : A -> B -> bool) (g : B -> A -> bool)
  (l : list A) :
  Forall (fun x => forall y, f x y = g y x) l ->
  forall l', container_eqb f l l' = container_eqb g l' l.
Proof.
  induction 1 as [|x l Hx _ IH]; intros [|y l']; cbn [container_eqb];
    try reflexivity.
  now rewrite Hx, IH.
Qed.

Lemma container_eqb_ext {A B : Type} (f g : A -> B -> bool) (l : list A) :
  Forall (fun x => forall y, f x y = g x y) l ->
  forall l', container_eqb f l l' = container_eqb g l l'.
Proof.
  induction 1 as [|x l Hx _ IH]; intros [|y l']; cbn [container_eqb];
    try reflexivity.
  now rewrite Hx, IH.
Qed.

Lemma container_eqb_refl {A : Type} (f : A -> A -> bool) (l : list A) :
  Forall (fun x => f x x = true) l -> container_eqb f l l = true.
Proof.
  induction 1 as [|x l Hx _ IH]; cbn [container_eqb]; [reflexivity|].
  now rewrite Hx, IH.
Qed.

Lemma operator_eq_swap (a b : JsonNode) : operator_eq a b = operator_eq b a.
Proof.
  revert b.
  induction a as [d m f Hd|v m f IH|mp m f IH] using JsonNode_tree_ind;
    intros [d' m' f'].
  - destruct d, d'; try contradiction; cbn; try reflexivity.
    + now destruct b, b0.
    + apply SFeqb_sym.
    + apply String.eqb_sym.
    + apply Z.eqb_sym.
  - destruct d'; try reflexivity. cbn [operator_eq data].
    now apply container_eqb_swap.
  - destruct d'; try reflexivity. cbn [operator_eq data].
    apply container_eqb_swap.
    eapply Forall_impl; [|exact IH].
    intros e He e'. cbn beta. now rewrite He, String.eqb_sym.
Qed.

Lemma operator_eq_same (n : JsonNode) :
  no_nan n = true -> operator_eq n n = true.
Proof.
  induction n as [d m f Hd|v m f IH|mp m f IH] using JsonNode_tree_ind;
    cbn [no_nan operator_eq data]; intros Hn.
  - destruct d; try contradiction; try reflexivity.
    + now destruct b.
    + apply SFeqb_refl. now destruct d.
    + apply String.eqb_refl.
    + apply Z.eqb_refl.
  - apply container_eqb_refl. rewrite forallb_forall in Hn.
    rewrite Forall_forall in *. auto.
  - apply container_eqb_refl. rewrite forallb_forall in Hn.
    rewrite Forall_forall in *. intros e He.
    rewrite String.eqb_refl. apply IH; auto.
Qed.

(** X3: [operator==] and [operator!=] are symmetric, and each is the
    negation of the other. *)
Theorem operator_eq_symmetric (a b : JsonNode) :
  operator_eq a b = operator_eq b a
  /\ operator_ne a b = operator_ne b a
  /\ operator_ne a b = negb (operator_eq b a).
Proof.
  unfold operator_ne. rewrite (operator_eq_swap a b).
  split; [reflexivity|]. split; reflexivity.
Qed.

(** X4: a node without a NaN equals itself; a Float node holding a NaN
    differs from itself. *)
Theorem operator_eq_reflexive (n : JsonNode) :
  (no_nan n = true -> operator_eq n n = true)
  /\ (data n = V_double S754_nan ->
      operator_eq n n = false /\ operator_ne n n = true).
Proof.
  split.
  - apply operator_eq_same.
  - destruct n as [d m f]. cbn [data]. intros ->. split; reflexivity.
Qed.

(** X4 at the Sequence [[10, 20]] and at a NaN. *)
Lemma operator_eq_reflexive_witness :
  operator_eq node_10_20 node_10_20 = true
  /\ operator_eq (mkJsonNode (V_double S754_nan) EmptyString [])
       (mkJsonNode (V_double S754_nan) EmptyString []) = false.
Proof.
  split.
  - destruct (operator_eq_reflexive node_10_20) as (H & _).
    apply H. reflexivity.
  - destruct (operator_eq_reflexive
                (mkJsonNode (V_double S754_nan) EmptyString []))
      as (_ & H).
    apply (H eq_refl).
Defined.

Lemma container_eqb_map_l {A A' B : Type} (f : A' -> B -> bool)
  (f0 : A -> B -> bool) (g : A -> A') (l : list A) :
  Forall (fun x => forall y, f (g x) y = f0 x y) l ->
  forall l', container_eqb f (map g l) l' = container_eqb f0 l l'.
Proof.
  induction 1 as [|x l Hx _ IH]; intros [|y l']; cbn [container_eqb map];
    try reflexivity.
  now rewrite Hx, IH.
Qed.

Lemma operator_eq_setMeta_l (rd : bool) (a : JsonNode) :
  forall metadata recursive b,
    operator_eq (setMeta rd metadata recursive a) b = operator_eq a b.
Proof.
  induction a as [d m f Hd|v m f IH|mp m f IH] using JsonNode_tree_ind;
    intros metadata recursive b; destruct recursive; cbn [setMeta data];
    try reflexivity.
  - destruct d; try contradiction; reflexivity.
  - cbn [operator_eq set_data data]. destruct (data b); try reflexivity.
    apply container_eqb_map_l. eapply Forall_impl; [|exact IH].
    intros x Hx y. apply Hx.
  - cbn [operator_eq set_data data]. destruct (data b); try reflexivity.
    apply container_eqb_map_l. eapply Forall_impl; [|exact IH].
    intros x Hx y. cbn [fst snd]. now rewrite Hx.
Qed.

(** X5: [operator==] does not see metadata: stamping either operand with
    [setMeta], recursively or not, leaves the result of the comparison as
    it was, and a node without a NaN equals its stamped copy. *)
Theorem operator_eq_ignores_meta (recursive_default : bool) (a b : JsonNode)
  (metadata : string) (recursive : bool) :
  operator_eq (setMeta recursive_default metadata recursive a) b
  = operator_eq a b
  /\ operator_eq a (setMeta recursive_default metadata recursive b)
     = operator_eq a b
  /\ (no_nan a = true ->
      operator_eq a (setMeta recursive_default metadata recursive a) = true).
Proof.
  assert (Hr : operator_eq a (setMeta recursive_default metadata recursive b)
               = operator_eq a b).
  { rewrite operator_eq_swap, operator_eq_setMeta_l.
    apply operator_eq_swap. }
  split; [apply operator_eq_setMeta_l|]. split; [exact Hr|].
  intros Hn. rewrite operator_eq_swap, operator_eq_setMeta_l.
  now apply operator_eq_same.
Qed.

(** X5 at the Mapping [{"a": [10, 20]}] stamped with a file name. *)
Lemma operator_eq_ignores_meta_witness :
  operator_eq doc_a_10_20 (setMeta true "mod.json" true doc_a_10_20) = true
  /\ setMeta true "mod.json" true doc_a_10_20 <> doc_a_10_20.
Proof.
  split.
  - destruct (operator_eq_ignores_meta true doc_a_10_20 doc_a_10_20
                "mod.json" true) as (_ & _ & H).
    apply H. reflexivity.
  - discriminate.
Defined.

Lemma container_eqb_forallb {A : Type} (f : A -> A -> bool) (P : A -> bool)
  (l : list A) :
  Forall (fun x => forall y, f x y = true -> P x = P y) l ->
  forall l', container_eqb f l l' = true -> forallb P l = forallb P l'.
Proof.
  induction 1 as [|x l Hx _ IH]; intros [|y l']; cbn [container_eqb forallb];
    try reflexivity; try discriminate.
  intros H. apply andb_prop in H as [Hxy Hl]. now rewrite (Hx y Hxy), (IH l').
Qed.

Lemma container_eqb_existsb {A : Type} (f : A -> A -> bool) (P : A -> bool)
  (l : list A) :
  Forall (fun x => forall y, f x y = true -> P x = P y) l ->
  forall l', container_eqb f l l' = true -> existsb P l = existsb P l'.
Proof.
  induction 1 as [|x l Hx _ IH]; intros [|y l']; cbn [container_eqb existsb];
    try reflexivity; try discriminate.
  intros H. apply andb_prop in H as [Hxy Hl]. now rewrite (Hx y Hxy), (IH l').
Qed.

(** X6: two nodes that [operator==] finds equal have the same type and
    agree on [isCompact] and on [containsBaseData]. *)
Theorem operator_eq_respects_predicates (a b : JsonNode) :
  operator_eq a b = true ->
  getType a = getType b
  /\ isCompact a = isCompact b
  /\ containsBaseData a = containsBaseData b.
Proof.
  revert b.
  induction a as [d m f Hd|v m f IH|mp m f IH] using JsonNode_tree_ind;
    intros [d' m' f'] Heq.
  - destruct d, d'; try contradiction; try discriminate Heq;
      repeat split; reflexivity.
  - destruct d'; try discriminate Heq. cbn [operator_eq data] in Heq.
    split; [reflexivity|]. split; [|reflexivity].
    cbn [isCompact data]. revert Heq. apply container_eqb_forallb.
    eapply Forall_impl; [|exact IH]. intros x Hx y Hxy. now apply Hx.
  - destruct d'; try discriminate Heq. cbn [operator_eq data] in Heq.
    split; [reflexivity|]. split.
    + cbn [isCompact data].
      destruct mp as [|[k1 v1] [|e2 mp]], m0 as [|[k1' v1'] [|e2' m0]];
        cbn [container_eqb] in Heq; try reflexivity; try discriminate Heq;
        try (rewrite ?andb_false_r in Heq; discriminate Heq).
      inversion IH as [|? ? H1 _]; subst. cbn [fst snd] in *.
      apply andb_prop in Heq as [Heq _]. apply andb_prop in Heq as [_ Heq].
      now apply H1.
    + cbn [containsBaseData data]. revert Heq. apply container_eqb_existsb.
      eapply Forall_impl; [|exact IH]. intros x Hx y Hxy.
      apply andb_prop in Hxy as [_ Hxy]. now apply Hx.
Qed.

(** X6 at two copies of [[10, 20]] with different metadata. *)
Lemma operator_eq_respects_predicates_witness :
  isCompact (set_meta node_10_20 "a.json") = isCompact node_10_20.
Proof.
  apply (operator_eq_respects_predicates (set_meta node_10_20 "a.json")
           node_10_20).
  reflexivity.
Defined.

(** ** Metadata *)

Lemma erase_meta_setMeta (rd : bool) (n : JsonNode) :
  forall metadata recursive,
    erase_meta (setMeta rd metadata recursive n) = erase_meta n.
Proof.
  unfold erase_meta.
  induction n as [d m fl Hd|v m fl IH|mp m fl IH] using JsonNode_tree_ind;
    intros metadata recursive; destruct recursive; cbn [setMeta data];
    try reflexivity.
  - destruct d; try contradiction; reflexivity.
  - cbn [with_comments set_data set_meta data meta flags]. f_equal. f_equal.
    rewrite map_map. apply map_ext_Forall.
    eapply Forall_impl; [|exact IH]. intros x Hx. apply Hx.
  - cbn [with_comments set_data set_meta data meta flags]. f_equal. f_equal.
    rewrite map_map. apply map_ext_Forall.
    eapply Forall_impl; [|exact IH]. intros x Hx. cbn [fst snd]. now rewrite Hx.
Qed.

Lemma setMeta_deep (n : JsonNode) (metadata : string) :
  setMeta true metadata true n = stamp metadata n.
Proof.
  unfold stamp.
  induction n as [d m fl Hd|v m fl IH|mp m fl IH] using JsonNode_tree_ind;
    cbn [setMeta with_comments data meta flags]; unfold set_data, set_meta;
    cbn [data meta flags].
  - destruct d; try contradiction; reflexivity.
  - f_equal. f_equal. apply map_ext_Forall. exact IH.
  - f_equal. f_equal. apply map_ext_Forall.
    eapply Forall_impl; [|exact IH]. intros e He. cbn beta. now rewrite He.
Qed.

(** X7: [setMeta] changes metadata and nothing else: the node gets the
    new metadata, its flags stay, and with the metadata erased the tree is
    the one before.  Without [recursive] the payload is untouched; when the
    calls on the children recurse as well, every node of the tree gets the
    metadata. *)
Theorem setMeta_only_metadata (recursive_default : bool) (n : JsonNode)
  (metadata : string) (recursive : bool) :
  meta (setMeta recursive_default metadata recursive n) = metadata
  /\ flags (setMeta recursive_default metadata recursive n) = flags n
  /\ erase_meta (setMeta recursive_default metadata recursive n) = erase_meta n
  /\ getType (setMeta recursive_default metadata recursive n) = getType n
  /\ data (setMeta recursive_default metadata false n) = data n
  /\ setMeta true metadata true n = stamp metadata n
  /\ (forall child,
        child_of child (setMeta recursive_default metadata true n) ->
        meta child = metadata).
Proof.
  assert (Hmeta : forall r x, meta (setMeta recursive_default metadata r x)
                              = metadata).
  { intros r [d m fl]; destruct r, d; reflexivity. }
  split; [|split; [|split; [|split; [|split; [|split]]]]];
    [| | | | | |
     destruct n as [d m fl]; intros child; unfold child_of;
     destruct d; cbn [setMeta data set_data set_meta]; try contradiction;
     [ intros H; apply in_map_iff in H as (x & <- & _); apply Hmeta
     | intros (key & H); apply in_map_iff in H as (x & [= _ <-] & _);
       apply Hmeta ] ].
  - destruct n as [d m fl]; destruct recursive, d; reflexivity.
  - destruct n as [d m fl]; destruct recursive, d; reflexivity.
  - apply erase_meta_setMeta.
  - destruct n as [d m fl]; destruct recursive, d; reflexivity.
  - destruct n as [d m fl]. reflexivity.
  - apply setMeta_deep.
Qed.

(** X7 at the Mapping [{"a": [10, 20]}]: its value gets the metadata. *)
Lemma setMeta_only_metadata_witness :
  meta (setMeta false "mod.json" false node_10_20) = "mod.json".
Proof.
  destruct (setMeta_only_metadata false doc_a_10_20 "mod.json" true)
    as (_ & _ & _ & _ & _ & _ & H).
  apply H. exists "a". left. reflexivity.
Defined.

(** ** Structural predicates over the whole tree *)

Lemma isCompact_child (n child : JsonNode) :
  isCompact n = true -> child_of child n -> isCompact child = true.
Proof.
  destruct n as [d m fl]. unfold child_of. cbn [isCompact data].
  destruct d; try contradiction.
  - intros H Hin. rewrite forallb_forall in H. now apply H.
  - destruct m0 as [|[k v0] [|e2 m0]]; intros H (key & Hin);
      try discriminate H; cbn [In] in Hin; try contradiction.
    destruct Hin as [[= _ <-]|[]]. exact H.
Qed.

(** X8: [isCompact] holds of a node exactly when no Mapping of its tree,
    at any depth, has two entries or more. *)
Theorem isCompact_no_wide_mapping (n : JsonNode) :
  isCompact n = true
  <-> (forall r m, subnode r n -> data r = V_JsonMap m -> List.length m <= 1).
Proof.
  split.
  - intros Hn r m Hsub. revert Hn.
    induction Hsub as [|n child Hchild _ IH]; intros Hn Hd.
    + destruct r as [d mt fl]. cbn [data] in Hd. subst d.
      cbn [isCompact data] in Hn.
      destruct m as [|e1 [|e2 m]]; cbn [List.length]; try lia.
      destruct e1. discriminate Hn.
    + apply IH; [|exact Hd]. eapply isCompact_child; eassumption.
  - induction n as [d m fl Hd|v m fl IH|mp m fl IH] using JsonNode_tree_ind;
      intros Hall; cbn [isCompact data].
    + destruct d; try contradiction; reflexivity.
    + apply forallb_forall. intros x Hx.
      rewrite Forall_forall in IH. apply (IH x Hx).
      intros r m0 Hsub. apply Hall.
      eapply subnode_below; [|exact Hsub]. exact Hx.
    + pose proof (Hall _ mp (subnode_here _) eq_refl) as Hlen.
      destruct mp as [|[k v] [|e2 mp]]; cbn [List.length] in Hlen; try lia;
        try reflexivity.
      inversion IH as [|? ? Hv _]; subst. apply Hv.
      intros r m0 Hsub. apply Hall.
      eapply subnode_below; [|exact Hsub]. exists k. now left.
Qed.

Lemma containsBaseData_child (n child : JsonNode) :
  containsBaseData n = false -> child_of child n ->
  containsBaseData child = false.
Proof.
  destruct n as [d m fl]. unfold child_of. cbn [containsBaseData data].
  destruct d; try contradiction; try discriminate.
  intros H (key & Hin).
  destruct (containsBaseData child) eqn:Hc; [|reflexivity].
  assert (Hex : existsb (fun elem => containsBaseData (snd elem)) m0 = true).
  { apply existsb_exists. now exists (key, child). }
  congruence.
Qed.

(** X9: [containsBaseData] fails exactly on the trees made of Null nodes
    and Mappings only: one node of another type anywhere below Mappings
    (a Sequence, even when empty, counts) makes it hold. *)
Theorem containsBaseData_false_iff (n : JsonNode) :
  containsBaseData n = false
  <-> (forall r, subnode r n ->
                 getType r = DATA_NULL \/ getType r = DATA_STRUCT).
Proof.
  split.
  - intros Hn r Hsub. revert Hn.
    induction Hsub as [|n child Hchild _ IH]; intros Hn.
    + destruct r as [[] ? ?]; cbn in *; auto; discriminate Hn.
    + apply IH. eapply containsBaseData_child; eassumption.
  - induction n as [d m fl Hd|v m fl IH|mp m fl IH] using JsonNode_tree_ind;
      intros Hall.
    + destruct (Hall _ (subnode_here _)) as [H|H];
        destruct d; try contradiction; try discriminate H. reflexivity.
    + destruct (Hall _ (subnode_here _)) as [H|H]; discriminate H.
    + cbn [containsBaseData data].
      destruct (existsb _ mp) eqn:Hex; [|reflexivity].
      apply existsb_exists in Hex as ([k v] & Hin & Hv).
      rewrite Forall_forall in IH. cbn [snd] in Hv.
      assert (Hf : containsBaseData v = false); [|congruence].
      apply (IH (k, v) Hin).
      intros r Hsub. apply Hall.
      eapply subnode_below; [|exact Hsub]. now exists k.
Qed.

(** X8 at the Sequence [[10, 20]]. *)
Lemma isCompact_no_wide_mapping_witness :
  isCompact node_10_20 = true
  /\ (forall r m, subnode r node_10_20 -> data r = V_JsonMap m ->
                  List.length m <= 1).
Proof.
  split; [reflexivity|].
  apply (proj1 (isCompact_no_wide_mapping node_10_20)). reflexivity.
Defined.

(** X9 at the Null node. *)
Lemma containsBaseData_false_iff_witness :
  containsBaseData nullNode = false
  /\ (forall r, subnode r nullNode ->
                getType r = DATA_NULL \/ getType r = DATA_STRUCT).
Proof.
  split; [reflexivity|].
  apply (proj1 (containsBaseData_false_iff nullNode)). reflexivity.
Defined.

(** ** Reading back what indexing wrote *)

Lemma setType_keeps_comments (t : JsonType) (n : JsonNode) :
  meta (setType t n) = meta n /\ flags (setType t n) = flags n.
Proof.
  unfold setType. destruct (JsonType_eqb _ _); [now split|].
  destruct n as [[] ? ?], t; now split.
Qed.

Lemma set_data_same (n : JsonNode) : set_data n (data n) = n.
Proof. now destruct n. Qed.

Lemma Struct_const_struct (NDEBUG : bool) (n : JsonNode) (m : JsonMap) :
  data n = V_JsonMap m -> Struct_const NDEBUG n = Ok m.
Proof. intros H. now apply (const_accessor_own_type NDEBUG n). Qed.

Lemma Vector_const_vector (NDEBUG : bool) (n : JsonNode) (v : JsonVector) :
  data n = V_JsonVector v -> Vector_const NDEBUG n = Ok v.
Proof. intros H. now apply (const_accessor_own_type NDEBUG n). Qed.

(** X10: what indexing by a key for writing returns is what indexing by
    the same key for reading then finds, on every node and in either
    build; the node is a Mapping afterwards, with its metadata and flags
    as before. *)
Theorem subscript_key_read_back (NDEBUG : bool) (n : JsonNode) (key : string) :
  subscript_key NDEBUG (fst (subscript_key_mut n key)) key
  = Ok (snd (subscript_key_mut n key))
  /\ getType (fst (subscript_key_mut n key)) = DATA_STRUCT
  /\ meta (fst (subscript_key_mut n key)) = meta n
  /\ flags (fst (subscript_key_mut n key)) = flags n.
Proof.
  unfold subscript_key_mut, Struct_mut, map_subscript.
  destruct (setType_keeps_comments DATA_STRUCT n) as [Hm Hf].
  set (n1 := setType DATA_STRUCT n) in *.
  set (m0 := match data n1 with V_JsonMap m => m | _ => [] end).
  destruct (map_find key m0) as [v|] eqn:Hfind; cbn [fst snd].
  - split; [|now split].
    unfold subscript_key.
    rewrite (Struct_const_struct NDEBUG (set_data n1 (V_JsonMap m0)) m0 eq_refl).
    now rewrite Hfind.
  - split; [|now split].
    unfold subscript_key.
    rewrite (Struct_const_struct NDEBUG
               (set_data n1 (V_JsonMap (map_emplace key JsonNode_default m0)))
               _ eq_refl).
    now rewrite (map_find_emplace_same _ _ _ Hfind).
Qed.

(** X11: indexing for writing an entry that exists changes nothing and
    returns the entry that indexing for reading returns: a key the Mapping
    has, an index within the Sequence. *)
Theorem subscript_mut_existing (NDEBUG : bool) (n : JsonNode) :
  (forall m key x,
      data n = V_JsonMap m -> map_find key m = Some x ->
      subscript_key_mut n key = (n, x) /\ subscript_key NDEBUG n key = Ok x)
  /\ (forall v child x,
        data n = V_JsonVector v -> nth_error v (N.to_nat child) = Some x ->
        subscript_index_mut n child = (n, Some x)
        /\ subscript_index NDEBUG n child = Ok x).
Proof.
  split.
  - intros m key x Hd Hfind. split.
    + unfold subscript_key_mut, Struct_mut.
      rewrite setType_same by (unfold getType; now rewrite Hd).
      rewrite Hd. unfold map_subscript. rewrite Hfind.
      now rewrite <- Hd, set_data_same.
    + unfold subscript_key. rewrite (Struct_const_struct _ _ _ Hd).
      now rewrite Hfind.
  - intros v child x Hd Hnth.
    assert (Hlt : N.to_nat child < List.length v)
      by (apply nth_error_Some; congruence).
    split.
    + unfold subscript_index_mut, Vector_mut.
      rewrite setType_same by (unfold getType; now rewrite Hd).
      rewrite Hd.
      assert (Hleb : (N.of_nat (List.length v) <=? child)%N = false)
        by (apply N.leb_gt; lia).
      rewrite Hleb, Hnth. now rewrite <- Hd, set_data_same.
    + unfold subscript_index. rewrite (Vector_const_vector _ _ _ Hd).
      assert (Hltb : (child <? N.of_nat (List.length v))%N = true)
        by (apply N.ltb_lt; lia).
      now rewrite Hltb, Hnth.
Qed.

(** X11 at [{"a": [10, 20]}] with the key ["a"] and at [[10, 20]] with
    the index 1. *)
Lemma subscript_mut_existing_witness :
  subscript_key_mut doc_a_10_20 "a" = (doc_a_10_20, node_10_20)
  /\ subscript_index_mut node_10_20 1%N = (node_10_20, Some (node_of_int 20%Z)).
Proof.
  split.
  - destruct (subscript_mut_existing true doc_a_10_20) as (H & _).
    apply (H _ "a" node_10_20 eq_refl eq_refl).
  - destruct (subscript_mut_existing true node_10_20) as (_ & H).
    apply (H _ 1%N (node_of_int 20%Z) eq_refl eq_refl).
Defined.

(** X12: indexing by a key for writing a node that is not a Mapping
    replaces whatever the node held, a Sequence with its elements
    included, by a Mapping whose only entry is the key with a Null value. *)
Theorem subscript_key_mut_replaces (n : JsonNode) (key : string) :
  getType n <> DATA_STRUCT ->
  subscript_key_mut n key
  = (set_data n (V_JsonMap [(key, JsonNode_default)]), JsonNode_default).
Proof.
  intros H. destruct n as [d m fl].
  destruct d; try reflexivity. now elim H.
Qed.

(** X12 at the Sequence [[10, 20]]. *)
Lemma subscript_key_mut_replaces_witness :
  subscript_key_mut node_10_20 "0"
  = (mkJsonNode (V_JsonMap [("0", JsonNode_default)]) EmptyString [],
     JsonNode_default).
Proof.
  apply (subscript_key_mut_replaces node_10_20 "0"). discriminate.
Defined.

(** X13: indexing by an index below [SIZE_MAX] for writing returns an
    element, the one that indexing for reading then finds at that index,
    on every node and in either build; the node is a Sequence afterwards
    and its length is the larger of the former length and [child + 1]. *)
Theorem subscript_index_read_back (NDEBUG : bool) (n : JsonNode)
  (child : size_t) :
  (child < SIZE_MAX)%N ->
  exists x v',
    subscript_index_mut n child = (set_data n (V_JsonVector v'), Some x)
    /\ subscript_index NDEBUG (set_data n (V_JsonVector v')) child = Ok x
    /\ List.length v'
       = Nat.max (List.length (snd (Vector_mut n))) (N.to_nat child + 1).
Proof.
  intros Hmax. unfold subscript_index_mut.
  destruct (Vector_mut n) as [n1 v] eqn:Hv. cbn [snd].
  assert (Hn1 : set_data n1 = set_data n).
  { unfold Vector_mut in Hv. injection Hv as <- _.
    unfold set_data.
    destruct (setType_keeps_comments DATA_VECTOR n) as [Hm Hf].
    now rewrite Hm, Hf. }
  rewrite Hn1.
  assert (Hwrap : N.to_nat (size_t_wrap (child + 1)) = N.to_nat child + 1).
  { unfold size_t_wrap. rewrite N.mod_small; [lia|].
    unfold SIZE_MAX in Hmax. lia. }
  assert (Hread : forall v' x,
             nth_error v' (N.to_nat child) = Some x ->
             subscript_index NDEBUG (set_data n (V_JsonVector v')) child = Ok x).
  { intros v' x Hx. unfold subscript_index.
    rewrite (Vector_const_vector NDEBUG (set_data n (V_JsonVector v')) v'
               eq_refl).
    assert (Hlt : N.to_nat child < List.length v')
      by (apply nth_error_Some; congruence).
    assert (Hltb : (child <? N.of_nat (List.length v'))%N = true)
      by (apply N.ltb_lt; lia).
    now rewrite Hltb, Hx. }
  destruct (N.leb_spec (N.of_nat (List.length v)) child) as [Hle|Hgt].
  - rewrite Hwrap.
    assert (Hlen : List.length v <= N.to_nat child + 1) by lia.
    destruct (resize_grow v _ Hlen) as (Hl & _ & Hnew).
    assert (Hx : nth_error (resize v (N.to_nat child + 1)) (N.to_nat child)
                 = Some JsonNode_default) by (apply Hnew; lia).
    exists JsonNode_default, (resize v (N.to_nat child + 1)).
    rewrite Hx. split; [reflexivity|]. split; [now apply Hread|]. lia.
  - destruct (nth_error v (N.to_nat child)) as [x|] eqn:Hx.
    + exists x, v. split; [reflexivity|]. split; [now apply Hread|]. lia.
    + apply nth_error_None in Hx. lia.
Qed.

(** X13 at the Null node with the index 2. *)
Lemma subscript_index_read_back_witness :
  exists x v',
    subscript_index_mut nullNode 2%N
    = (set_data nullNode (V_JsonVector v'), Some x)
    /\ subscript_index false (set_data nullNode (V_JsonVector v')) 2%N = Ok x
    /\ List.length v' = 3.
Proof.
  destruct (subscript_index_read_back false nullNode 2%N)
    as (x & v' & H1 & H2 & H3); [reflexivity|].
  exists x, v'. repeat split; assumption.
Defined.

(** ** Pointers: segments and composition *)

Lemma split_slash_find (rest : string) :
  match find_from "/" 0 rest with
  | Some k =>
      substring 0 k rest = fst (split_slash rest)
      /\ substring k (String.length rest - k) rest = snd (split_slash rest)
  | None => rest = fst (split_slash rest)
            /\ EmptyString = snd (split_slash rest)
  end.
Proof.
  induction rest as [|a s IH]; [now split|].
  cbn [find_from split_slash].
  destruct (Ascii.eqb a "/") eqn:Ha.
  - cbn [fst snd]. split; [reflexivity|].
    rewrite Nat.sub_0_r. apply substring_all.
  - destruct (split_slash s) as [entry rem]. cbn [fst snd] in *.
    destruct (find_from "/" 0 s) as [k|]; cbn [option_map].
    + destruct IH as [He Hr]. split.
      * cbn [substring]. now rewrite He.
      * exact Hr.
    + destruct IH as [He Hr]. split; [now rewrite <- He|exact Hr].
Qed.

(** The segment and the remainder that [resolvePointer] computes with
    [find] and [substr] are the two parts of the text after the first
    character, cut at its first slash. *)
Lemma pointer_split (c : ascii) (rest : string) :
  pointer_entry (String c rest) = fst (split_slash rest)
  /\ pointer_remainer (String c rest) = snd (split_slash rest).
Proof.
  unfold pointer_entry, pointer_remainer, pointer_splitPos, substr_from.
  pose proof (split_slash_find rest) as H.
  cbn [find_from]. destruct (find_from "/" 0 rest) as [k|]; cbn [option_map].
  - destruct H as [He Hr]. split.
    + cbn [Nat.sub substring]. now rewrite Nat.sub_0_r.
    + exact Hr.
  - destruct H as [He Hr]. split; [|exact Hr].
    cbn [String.length Nat.sub substring]. rewrite Nat.sub_0_r.
    rewrite substring_all. exact He.
Qed.

Lemma split_slash_append (rest q : string) :
  is_pointer q ->
  split_slash (rest ++ q)
  = (fst (split_slash rest), snd (split_slash rest) ++ q).
Proof.
  intros Hq. induction rest as [|a s IH].
  - destruct q as [|c q]; [reflexivity|]. cbn in Hq. subst c. reflexivity.
  - cbn [append split_slash]. destruct (Ascii.eqb a "/"); [reflexivity|].
    rewrite IH. now destruct (split_slash s).
Qed.

Lemma pointer_append (c : ascii) (rest q : string) :
  is_pointer q ->
  pointer_entry (String c (rest ++ q)) = pointer_entry (String c rest)
  /\ pointer_remainer (String c (rest ++ q))
     = pointer_remainer (String c rest) ++ q.
Proof.
  intros Hq.
  destruct (pointer_split c (rest ++ q)) as [He Hr].
  destruct (pointer_split c rest) as [He' Hr'].
  rewrite He, Hr, He', Hr', (split_slash_append rest q Hq). now split.
Qed.

(** X14: resolving a pointer followed by another is resolving the first
    and then the second from the node reached; an error of the first part
    is the error of the whole. *)
Theorem resolvePointer_append (NDEBUG : bool) (n : JsonNode) (p q : string) :
  is_pointer q ->
  resolvePointer NDEBUG n (p ++ q)
  = match resolvePointer NDEBUG n p with
    | Ok r => resolvePointer NDEBUG r q
    | Throw e => Throw e
    end.
Proof.
  intros Hq.
  assert (H : forall k p n, String.length p <= k ->
              resolvePointer NDEBUG n (p ++ q)
              = match resolvePointer NDEBUG n p with
                | Ok r => resolvePointer NDEBUG r q
                | Throw e => Throw e
                end).
  { clear p n. induction k as [|k IH]; intros [|c rest] n Hlen;
      try (cbn in Hlen; lia);
      try (now rewrite resolvePointer_equation_1).
    cbn [append].
    rewrite !resolvePointer_equation_2. cbv zeta.
    destruct (pointer_append c rest q Hq) as [He Hr]. rewrite He, Hr.
    assert (Hrem : String.length (pointer_remainer (String c rest)) <= k).
    { pose proof (pointer_remainer_shorter c rest).
      cbn [String.length] in *. lia. }
    destruct (assert_ NDEBUG (Ascii.eqb c "/")); [|reflexivity].
    assert (Hfall :
              match subscript_key NDEBUG n (pointer_entry (String c rest)) with
              | Ok child =>
                  resolvePointer NDEBUG child
                    (pointer_remainer (String c rest) ++ q)
              | Throw e => Throw e
              end
              = match
                  match subscript_key NDEBUG n (pointer_entry (String c rest))
                  with
                  | Ok child =>
                      resolvePointer NDEBUG child
                        (pointer_remainer (String c rest))
                  | Throw e => Throw e
                  end
                with
                | Ok r => resolvePointer NDEBUG r q
                | Throw e => Throw e
                end).
    { destruct (subscript_key NDEBUG n _); [|reflexivity]. now apply IH. }
    destruct (type_is n DATA_VECTOR); [|exact Hfall].
    destruct (vector_index _); [|reflexivity].
    destruct (Vector_const NDEBUG n); [|reflexivity].
    destruct (_ <? _)%N; [|exact Hfall].
    destruct (nth_error _ _); [|exact Hfall]. now apply IH. }
  apply (H (String.length p)), le_n.
Qed.

(** X14 at [{"a": [10, 20]}] with the pointers [/a] and [/1]. *)
Lemma resolvePointer_append_witness :
  resolvePointer false doc_a_10_20 "/a/1"
  = match resolvePointer false doc_a_10_20 "/a" with
    | Ok r => resolvePointer false r "/1"
    | Throw e => Throw e
    end.
Proof.
  apply (resolvePointer_append false doc_a_10_20 "/a" "/1"). reflexivity.
Defined.

(** ** Pointers: what a resolution yields *)

Lemma type_is_vector_data (n : JsonNode) :
  type_is n DATA_VECTOR = true -> exists v, data n = V_JsonVector v.
Proof.
  destruct n as [[] ? ?]; try discriminate. intros _. now eexists.
Qed.

Lemma map_find_In (key : string) (m : JsonMap) (x : JsonNode) :
  map_find key m = Some x -> In (key, x) m.
Proof.
  induction m as [|[k v] m IH]; cbn [map_find]; [discriminate|].
  destruct (String.eqb_spec k key) as [->|].
  - intros [= ->]. now left.
  - intros H. right. now apply IH.
Qed.

Lemma subscript_key_child (NDEBUG : bool) (n child : JsonNode) (key : string) :
  subscript_key NDEBUG n key = Ok child ->
  child = nullNode \/ child_of child n.
Proof.
  unfold subscript_key, Struct_const, child_of.
  destruct (assert_ NDEBUG _); [|discriminate].
  destruct (data n) eqn:Hd;
    try (cbn [map_find mapDefault]; intros [= <-]; now left).
  destruct (map_find key m) as [x|] eqn:Hfind; intros [= <-]; [|now left].
  right. exists key. now apply map_find_In.
Qed.

Lemma subnode_nullNode (r : JsonNode) : subnode r nullNode -> r = nullNode.
Proof.
  intros H. remember nullNode as n eqn:Hn.
  destruct H as [|n child Hchild _]; [reflexivity|].
  subst n. contradiction.
Qed.

(** X15: a const resolution that succeeds yields a node of the tree or
    the null sentinel, never anything else. *)
Theorem resolvePointer_yields_subnode (NDEBUG : bool) (n r : JsonNode)
  (pointer : string) :
  resolvePointer NDEBUG n pointer = Ok r ->
  subnode r n \/ r = nullNode.
Proof.
  assert (H : forall k p n, String.length p <= k ->
              resolvePointer NDEBUG n p = Ok r ->
              subnode r n \/ r = nullNode).
  { clear n pointer. induction k as [|k IH]; intros [|c rest] n Hlen;
      try (cbn in Hlen; lia);
      try (rewrite resolvePointer_equation_1; intros [= <-]; left;
           apply subnode_here).
    rewrite resolvePointer_equation_2. cbv zeta.
    assert (Hrem : String.length (pointer_remainer (String c rest)) <= k).
    { pose proof (pointer_remainer_shorter c rest).
      cbn [String.length] in *. lia. }
    destruct (assert_ NDEBUG (Ascii.eqb c "/")); [|discriminate].
    assert (Hfall :
              match subscript_key NDEBUG n (pointer_entry (String c rest)) with
              | Ok child =>
                  resolvePointer NDEBUG child (pointer_remainer (String c rest))
              | Throw e => Throw e
              end = Ok r -> subnode r n \/ r = nullNode).
    { destruct (subscript_key NDEBUG n _) as [child|] eqn:Hkey; [|discriminate].
      intros Hres. apply (IH _ _ Hrem) in Hres.
      apply subscript_key_child in Hkey as [->|Hchild].
      - destruct Hres as [Hres|Hres]; [|now right].
        right. now apply subnode_nullNode.
      - destruct Hres as [Hres|Hres]; [|now right].
        left. eapply subnode_below; eassumption. }
    destruct (type_is n DATA_VECTOR) eqn:Ht; [|exact Hfall].
    apply type_is_vector_data in Ht as (v & Hd).
    destruct (vector_index _) as [idx|]; [|discriminate].
    rewrite (Vector_const_vector NDEBUG n v Hd).
    destruct (_ <? _)%N; [|exact Hfall].
    destruct (nth_error _ _) as [elem|] eqn:Hnth; [|exact Hfall].
    intros Hres. apply (IH _ _ Hrem) in Hres.
    destruct Hres as [Hres|Hres]; [|now right].
    left. eapply subnode_below; [|exact Hres].
    unfold child_of. rewrite Hd. eapply nth_error_In. exact Hnth. }
  apply (H (String.length pointer)), le_n.
Qed.

(** X15 at [{"a": [10, 20]}] with the pointer [/a/0]. *)
Lemma resolvePointer_yields_subnode_witness :
  subnode (node_of_int 10%Z) doc_a_10_20 \/ node_of_int 10%Z = nullNode.
Proof.
  apply (resolvePointer_yields_subnode false doc_a_10_20 (node_of_int 10%Z)
           "/a/0").
  reflexivity.
Defined.

Lemma subscript_key_debug (n : JsonNode) (key : string) :
  match subscript_key false n key with
  | Ok x => subscript_key true n key = Ok x
  | Throw e => e = assertion_failed
  end.
Proof.
  unfold subscript_key, Struct_const, assert_, type_is.
  destruct n as [[] ? ?]; cbn; try reflexivity.
  now destruct (map_find key m).
Qed.

(** X16: assertions only stop the program: whenever the resolution with
    assertions enabled ends otherwise than in a failed assertion, with a
    node or with an exception, the resolution without assertions ends the
    same way. *)
Theorem resolvePointer_assertions_transparent (n : JsonNode)
  (pointer : string) :
  resolvePointer false n pointer <> Throw assertion_failed ->
  resolvePointer true n pointer = resolvePointer false n pointer.
Proof.
  assert (H : forall k p n, String.length p <= k ->
              resolvePointer false n p <> Throw assertion_failed ->
              resolvePointer true n p = resolvePointer false n p).
  { clear n pointer. induction k as [|k IH]; intros [|c rest] n Hlen;
      try (cbn in Hlen; lia);
      try (now rewrite !resolvePointer_equation_1).
    rewrite !resolvePointer_equation_2. cbv zeta.
    assert (Hrem : String.length (pointer_remainer (String c rest)) <= k).
    { pose proof (pointer_remainer_shorter c rest).
      cbn [String.length] in *. lia. }
    unfold assert_ at 1 3. cbn [orb].
    destruct (Ascii.eqb c "/"); [|intros Hne; now elim Hne].
    set (entry := pointer_entry (String c rest)).
    set (rem := pointer_remainer (String c rest)) in *.
    assert (Hfall :
              match subscript_key false n entry with
              | Ok child => resolvePointer false child rem
              | Throw e => Throw e
              end <> Throw assertion_failed ->
              match subscript_key true n entry with
              | Ok child => resolvePointer true child rem
              | Throw e => Throw e
              end
              = match subscript_key false n entry with
                | Ok child => resolvePointer false child rem
                | Throw e => Throw e
                end).
    { pose proof (subscript_key_debug n entry) as Hkey.
      destruct (subscript_key false n entry) as [child|e].
      - rewrite Hkey. now apply IH.
      - subst e. intros Hne. now elim Hne. }
    destruct (type_is n DATA_VECTOR) eqn:Ht; [|exact Hfall].
    apply type_is_vector_data in Ht as (v & Hd).
    destruct (vector_index entry) as [idx|]; [|reflexivity].
    rewrite !(Vector_const_vector _ n v Hd).
    destruct (_ <? _)%N; [|exact Hfall].
    destruct (nth_error _ _) as [elem|]; [|exact Hfall]. now apply IH. }
  apply (H (String.length pointer)), le_n.
Qed.

(** X16 at [{"a": [10, 20]}] with the pointer [/a/01]. *)
Lemma resolvePointer_assertions_transparent_witness :
  resolvePointer true doc_a_10_20 "/a/01"
  = resolvePointer false doc_a_10_20 "/a/01".
Proof.
  apply (resolvePointer_assertions_transparent doc_a_10_20 "/a/01").
  discriminate.
Defined.

(** ** Pointers along entries that exist *)

Lemma vector_store_same (v : JsonVector) (i : nat) (x : JsonNode) :
  nth_error v i = Some x -> vector_store v i x = v.
Proof.
  revert i; induction v as [|y v IH]; intros [|i]; cbn; try discriminate.
  - now intros [= ->].
  - intros H. now rewrite IH.
Qed.

Lemma vector_store_nth (v : JsonVector) (i : nat) (x : JsonNode) :
  i < List.length v -> nth_error (vector_store v i x) i = Some x.
Proof.
  revert i; induction v as [|y v IH]; intros [|i]; cbn; try lia.
  - reflexivity.
  - intros H. apply IH. lia.
Qed.

Lemma map_store_same (key : string) (x : JsonNode) (m : JsonMap) :
  map_find key m = Some x -> map_store key x m = m.
Proof.
  induction m as [|[k v] m IH]; cbn [map_find map_store]; [reflexivity|].
  destruct (String.eqb k key).
  - now intros [= ->].
  - intros H. now rewrite IH.
Qed.

Lemma map_store_find (key : string) (x y : JsonNode) (m : JsonMap) :
  map_find key m = Some y -> map_find key (map_store key x m) = Some x.
Proof.
  induction m as [|[k v] m IH]; cbn [map_find map_store]; [discriminate|].
  destruct (String.eqb k key) eqn:Hk; cbn [map_find]; rewrite Hk.
  - reflexivity.
  - exact IH.
Qed.

Lemma reaches_resolves (NDEBUG : bool) (n r : JsonNode) (pointer : string) :
  reaches NDEBUG n pointer r ->
  resolvePointer NDEBUG n pointer = Ok r
  /\ resolvePointer_mut NDEBUG n pointer = (n, Ok r).
Proof.
  induction 1 as [n|n v c rest idx elem r Hassert Hd Hidx Hnth _ [IHc IHm]
                   |n m c rest child r Hassert Hd Hfind _ [IHc IHm]].
  - now rewrite resolvePointer_equation_1, resolvePointer_mut_equation_1.
  - assert (Hlt : (idx <? N.of_nat (List.length v))%N = true).
    { apply N.ltb_lt.
      assert (N.to_nat idx < List.length v)
        by (apply nth_error_Some; congruence).
      lia. }
    assert (Ht : type_is n DATA_VECTOR = true)
      by (unfold type_is, getType; now rewrite Hd).
    rewrite resolvePointer_equation_2, resolvePointer_mut_equation_2.
    cbv zeta. rewrite Hassert, Ht, Hidx. split.
    + now rewrite (Vector_const_vector _ _ _ Hd), Hlt, Hnth.
    + unfold Vector_mut.
      rewrite setType_same by (unfold getType; now rewrite Hd).
      rewrite Hd, Hlt, Hnth, IHm, (vector_store_same _ _ _ Hnth).
      now rewrite <- Hd, set_data_same.
  - assert (Ht : type_is n DATA_VECTOR = false)
      by (unfold type_is, getType; now rewrite Hd).
    rewrite resolvePointer_equation_2, resolvePointer_mut_equation_2.
    cbv zeta. rewrite Hassert, Ht. split.
    + unfold subscript_key.
      now rewrite (Struct_const_struct _ _ _ Hd), Hfind.
    + unfold subscript_key_mut, Struct_mut.
      rewrite setType_same by (unfold getType; now rewrite Hd).
      rewrite Hd. unfold map_subscript. rewrite Hfind.
      rewrite <- Hd, set_data_same, IHm.
      rewrite setType_same by (unfold getType; now rewrite Hd).
      rewrite Hd. cbn [snd]. rewrite (map_store_same _ _ _ Hfind).
      now rewrite <- Hd, set_data_same.
Qed.

Lemma reaches_subnode (NDEBUG : bool) (n r : JsonNode) (pointer : string) :
  reaches NDEBUG n pointer r -> subnode r n.
Proof.
  induction 1 as [n|n v c rest idx elem r _ Hd _ Hnth _ IH
                   |n m c rest child r _ Hd Hfind _ IH].
  - apply subnode_here.
  - eapply subnode_below; [|exact IH].
    unfold child_of. rewrite Hd. eapply nth_error_In. exact Hnth.
  - eapply subnode_below; [|exact IH].
    unfold child_of. rewrite Hd. eexists. eapply map_find_In. exact Hfind.
Qed.

(** X17: along entries that exist (indices within bounds, keys the
    Mappings have) the two resolvers agree: both yield the node the pointer
    leads to, and the mutable one leaves the tree as it was. *)
Theorem resolvePointer_existing_path (NDEBUG : bool) (n r : JsonNode)
  (pointer : string) :
  reaches NDEBUG n pointer r ->
  resolvePointer NDEBUG n pointer = Ok r
  /\ resolvePointer_mut NDEBUG n pointer = (n, Ok r)
  /\ subnode r n.
Proof.
  intros H. destruct (reaches_resolves _ _ _ _ H) as [Hc Hm].
  split; [exact Hc|]. split; [exact Hm|]. exact (reaches_subnode _ _ _ _ H).
Qed.

(** X17 at [{"a": [10, 20]}] with the pointer [/a/1]. *)
Lemma resolvePointer_existing_path_witness :
  resolvePointer_mut false doc_a_10_20 "/a/1"
  = (doc_a_10_20, Ok (node_of_int 20%Z)).
Proof.
  apply (resolvePointer_existing_path false doc_a_10_20 (node_of_int 20%Z)
           "/a/1").
  eapply reaches_value; try reflexivity.
  eapply reaches_element; try reflexivity.
  apply reaches_here.
Defined.

Lemma subscript_key_mut_entry (n : JsonNode) (key : string) :
  exists m1,
    fst (subscript_key_mut n key) = set_data n (V_JsonMap m1)
    /\ map_find key m1 = Some (snd (subscript_key_mut n key))
    /\ (snd (subscript_key_mut n key) = JsonNode_default
        \/ child_of (snd (subscript_key_mut n key)) n).
Proof.
  unfold subscript_key_mut, Struct_mut, map_subscript.
  destruct (setType_keeps_comments DATA_STRUCT n) as [Hm Hf].
  assert (Hsd : set_data (setType DATA_STRUCT n) = set_data n)
    by (unfold set_data; now rewrite Hm, Hf).
  assert (Hdata : match data (setType DATA_STRUCT n) with
                  | V_JsonMap m => m
                  | _ => []
                  end = match data n with V_JsonMap m => m | _ => [] end).
  { destruct n as [[] ? ?]; reflexivity. }
  rewrite Hdata, Hsd.
  set (m0 := match data n with V_JsonMap m => m | _ => [] end).
  destruct (map_find key m0) as [x|] eqn:Hfind; cbn [fst snd].
  - exists m0. split; [reflexivity|]. split; [exact Hfind|]. right.
    unfold child_of. subst m0. destruct (data n); try discriminate Hfind.
    exists key. now apply map_find_In.
  - eexists. split; [reflexivity|].
    split; [now apply map_find_emplace_same|now left].
Qed.

Lemma resolvePointer_mut_reaches (NDEBUG : bool) (r : JsonNode) :
  forall k pointer n n',
    String.length pointer <= k ->
    resolvePointer_mut NDEBUG n pointer = (n', Ok r) ->
    reaches NDEBUG n' pointer r.
Proof.
  induction k as [|k IH]; intros [|c rest] n n' Hlen;
    try (cbn in Hlen; lia);
    try (rewrite resolvePointer_mut_equation_1; intros [= <- <-];
         apply reaches_here).
  rewrite resolvePointer_mut_equation_2. cbv zeta.
  assert (Hrem : String.length (pointer_remainer (String c rest)) <= k).
  { pose proof (pointer_remainer_shorter c rest).
    cbn [String.length] in *. lia. }
  destruct (assert_ NDEBUG (Ascii.eqb c "/")) as [[]|] eqn:Hassert;
    [|discriminate].
  set (entry := pointer_entry (String c rest)).
  set (rem := pointer_remainer (String c rest)) in *.
  assert (Hfall :
            (let (in1, child) := subscript_key_mut n entry in
             let (child', r0) := resolvePointer_mut NDEBUG child rem in
             (set_data in1
                (V_JsonMap (map_store entry child' (snd (Struct_mut in1)))),
              r0)) = (n', Ok r) ->
            reaches NDEBUG n' (String c rest) r).
  { destruct (subscript_key_mut_entry n entry) as (m1 & Hfst & Hfind & _).
    destruct (subscript_key_mut n entry) as [in1 child].
    cbn [fst snd] in Hfst, Hfind. subst in1.
    destruct (resolvePointer_mut NDEBUG child rem) as [child' r0] eqn:Hrec.
    intros [= <- ->].
    apply (IH _ _ _ Hrem) in Hrec.
    eapply reaches_value; [exact Hassert|reflexivity| |exact Hrec].
    fold entry. eapply map_store_find. exact Hfind. }
  destruct (type_is n DATA_VECTOR) eqn:Ht; [|exact Hfall].
  apply type_is_vector_data in Ht as (v & Hd).
  destruct (vector_index entry) as [idx|] eqn:Hidx; [|discriminate].
  unfold Vector_mut.
  rewrite setType_same by (unfold getType; now rewrite Hd).
  rewrite Hd.
  destruct (_ <? _)%N eqn:Hlt; [|exact Hfall].
  destruct (nth_error _ _) as [elem|] eqn:Hnth; [|exact Hfall].
  destruct (resolvePointer_mut NDEBUG elem rem) as [elem' r0] eqn:Hrec.
  intros [= <- ->].
  apply (IH _ _ _ Hrem) in Hrec.
  eapply reaches_element;
    [exact Hassert|reflexivity|exact Hidx| |exact Hrec].
  apply vector_store_nth. apply nth_error_Some. congruence.
Qed.

(** X18: after a mutable resolution that succeeds, the tree holds every
    entry of the pointer: the const resolution of the same pointer on the
    tree left behind yields the node that was returned, and a second
    mutable resolution changes nothing more. *)
Theorem resolvePointer_mut_read_back (NDEBUG : bool) (n n' r : JsonNode)
  (pointer : string) :
  resolvePointer_mut NDEBUG n pointer = (n', Ok r) ->
  resolvePointer NDEBUG n' pointer = Ok r
  /\ resolvePointer_mut NDEBUG n' pointer = (n', Ok r).
Proof.
  intros H. apply reaches_resolves.
  eapply resolvePointer_mut_reaches; [apply le_n|exact H].
Qed.

(** X18 at the Null node with the pointer [/a/b]. *)
Lemma resolvePointer_mut_read_back_witness :
  resolvePointer false
    (mkJsonNode
       (V_JsonMap
          [("a", mkJsonNode (V_JsonMap [("b", JsonNode_default)])
                   EmptyString [])])
       EmptyString [])
    "/a/b"
  = Ok JsonNode_default.
Proof.
  apply (resolvePointer_mut_read_back false nullNode). reflexivity.
Defined.

(** ** Pointers on trees without Sequences *)

Lemma subnode_trans (a b c : JsonNode) :
  subnode a b -> subnode b c -> subnode a c.
Proof.
  intros Hab Hbc. induction Hbc as [|n child Hchild _ IH]; [exact Hab|].
  eapply subnode_below; [exact Hchild|exact IH].
Qed.

(** X19: with assertions compiled out, resolution fails at Sequence nodes
    only: on a tree without a Sequence both resolvers yield a node for
    every pointer. *)
Theorem resolvePointer_total_without_sequences (n : JsonNode)
  (pointer : string) :
  (forall x, subnode x n -> getType x <> DATA_VECTOR) ->
  (exists r, resolvePointer true n pointer = Ok r)
  /\ (exists n' r, resolvePointer_mut true n pointer = (n', Ok r)).
Proof.
  assert (Hnull : forall x, subnode x JsonNode_default ->
                            getType x <> DATA_VECTOR).
  { intros x Hx. apply subnode_nullNode in Hx. now subst x. }
  assert (H : forall k p n, String.length p <= k ->
              (forall x, subnode x n -> getType x <> DATA_VECTOR) ->
              (exists r, resolvePointer true n p = Ok r)
              /\ (exists n' r, resolvePointer_mut true n p = (n', Ok r))).
  { clear n pointer. induction k as [|k IH]; intros [|c rest] n Hlen Hn;
      try (cbn in Hlen; lia);
      try (rewrite resolvePointer_equation_1, resolvePointer_mut_equation_1;
           split; repeat eexists).
    rewrite resolvePointer_equation_2, resolvePointer_mut_equation_2.
    cbv zeta. cbn [assert_ orb].
    assert (Hrem : String.length (pointer_remainer (String c rest)) <= k).
    { pose proof (pointer_remainer_shorter c rest).
      cbn [String.length] in *. lia. }
    assert (Ht : type_is n DATA_VECTOR = false).
    { apply JsonType_eqb_neq, Hn, subnode_here. }
    rewrite Ht. split.
    - destruct (subscript_key true n _) as [child|e] eqn:Hkey.
      + apply subscript_key_child in Hkey as [->|Hchild].
        * now apply IH.
        * apply IH; [exact Hrem|]. intros x Hx. apply Hn.
          eapply subnode_below; eassumption.
      + unfold subscript_key, Struct_const in Hkey. cbn [assert_ orb] in Hkey.
        destruct (data n); try discriminate Hkey.
        now destruct (map_find _ m).
    - destruct (subscript_key_mut_entry n (pointer_entry (String c rest)))
        as (m1 & _ & _ & Hchild).
      destruct (subscript_key_mut n _) as [in1 child]. cbn [snd] in Hchild.
      assert (Hc : forall x, subnode x child -> getType x <> DATA_VECTOR).
      { destruct Hchild as [->|Hchild]; [exact Hnull|].
        intros x Hx. apply Hn. eapply subnode_below; eassumption. }
      destruct (IH _ child Hrem Hc) as [_ (child' & r & Hrec)].
      rewrite Hrec. repeat eexists. }
  intros Hn. now apply (H (String.length pointer)).
Qed.

(** X19 at the Mapping [{"a": 1}] with a pointer through its scalar. *)
Lemma resolvePointer_total_without_sequences_witness :
  exists r,
    resolvePointer true
      (mkJsonNode (V_JsonMap [("a", node_of_int 1%Z)]) EmptyString []) "/a/b/c"
    = Ok r.
Proof.
  apply (resolvePointer_total_without_sequences
           (mkJsonNode (V_JsonMap [("a", node_of_int 1%Z)]) EmptyString [])
           "/a/b/c").
  intros x Hx. inversion Hx as [|? child Hchild Hsub]; subst; [discriminate|].
  destruct Hchild as (key & [[= _ <-]|[]]).
  inversion Hsub as [|? child' Hchild' _]; subst; [discriminate|].
  contradiction.
Defined.

(** ** Escaped text *)

Lemma escape_table_codes (c : ascii) :
  match assoc_char c escape_table with
  | Some code =>
      is_escape_code code = true
      /\ escape_char c = String backslash (String code EmptyString)
  | None => Ascii.eqb c backslash = false
            /\ escape_char c = String c EmptyString
  end.
Proof. destruct c as [[] [] [] [] [] [] [] []]; split; reflexivity. Qed.

Lemma well_escaped_escape_body (s : string) :
  well_escaped (escape_body s) = true.
Proof.
  assert (H : forall k s, String.length s <= k ->
                          well_escaped (escape_body s) = true).
  { clear s. induction k as [|k IH]; intros [|c s] Hlen;
      try (cbn in Hlen; lia); try reflexivity.
    cbn [String.length] in Hlen.
    destruct (match s with
              | String next _ => Ascii.eqb c backslash && is_escape_code next
              | EmptyString => false
              end) eqn:Hpair.
    - destruct s as [|next s]; [discriminate|].
      apply andb_prop in Hpair as [Hc Hnext].
      apply Ascii.eqb_eq in Hc. subst c.
      rewrite (escape_body_pair _ _ Hnext).
      cbn [well_escaped]. rewrite Ascii.eqb_refl, Hnext. cbn [andb].
      apply IH. cbn [String.length] in Hlen. lia.
    - rewrite (escape_body_char _ _ Hpair).
      pose proof (escape_table_codes c) as Hc.
      destruct (assoc_char c escape_table) as [code|] eqn:Hassoc.
      + destruct Hc as [Hcode ->]. cbn [append well_escaped].
        rewrite Ascii.eqb_refl, Hcode. cbn [andb]. apply IH. lia.
      + destruct Hc as [Hb ->]. cbn [append well_escaped].
        rewrite Hb, Hassoc. apply IH. lia. }
  apply (H (String.length s)), le_n.
Qed.

Lemma escape_body_well_escaped (s : string) :
  well_escaped s = true -> escape_body s = s.
Proof.
  assert (H : forall k s, String.length s <= k ->
                          well_escaped s = true -> escape_body s = s).
  { clear s. induction k as [|k IH]; intros [|c s] Hlen;
      try (cbn in Hlen; lia); try reflexivity.
    cbn [String.length] in Hlen. cbn [well_escaped].
    destruct (Ascii.eqb c backslash) eqn:Hc.
    - destruct s as [|next s]; [discriminate|]. intros Hw.
      apply andb_prop in Hw as [Hnext Hw].
      apply Ascii.eqb_eq in Hc. subst c.
      rewrite (escape_body_pair _ _ Hnext). f_equal. f_equal.
      apply IH; [cbn [String.length] in Hlen; lia|exact Hw].
    - pose proof (escape_table_codes c) as Htab.
      destruct (assoc_char c escape_table); [discriminate|]. intros Hw.
      destruct Htab as [_ Hchar].
      rewrite escape_body_char by (destruct s; now rewrite ?Hc).
      rewrite Hchar. cbn [append]. f_equal. apply IH; [lia|exact Hw]. }
  apply (H (String.length s)).  apply le_n.
Qed.

(** X20: the body [writeString] writes always reads as escaped text:
    each backslash in it starts a pair with a code character, and no
    quote, control character of the table or slash stands outside a
    pair. *)
Theorem writeString_well_escaped (str : string) (w : JsonWriter) :
  exists body,
    out (writeString str w) = out w ++ quoted body
    /\ well_escaped body = true.
Proof.
  exists (escape_body str). split.
  - destruct (writeString_out str w) as [H _]. rewrite H. unfold quoted.
    reflexivity.
  - apply well_escaped_escape_body.
Qed.

(** X21: text that is escaped already is written as it is, so that
    escaping twice is escaping once: what [writeString] makes of the body
    it wrote for a string is that body again. *)
Theorem writeString_escaped_unchanged (str : string) (w : JsonWriter) :
  (well_escaped str = true ->
   out (writeString str w) = out w ++ quoted str)
  /\ out (writeString (escape_body str) w) = out w ++ quoted (escape_body str).
Proof.
  assert (H : forall s, well_escaped s = true ->
                        out (writeString s w) = out w ++ quoted s).
  { intros s Hs. destruct (writeString_out s w) as [H _].
    rewrite H, (escape_body_well_escaped s Hs). reflexivity. }
  split; [apply H|]. apply H, well_escaped_escape_body.
Qed.

(** X21 at a backslash followed by [n]. *)
Lemma writeString_escaped_unchanged_witness :
  out (writeString (char backslash ++ "n") (JsonWriter_new true))
  = quoted (char backslash ++ "n").
Proof.
  destruct (writeString_escaped_unchanged (char backslash ++ "n")
              (JsonWriter_new true)) as (H & _).
  apply H. reflexivity.
Defined.

(** ** The writer in compact mode *)

Lemma put_put (a b : string) (w : JsonWriter) : put a (put b w) = put (b ++ a) w.
Proof. unfold put. cbn. now rewrite append_assoc. Qed.

Lemma compactMode_put (s : string) (w : JsonWriter) :
  compactMode (put s w) = compactMode w.
Proof. reflexivity. Qed.

Lemma put_nil (w : JsonWriter) : put EmptyString w = w.
Proof. destruct w. unfold put. cbn. now rewrite append_nil_r. Qed.

Lemma writeString_put (str : string) (w : JsonWriter) :
  writeString str w = put (quoted (escape_body str)) w.
Proof.
  destruct (writeString_out str w) as [Hout (Hp & Hc & Hm)].
  destruct (writeString str w) as [p o c m]. cbn in *. subst.
  reflexivity.
Qed.

Section CompactText.
Context {Entry : Type} (writeEntry : Entry -> JsonWriter -> JsonWriter)
  (text : Entry -> string).

Lemma writeContainer_rest_text (rest : list Entry) :
  Forall (fun e => forall w, compactMode w = true ->
                             writeEntry e w = put (text e) w) rest ->
  forall t0 w, compactMode w = true ->
    writeContainer_rest writeEntry rest (put t0 w)
    = put (String.concat ", " (t0 :: map text rest)) w.
Proof.
  induction 1 as [|e rest He _ IH]; intros t0 w Hw;
    cbn [writeContainer_rest map]; [reflexivity|].
  change (compactMode (put t0 w)) with (compactMode w). rewrite Hw.
  rewrite He by exact Hw.
  rewrite (IH (text e) (put ", " (put t0 w)) Hw), !put_put.
  reflexivity.
Qed.

Lemma writeContainer_text (entries : list Entry) :
  Forall (fun e => forall w, compactMode w = true ->
                             writeEntry e w = put (text e) w) entries ->
  forall w, compactMode w = true ->
    writeContainer writeEntry entries w
    = put (String.concat ", " (map text entries)) w.
Proof.
  intros Hall w Hw. destruct entries as [|first rest];
    cbn [writeContainer map]; [now rewrite put_nil|].
  inversion Hall as [|? ? Hfirst Hrest]; subst.
  set (w1 := set_prefix (prefix w ++ char tab) w).
  assert (Hw1 : compactMode w1 = true) by exact Hw.
  rewrite (Hfirst w1 Hw1), (writeContainer_rest_text rest Hrest _ _ Hw1).
  change (compactMode (put _ w1)) with (compactMode w). rewrite Hw.
  rewrite put_nil. unfold put, set_prefix. subst w1.
  cbn [set_prefix prefix out compact compactMode].
  now rewrite drop_last_append.
Qed.
End CompactText.

(** In compact mode the writer appends the text of the node and nothing
    else changes. *)
Lemma writeNode_compact_text (show_double : double -> string)
  (node : JsonNode) :
  forall w, compactMode w = true ->
            writeNode show_double node w
            = put (compact_text show_double node) w.
Proof.
  assert (Hset : forall t w, compactMode w = true ->
                             set_compactMode true (put t w) = put t w).
  { intros t [p o c m] Hm. cbn in Hm. subst m. reflexivity. }
  induction node as [d m f Hd|v m f IH|mp m f IH] using JsonNode_tree_ind;
    intros w Hw; cbn [writeNode compact_text data];
    rewrite Hw, andb_false_r; cbn [negb andb]; rewrite ?Hw.
  - destruct d as [|b|x|s|?|?|i]; try contradiction;
      try (now apply Hset).
    + destruct b; now apply Hset.
    + rewrite writeString_put. now apply Hset.
  - rewrite (writeContainer_text _ (compact_text show_double)).
    + rewrite !compactMode_put, Hw, !put_put.
      rewrite Hset by exact Hw.
      solve [reflexivity | f_equal; now rewrite !append_assoc].
    + eapply Forall_impl; [|exact IH]. intros e He w0 Hw0.
      rewrite (writeEntry_header_compact _ _ Hw0). now apply He.
    + exact Hw.
  - rewrite (writeContainer_text _
               (fun e => quoted (escape_body (fst e)) ++ " : "
                         ++ compact_text show_double (snd e))).
    + rewrite !compactMode_put, Hw, !put_put.
      rewrite Hset by exact Hw.
      solve [reflexivity | f_equal; now rewrite !append_assoc].
    + eapply Forall_impl; [|exact IH]. intros e He w0 Hw0.
      rewrite (writeEntry_header_compact _ _ Hw0).
      rewrite writeString_put, He by exact Hw0.
      rewrite !put_put.
      solve [reflexivity | f_equal; now rewrite !append_assoc].
    + exact Hw.
Qed.

Lemma toJson_compact_text (show_double : double -> string) (n : JsonNode) :
  isCompact n = true -> toJson show_double true n = compact_text show_double n.
Proof.
  intros Hn. unfold toJson. destruct n as [d m f].
  cbn [writeNode]. cbn [JsonWriter_new compact compactMode].
  rewrite Hn. cbn [negb andb set_compactMode out].
  pose proof (writeNode_compact_text show_double (mkJsonNode d m f)
                (mkJsonWriter EmptyString EmptyString true true) eq_refl) as H.
  cbn [writeNode] in H. cbn [compact compactMode negb andb] in H.
  cbn [set_compactMode prefix out compact compactMode] in H.
  apply (f_equal out) in H. cbn [out set_compactMode put] in H.
  exact H.
Qed.

(** X22: in compact mode the writer appends the one-line text of the
    node and changes nothing else, and for a compact node [toJson(true)]
    is that text: scalars as they are, a Sequence as its elements' texts
    between [[ ] and [ ]], a Mapping as its entries between [{ ] and [ }],
    the separators [", "] and [" : "], and neither comment nor
    indentation. *)
Theorem toJson_compact_is_compact_text (show_double : double -> string)
  (n : JsonNode) :
  (forall w, compactMode w = true ->
             writeNode show_double n w = put (compact_text show_double n) w)
  /\ (isCompact n = true ->
      toJson show_double true n = compact_text show_double n).
Proof.
  split.
  - apply writeNode_compact_text.
  - apply toJson_compact_text.
Qed.

(** X22 at the Sequence [[10, 20]]. *)
Lemma toJson_compact_is_compact_text_witness :
  toJson show_double_fixed true node_10_20 = "[ 10, 20 ]".
Proof.
  destruct (toJson_compact_is_compact_text show_double_fixed node_10_20)
    as (_ & H).
  rewrite H; reflexivity.
Defined.

Lemma isCompact_elements (v : JsonVector) (m : string) (f : list string) :
  isCompact (mkJsonNode (V_JsonVector v) m f) = true ->
  Forall (fun e => isCompact e = true) v.
Proof.
  cbn [isCompact data]. intros H. apply Forall_forall.
  now apply forallb_forall.
Qed.

(** X23: the compact text composes: for a compact Sequence
    [toJson(true)] is the texts [toJson(true)] gives for its elements,
    joined by [", "] between [[ ] and [ ]] (two spaces between the brackets
    when it is empty); for a Mapping with one entry of compact value it
    is the escaped key in quotes, [" : "] and the text of the value between
    [{ ] and [ }]. *)
Theorem toJson_compact_composes (show_double : double -> string)
  (m : string) (f : list string) :
  (forall v,
      isCompact (mkJsonNode (V_JsonVector v) m f) = true ->
      toJson show_double true (mkJsonNode (V_JsonVector v) m f)
      = "[ " ++ String.concat ", " (map (toJson show_double true) v) ++ " ]")
  /\ (forall key value,
        isCompact value = true ->
        toJson show_double true (mkJsonNode (V_JsonMap [(key, value)]) m f)
        = "{ " ++ quoted (escape_body key) ++ " : "
          ++ toJson show_double true value ++ " }").
Proof.
  split.
  - intros v Hv. rewrite (toJson_compact_text _ _ Hv).
    cbn [compact_text data]. f_equal. f_equal. f_equal.
    apply map_ext_Forall. apply isCompact_elements in Hv.
    eapply Forall_impl; [|exact Hv]. intros e He.
    symmetry. now apply toJson_compact_text.
  - intros key value Hv.
    rewrite (toJson_compact_text _ (mkJsonNode (V_JsonMap [(key, value)]) m f))
      by exact Hv.
    rewrite (toJson_compact_text _ value Hv).
    cbn [compact_text data map String.concat fst snd].
    now rewrite !append_assoc.
Qed.

(** X23 at [[10, 20]] and at [{"a": [10, 20]}]. *)
Lemma toJson_compact_composes_witness :
  toJson show_double_fixed true node_10_20
  = "[ " ++ String.concat ", " ["10"; "20"] ++ " ]"
  /\ toJson show_double_fixed true doc_a_10_20
     = "{ " ++ quoted "a" ++ " : " ++ "[ 10, 20 ]" ++ " }".
Proof.
  destruct (toJson_compact_composes show_double_fixed EmptyString [])
    as (Hv & Hm).
  split.
  - exact (Hv [node_of_int 10%Z; node_of_int 20%Z] eq_refl).
  - exact (Hm "a" node_10_20 eq_refl).
Defined.

Lemma forallb_map_same {A : Type} (P : A -> bool) (g : A -> A) (l : list A) :
  Forall (fun x => P (g x) = P x) l -> forallb P (map g l) = forallb P l.
Proof.
  induction 1 as [|x l Hx _ IH]; cbn [map forallb]; [reflexivity|].
  now rewrite Hx, IH.
Qed.

Lemma compact_text_with_comments (show_double : double -> string)
  (on_meta : string -> string) (on_flags : list string -> list string)
  (n : JsonNode) :
  compact_text show_double (with_comments on_meta on_flags n)
  = compact_text show_double n
  /\ isCompact (with_comments on_meta on_flags n) = isCompact n.
Proof.
  induction n as [d m f Hd|v m f IH|mp m f IH] using JsonNode_tree_ind;
    cbn [with_comments compact_text isCompact data].
  - destruct d; try contradiction; now split.
  - split.
    + f_equal. f_equal. f_equal. rewrite map_map. apply map_ext_Forall.
      eapply Forall_impl; [|exact IH]. now intros e [He _].
    + apply forallb_map_same.
      eapply Forall_impl; [|exact IH]. now intros e [_ He].
  - split.
    + f_equal. f_equal. f_equal. rewrite map_map. apply map_ext_Forall.
      eapply Forall_impl; [|exact IH]. intros e [He _]. cbn [fst snd].
      now rewrite He.
    + destruct mp as [|[k v] [|e2 mp]]; cbn [map]; try reflexivity.
      inversion IH as [|? ? [_ Hv] _]; subst. exact Hv.
Qed.

(** X24: the compact text does not show comments: for a compact node
    [toJson(true)] is the same text whatever the metadata and the flags of
    its nodes, and the same after [setMeta]. *)
Theorem toJson_compact_ignores_comments (show_double : double -> string)
  (n : JsonNode) :
  isCompact n = true ->
  (forall on_meta on_flags,
      toJson show_double true (with_comments on_meta on_flags n)
      = toJson show_double true n)
  /\ (forall recursive_default metadata recursive,
        toJson show_double true
          (setMeta recursive_default metadata recursive n)
        = toJson show_double true n).
Proof.
  intros Hn.
  assert (H : forall on_meta on_flags,
             toJson show_double true (with_comments on_meta on_flags n)
             = toJson show_double true n).
  { intros on_meta on_flags.
    destruct (compact_text_with_comments show_double on_meta on_flags n)
      as [Ht Hc].
    rewrite !toJson_compact_text; [exact Ht|exact Hn|now rewrite Hc]. }
  split; [exact H|].
  intros rd metadata recursive.
  assert (Hc : isCompact (setMeta rd metadata recursive n) = true).
  { destruct (compact_text_with_comments show_double
                (fun _ => EmptyString) (fun fl => fl)
                (setMeta rd metadata recursive n)) as [_ H1].
    destruct (compact_text_with_comments show_double
                (fun _ => EmptyString) (fun fl => fl) n) as [_ H2].
    fold erase_meta in H1, H2. rewrite erase_meta_setMeta in H1.
    congruence. }
  rewrite !toJson_compact_text by assumption.
  destruct (compact_text_with_comments show_double
              (fun _ => EmptyString) (fun fl => fl)
              (setMeta rd metadata recursive n)) as [H1 _].
  destruct (compact_text_with_comments show_double
              (fun _ => EmptyString) (fun fl => fl) n) as [H2 _].
  fold erase_meta in H1, H2. rewrite erase_meta_setMeta in H1.
  congruence.
Qed.

(** X24 at [[10, 20]] stamped with a file name. *)
Lemma toJson_compact_ignores_comments_witness :
  toJson show_double_fixed true (setMeta true "mod.json" true node_10_20)
  = toJson show_double_fixed true node_10_20.
Proof.
  destruct (toJson_compact_ignores_comments show_double_fixed node_10_20
              eq_refl) as (_ & H).
  apply H.
Defined.

(** ** What is written does not depend on what was written *)

Lemma put_front_put (s t : string) (w : JsonWriter) :
  put t (put_front s w) = put_front s (put t w).
Proof. unfold put, put_front. cbn. now rewrite append_assoc. Qed.

Lemma put_front_settings (s : string) (w : JsonWriter) :
  prefix (put_front s w) = prefix w
  /\ compact (put_front s w) = compact w
  /\ compactMode (put_front s w) = compactMode w.
Proof. repeat split. Qed.

Lemma writeString_put_front (s str : string) (w : JsonWriter) :
  writeString str (put_front s w) = put_front s (writeString str w).
Proof. rewrite !writeString_put. apply put_front_put. Qed.

Lemma writeEntry_header_put_front (s : string) (node : JsonNode)
  (w : JsonWriter) :
  writeEntry_header node (put_front s w)
  = put_front s (writeEntry_header node w).
Proof.
  unfold writeEntry_header.
  change (compactMode (put_front s w)) with (compactMode w).
  destruct (compactMode w); cbn [negb]; [reflexivity|].
  change (prefix (put_front s w)) with (prefix w).
  destruct (meta node) as [|a mt], (flags node) as [|fl fls];
    rewrite ?put_front_put;
    repeat match goal with
           | |- context [prefix (put_front s ?x)] =>
               change (prefix (put_front s x)) with (prefix x)
           end;
    rewrite ?put_front_put; reflexivity.
Qed.

Section FrontContainer.
Context {Entry : Type} (writeEntry : Entry -> JsonWriter -> JsonWriter)
  (s : string).

Lemma writeContainer_rest_put_front (rest : list Entry) :
  Forall (entry_commutes writeEntry s) rest ->
  forall w, writeContainer_rest writeEntry rest (put_front s w)
            = put_front s (writeContainer_rest writeEntry rest w).
Proof.
  induction 1 as [|e rest He _ IH]; intros w; cbn [writeContainer_rest];
    [reflexivity|].
  change (compactMode (put_front s w)) with (compactMode w).
  now rewrite put_front_put, He, IH.
Qed.

Lemma writeContainer_put_front (entries : list Entry) :
  Forall (entry_commutes writeEntry s) entries ->
  forall w, writeContainer writeEntry entries (put_front s w)
            = put_front s (writeContainer writeEntry entries w).
Proof.
  intros Hall w. destruct entries as [|first rest]; cbn [writeContainer];
    [reflexivity|].
  inversion Hall as [|? ? Hfirst Hrest]; subst.
  change (set_prefix (prefix (put_front s w) ++ char tab) (put_front s w))
    with (put_front s (set_prefix (prefix w ++ char tab) w)).
  rewrite Hfirst, (writeContainer_rest_put_front rest Hrest).
  set (w3 := writeContainer_rest writeEntry rest _).
  change (compactMode (put_front s w3)) with (compactMode w3).
  rewrite put_front_put. reflexivity.
Qed.
End FrontContainer.

Lemma writeNode_put_front (show_double : double -> string) (s : string)
  (node : JsonNode) :
  forall w, writeNode show_double node (put_front s w)
            = put_front s (writeNode show_double node w).
Proof.
  induction node as [d m f Hd|v m f IH|mp m f IH] using JsonNode_tree_ind;
    intros w; cbn [writeNode data];
    change (compactMode (put_front s w)) with (compactMode w);
    change (compact (put_front s w)) with (compact w);
    set (c := compact w && negb (compactMode w) && isCompact _);
    replace (if c then set_compactMode true (put_front s w)
             else put_front s w)
      with (put_front s (if c then set_compactMode true w else w))
      by (now destruct c);
    set (w1 := if c then set_compactMode true w else w); clearbody w1.
  - destruct d as [|b|x|st|?|?|i]; try contradiction;
      rewrite ?put_front_put, ?writeString_put_front; try reflexivity.
    destruct b; reflexivity.
  - change (compactMode (put_front s w1)) with (compactMode w1).
    rewrite !put_front_put.
    rewrite (writeContainer_put_front _ s).
    + set (w2 := writeContainer _ v _).
      change (compactMode (put_front s w2)) with (compactMode w2).
      change (prefix (put_front s w2)) with (prefix w2).
      now rewrite !put_front_put.
    + eapply Forall_impl; [|exact IH]. intros e He w0.
      now rewrite writeEntry_header_put_front, He.
  - change (compactMode (put_front s w1)) with (compactMode w1).
    rewrite !put_front_put.
    rewrite (writeContainer_put_front _ s).
    + set (w2 := writeContainer _ mp _).
      change (compactMode (put_front s w2)) with (compactMode w2).
      change (prefix (put_front s w2)) with (prefix w2).
      now rewrite !put_front_put.
    + eapply Forall_impl; [|exact IH]. intros e He w0.
      now rewrite writeEntry_header_put_front, writeString_put_front,
        put_front_put, He.
Qed.

(** X25: what [writeNode] writes depends on the node and on the writer's
    settings only, not on the text written before: two writers with the
    same indentation and the same modes get the same text appended, and
    each keeps its indentation and its modes. *)
Theorem writeNode_text_of_settings (show_double : double -> string)
  (node : JsonNode) (w1 w2 : JsonWriter) :
  same_settings w1 w2 ->
  exists text,
    out (writeNode show_double node w1) = out w1 ++ text
    /\ out (writeNode show_double node w2) = out w2 ++ text
    /\ same_settings w1 (writeNode show_double node w1)
    /\ same_settings w2 (writeNode show_double node w2).
Proof.
  intros (Hp & Hc & Hm).
  set (w0 := mkJsonWriter (prefix w1) EmptyString (compact w1) (compactMode w1)).
  assert (H1 : w1 = put_front (out w1) w0).
  { destruct w1. unfold put_front, w0. cbn. now rewrite append_nil_r. }
  assert (H2 : w2 = put_front (out w2) w0).
  { destruct w2. unfold put_front, w0. cbn in *. subst.
    now rewrite append_nil_r. }
  exists (out (writeNode show_double node w0)).
  split; [|split; [|split]].
  - rewrite H1 at 1. now rewrite writeNode_put_front.
  - rewrite H2 at 1. now rewrite writeNode_put_front.
  - apply writeNode_appends.
  - apply writeNode_appends.
Qed.

(** X25 at two writers in pretty mode that differ in their output. *)
Lemma writeNode_text_of_settings_witness :
  exists text,
    out (writeNode show_double_fixed node_10_20 (JsonWriter_new false))
    = text
    /\ out (writeNode show_double_fixed node_10_20
              (put "x = " (JsonWriter_new false)))
       = "x = " ++ text.
Proof.
  destruct (writeNode_text_of_settings show_double_fixed node_10_20
              (JsonWriter_new false) (put "x = " (JsonWriter_new false)))
    as (text & H1 & H2 & _).
  - repeat split.
  - exists text. split; [exact H1|exact H2].
Defined.

(** X26: with [compact] false every Sequence and every Mapping is laid
    out over several lines, whatever it holds: the text starts with the
    bracket alone on its line, and an empty container is the two brackets
    on two lines. *)
Theorem toJson_pretty_containers (show_double : double -> string)
  (m : string) (f : list string) :
  (forall v, exists rest,
      toJson show_double false (mkJsonNode (V_JsonVector v) m f)
      = "[" ++ newline ++ rest)
  /\ (forall mp, exists rest,
        toJson show_double false (mkJsonNode (V_JsonMap mp) m f)
        = "{" ++ newline ++ rest)
  /\ toJson show_double false (mkJsonNode (V_JsonVector []) m f)
     = "[" ++ newline ++ "]"
  /\ toJson show_double false (mkJsonNode (V_JsonMap []) m f)
     = "{" ++ newline ++ "}".
Proof.
  split; [|split; [|split; reflexivity]].
  - intros v.
    destruct (writeNode_container_pretty show_double
                (mkJsonNode (V_JsonVector v) m f) (JsonWriter_new false)
                eq_refl (or_introl eq_refl)) as [H _].
    exact (H v eq_refl).
  - intros mp.
    destruct (writeNode_container_pretty show_double
                (mkJsonNode (V_JsonMap mp) m f) (JsonWriter_new false)
                eq_refl (or_introl eq_refl)) as [_ H].
    exact (H mp eq_refl).
Qed.

(** ** Boolean coercion: white space and case *)

Lemma trim_left_space (l s : string) :
  all_space l = true -> trim_left (l ++ s) = trim_left s.
Proof.
  induction l as [|c l IH]; cbn [all_space append trim_left]; [reflexivity|].
  intros H. apply andb_prop in H as [Hc Hl]. rewrite Hc. now apply IH.
Qed.

Lemma trim_right_all_space (s : string) :
  all_space s = true -> trim_right s = EmptyString.
Proof.
  induction s as [|c s IH]; cbn [all_space trim_right]; [reflexivity|].
  intros H. apply andb_prop in H as [Hc Hs]. now rewrite (IH Hs), Hc.
Qed.

Lemma trim_right_empty (s : string) :
  trim_right s = EmptyString -> all_space s = true.
Proof.
  induction s as [|c s IH]; cbn [all_space trim_right]; [reflexivity|].
  destruct (trim_right s); [|discriminate].
  destruct (is_space c); [|discriminate]. intros _. now apply IH.
Qed.

Lemma all_space_append (a b : string) :
  all_space (a ++ b) = all_space a && all_space b.
Proof.
  induction a as [|c a IH]; cbn [append all_space]; [reflexivity|].
  now rewrite IH, andb_assoc.
Qed.

Lemma trim_right_space (s r : string) :
  all_space r = true -> trim_right (s ++ r) = trim_right s.
Proof.
  intros Hr. induction s as [|c s IH]; cbn [append trim_right].
  - now apply trim_right_all_space.
  - now rewrite IH.
Qed.

Lemma trim_right_prefix (l s : string) :
  trim_right s <> EmptyString -> trim_right (l ++ s) = l ++ trim_right s.
Proof.
  intros Hs. induction l as [|c l IH]; cbn [append trim_right]; [reflexivity|].
  rewrite IH. destruct (l ++ trim_right s) eqn:E; [|reflexivity].
  destruct l; cbn [append] in E; [now elim Hs|discriminate].
Qed.

Lemma trim_padding (l s r : string) :
  all_space l = true -> all_space r = true -> trim (l ++ s ++ r) = trim s.
Proof.
  intros Hl Hr. unfold trim.
  rewrite <- append_assoc, (trim_right_space _ r Hr).
  destruct (trim_right s) eqn:Hs.
  - rewrite trim_right_all_space; [reflexivity|].
    rewrite all_space_append, Hl. now apply trim_right_empty.
  - rewrite trim_right_prefix by (rewrite Hs; discriminate).
    rewrite Hs. now apply trim_left_space.
Qed.

Lemma is_space_to_lower_char (c : ascii) :
  is_space (to_lower_char c) = is_space c.
Proof. each_ascii c. Qed.

Lemma to_lower_trim_left (s : string) :
  to_lower (trim_left s) = trim_left (to_lower s).
Proof.
  induction s as [|c s IH]; cbn [trim_left to_lower]; [reflexivity|].
  rewrite is_space_to_lower_char. now destruct (is_space c).
Qed.

Lemma to_lower_trim_right (s : string) :
  to_lower (trim_right s) = trim_right (to_lower s).
Proof.
  induction s as [|c s IH]; cbn [trim_right to_lower]; [reflexivity|].
  rewrite <- IH, is_space_to_lower_char.
  destruct (trim_right s); cbn [to_lower]; [|reflexivity].
  now destruct (is_space c).
Qed.

Lemma to_lower_trim (s : string) : to_lower (trim s) = trim (to_lower s).
Proof. unfold trim. now rewrite to_lower_trim_left, to_lower_trim_right. Qed.

(** X27: on a String node the outcome of [TryBoolFromString] depends
    neither on white space around the text nor on the case of its
    letters. *)
Theorem TryBoolFromString_insensitive (m : string) (f : list string) :
  (forall l s r,
      all_space l = true -> all_space r = true ->
      TryBoolFromString (mkJsonNode (V_string (l ++ s ++ r)) m f)
      = TryBoolFromString (mkJsonNode (V_string s) m f))
  /\ (forall a b,
        to_lower a = to_lower b ->
        TryBoolFromString (mkJsonNode (V_string a) m f)
        = TryBoolFromString (mkJsonNode (V_string b) m f)).
Proof.
  unfold TryBoolFromString. cbn [data]. split.
  - intros l s r Hl Hr. now rewrite (trim_padding l s r Hl Hr).
  - intros a b Hab. now rewrite !to_lower_trim, Hab.
Qed.

(** X27 at [" False "] with a tab and a newline around it. *)
Lemma TryBoolFromString_insensitive_witness :
  TryBoolFromString
    (mkJsonNode (V_string (char tab ++ "False" ++ newline)) EmptyString [])
  = (true, false)
  /\ TryBoolFromString (mkJsonNode (V_string "TRUE") EmptyString [])
     = TryBoolFromString (mkJsonNode (V_string "true") EmptyString []).
Proof.
  destruct (TryBoolFromString_insensitive EmptyString []) as (Hpad & Hcase).
  split.
  - rewrite (Hpad (char tab) "False" newline eq_refl eq_refl). reflexivity.
  - apply Hcase. reflexivity.
Defined.

(** ** Integer, Float and back *)

Lemma double_holds_truncation (d : double) (z : Z) :
  double_holds d z -> truncation_of d z.
Proof.
  destruct d as [s|s| |s m e]; cbn [double_holds truncation_of];
    try exact (fun H => H).
  unfold truncated_toward_zero. intros [Hsign Hmag].
  split; [destruct s; lia|].
  destruct (Z.leb_spec 0 e) as [He|He]; [exact Hmag|].
  assert (0 < 2 ^ (- e))%Z by (apply Z.pow_pos_nonneg; lia). lia.
Qed.

Lemma si64_of_double_of_si64 (i : Z) :
  (Z.abs i <= 2 ^ 53)%Z -> si64_of_double (double_of_si64 i) = i.
Proof.
  intros Hi.
  assert (Hr : si64_in_range i = true).
  { unfold si64_in_range, SI64_MIN, SI64_MAX.
    apply andb_true_intro. split; apply Z.leb_le; lia. }
  apply si64_of_double_truncation; [|exact Hr].
  apply double_holds_truncation. now apply double_of_si64_exact.
Qed.

(** X28: an integer of 53 bits or less survives the way through Float:
    retyping an Integer node that holds it to Float and back to Integer
    gives the node again, and [Integer()] reads the integer from the node
    retyped to Float, with assertions on or off. *)
Theorem setType_integer_round_trip (NDEBUG : bool) (n : JsonNode) (i : Z) :
  data n = V_si64 i -> (Z.abs i <= 2 ^ 53)%Z ->
  getType (setType DATA_FLOAT n) = DATA_FLOAT
  /\ setType DATA_INTEGER (setType DATA_FLOAT n) = n
  /\ Integer_const NDEBUG (setType DATA_FLOAT n) = Ok i.
Proof.
  intros Hd Hi. destruct n as [d m f]. cbn [data] in Hd. subst d.
  split; [reflexivity|]. split.
  - change (mkJsonNode (V_si64 (si64_of_double (double_of_si64 i))) m f
            = mkJsonNode (V_si64 i) m f).
    now rewrite si64_of_double_of_si64.
  - unfold Integer_const, assert_, type_is.
    change (getType (setType DATA_FLOAT (mkJsonNode (V_si64 i) m f)))
      with DATA_FLOAT.
    change (data (setType DATA_FLOAT (mkJsonNode (V_si64 i) m f)))
      with (@V_double JsonNode (double_of_si64 i)).
    cbn [JsonType_eqb orb]. rewrite orb_true_r.
    now rewrite si64_of_double_of_si64.
Qed.

(** X28 at an Integer node holding -5. *)
Lemma setType_integer_round_trip_witness :
  setType DATA_INTEGER (setType DATA_FLOAT (node_of_int (-5)%Z))
  = node_of_int (-5)%Z
  /\ Integer_const false (setType DATA_FLOAT (node_of_int (-5)%Z))
     = Ok (-5)%Z.
Proof.
  destruct (setType_integer_round_trip false (node_of_int (-5)%Z) (-5)%Z)
    as (_ & H1 & H2); [reflexivity|lia|].
  split; [exact H1|exact H2].
Defined.
